(** * n8n-nodes-vechain: transaction pipeline and poll engine

    A shallow embedding of the parts of the VeChain node pack that carry
    logic: the unit converter, the clause validator, the polling trigger
    with its per-block classifiers, and the build-sign-delegate-submit
    pipeline.  JavaScript values are modelled as the code has them:
    BigInt as [Z], strings as [string] (one [ascii] per code unit, the
    Latin-1 range), thrown exceptions as the [Throw] branch of [result],
    network calls as entries of an explicit trace. *)

From Stdlib Require Import ZArith List String Ascii Bool Lia.
From Stdlib.Strings Require Import Byte.
Import ListNotations.

#[local] Open Scope string_scope.
#[local] Open Scope Z_scope.

(* ================================================================== *)
(** * Part I: the embedding                                            *)
(* ================================================================== *)

(** ** JavaScript primitives used by the sources *)
Module JS.

(** What a [throw] carries.  [JsError] is [new Error(msg)]; the three
    built-in error classes are the ones [BigInt(...)] raises; the two
    [Axios*] constructors are the rejections of an axios request, with
    and without an HTTP response attached. *)
Inductive exn : Type :=
| JsError (msg : string)
| TypeError
| RangeError
| SyntaxError
| AxiosResponseError (status : Z) (dataError : option string)
| AxiosNoResponse (code : string).

Inductive result (A : Type) : Type :=
| Ok (a : A)
| Throw (e : exn).
Arguments Ok {A} a.
Arguments Throw {A} e.

Definition rbind {A B} (r : result A) (k : A -> result B) : result B :=
  match r with
  | Ok a => k a
  | Throw e => Throw e
  end.

(** *** Characters and strings *)

Definition code (c : ascii) : Z := Z.of_N (N_of_ascii c).
Definition char_of (n : Z) : ascii := ascii_of_N (Z.to_N n).

(** [String.prototype.toLowerCase] on the Latin-1 code units. *)
Definition lower_char (c : ascii) : ascii :=
  let n := code c in
  if ((65 <=? n) && (n <=? 90)) || ((192 <=? n) && (n <=? 222) && negb (n =? 215))
  then char_of (n + 32) else c.

Fixpoint toLowerCase (s : string) : string :=
  match s with
  | EmptyString => EmptyString
  | String c s' => String (lower_char c) (toLowerCase s')
  end.

(** Every character of [s] passes [p]. *)
Fixpoint all_chars (p : ascii -> bool) (s : string) : bool :=
  match s with
  | EmptyString => true
  | String c s' => p c && all_chars p s'
  end.

(** [s.includes(c)] for a one-character needle. *)
Fixpoint includes (c : ascii) (s : string) : bool :=
  match s with
  | EmptyString => false
  | String a s' => Ascii.eqb a c || includes c s'
  end.

(** [s.split(c)]: never empty, [""] splits to [[""]]. *)
Fixpoint split (c : ascii) (s : string) : list string :=
  match s with
  | EmptyString => [EmptyString]
  | String a s' =>
      if Ascii.eqb a c then EmptyString :: split c s'
      else match split c s' with
           | p :: ps => String a p :: ps
           | [] => [String a EmptyString]
           end
  end.

(** [s.startsWith(p)]. *)
Fixpoint startsWith (p s : string) : bool :=
  match p, s with
  | EmptyString, _ => true
  | String a p', String b s' => Ascii.eqb a b && startsWith p' s'
  | String _ _, EmptyString => false
  end.

(** [s.slice(n)] for [0 <= n]. *)
Fixpoint slice_from (n : nat) (s : string) : string :=
  match n, s with
  | O, _ => s
  | S n', String _ s' => slice_from n' s'
  | S _, EmptyString => EmptyString
  end.

(** [s.slice(0, n)] for [0 <= n]. *)
Fixpoint slice_to (n : nat) (s : string) : string :=
  match n, s with
  | O, _ => EmptyString
  | S n', String a s' => String a (slice_to n' s')
  | S _, EmptyString => EmptyString
  end.

Fixpoint repeat_char (c : ascii) (n : nat) : string :=
  match n with
  | O => EmptyString
  | S n' => String c (repeat_char c n')
  end.

(** [s.padStart(n, c)] for a one-character filler. *)
Definition padStart (n : nat) (c : ascii) (s : string) : string :=
  (repeat_char c (n - String.length s) ++ s)%string.

(** [s.replace(/0+$/, '')]: drop the trailing zeros. *)
Fixpoint strip_trailing_zeros (s : string) : string :=
  match s with
  | EmptyString => EmptyString
  | String c s' =>
      match strip_trailing_zeros s' with
      | EmptyString => if Ascii.eqb c "0" then EmptyString else String c EmptyString
      | t => String c t
      end
  end.

(** *** Numbers *)

(** An IEEE double, by value: [Finite m e] is [m * 2^e]. *)
Inductive Number : Type :=
| NaN
| Infinity (negative : bool)
| Finite (m e : Z).

Definition of_int (z : Z) : Number := Finite z 0.

(** [BigInt(x)] for a Number [x] (NumberToBigInt): a RangeError unless
    [x] is an integer. *)
Definition NumberToBigInt (x : Number) : result Z :=
  match x with
  | Finite m e =>
      if 0 <=? e then Ok (m * 2 ^ e)
      else if m mod 2 ^ (- e) =? 0 then Ok (m / 2 ^ (- e))
      else Throw RangeError
  | _ => Throw RangeError
  end.

(** *** BigInt parsing and printing *)

(** StrWhiteSpaceChar, Latin-1 part: TAB LF VT FF CR SP NBSP. *)
Definition is_space (c : ascii) : bool :=
  let n := code c in
  ((9 <=? n) && (n <=? 13)) || (n =? 32) || (n =? 160).

Definition digit_val (c : ascii) : option Z :=
  let n := code c in
  if (48 <=? n) && (n <=? 57) then Some (n - 48)
  else if (97 <=? n) && (n <=? 122) then Some (n - 87)
  else if (65 <=? n) && (n <=? 90) then Some (n - 55)
  else None.

Definition digit_in (radix : Z) (c : ascii) : option Z :=
  match digit_val c with
  | Some d => if d <? radix then Some d else None
  | None => None
  end.

Fixpoint parse_digits (radix : Z) (s : string) (acc : Z) : option Z :=
  match s with
  | EmptyString => Some acc
  | String c s' =>
      match digit_in radix c with
      | Some d => parse_digits radix s' (acc * radix + d)
      | None => None
      end
  end.

(** One or more digits of the radix. *)
Definition parse_nat (radix : Z) (s : string) : option Z :=
  match s with
  | EmptyString => None
  | _ => parse_digits radix s 0
  end.

Fixpoint trim_start (s : string) : string :=
  match s with
  | EmptyString => EmptyString
  | String c s' => if is_space c then trim_start s' else s
  end.

Fixpoint trim_end (s : string) : string :=
  match s with
  | EmptyString => EmptyString
  | String c s' =>
      match trim_end s' with
      | EmptyString => if is_space c then EmptyString else String c EmptyString
      | t => String c t
      end
  end.

Definition trim (s : string) : string := trim_end (trim_start s).

(** The radix a [0x], [0o] or [0b] prefix announces, in either case. *)
Definition radix_of (p : ascii) : option Z :=
  let q := lower_char p in
  if Ascii.eqb q "x" then Some 16
  else if Ascii.eqb q "o" then Some 8
  else if Ascii.eqb q "b" then Some 2
  else None.

Definition prefixed (a : ascii) (rest : string) : option (Z * string) :=
  if Ascii.eqb a "0" then
    match rest with
    | String p digits =>
        match radix_of p with
        | Some radix => Some (radix, digits)
        | None => None
        end
    | EmptyString => None
    end
  else None.

(** StringToBigInt: surrounding white space is dropped, the empty
    literal is 0, a decimal literal may carry one sign, a [0x]/[0o]/[0b]
    prefix selects the radix and admits no sign; anything else is
    [None] (a SyntaxError in [BigInt(...)]). *)
Definition StringToBigInt (s : string) : option Z :=
  match trim s with
  | EmptyString => Some 0
  | String a rest =>
      if Ascii.eqb a "+" then parse_nat 10 rest
      else if Ascii.eqb a "-" then option_map Z.opp (parse_nat 10 rest)
      else match prefixed a rest with
           | Some (radix, digits) => parse_nat radix digits
           | None => parse_nat 10 (String a rest)
           end
  end.

(** The argument of [BigInt(...)] as the sources pass it. *)
Inductive Numeric : Type :=
| VString (s : string)
| VNumber (x : Number)
| VBigInt (z : Z).

Definition BigInt (v : Numeric) : result Z :=
  match v with
  | VString s =>
      match StringToBigInt s with
      | Some z => Ok z
      | None => Throw SyntaxError
      end
  | VNumber x => NumberToBigInt x
  | VBigInt z => Ok z
  end.

Definition digit_char (d : Z) : ascii :=
  char_of (if d <? 10 then 48 + d else 87 + d).

(** Digits of [n >= 0], most significant first, pushed in front of [acc]. *)
Fixpoint to_digits (fuel : nat) (radix n : Z) (acc : string) : string :=
  match fuel with
  | O => acc
  | S f =>
      let acc' := String (digit_char (n mod radix)) acc in
      if n <? radix then acc' else to_digits f radix (n / radix) acc'
  end.

Definition nat_toString (radix n : Z) : string :=
  to_digits (S (Z.to_nat (Z.log2 n))) radix n EmptyString.

(** [z.toString(radix)] on a BigInt (and on an integral Number). *)
Definition toString_radix (radix z : Z) : string :=
  if z <? 0 then String "-" (nat_toString radix (- z)) else nat_toString radix z.

Definition toString (z : Z) : string := toString_radix 10 z.

(** *** Double arithmetic on the values the sources compute with *)

(** The double nearest to [m * 2^e], ties to even (53-bit significand;
    the exponent range is not modelled: no value computed here comes near
    overflow or the subnormals). *)
Definition round53 (m e : Z) : Number :=
  let a := Z.abs m in
  let k := Z.log2 a + 1 - 53 in
  if k <=? 0 then Finite m e
  else
    let q := a / 2 ^ k in
    let r := a mod 2 ^ k in
    let half := 2 ^ (k - 1) in
    let q' := if (half <? r) || ((r =? half) && Z.odd q) then q + 1 else q in
    Finite (Z.sgn m * q') (e + k).

(** [x * y] *)
Definition mul (x y : Number) : Number :=
  match x, y with
  | Finite m1 e1, Finite m2 e2 => round53 (m1 * m2) (e1 + e2)
  | NaN, _ | _, NaN => NaN
  | Infinity s, Finite m _ | Finite m _, Infinity s =>
      if m =? 0 then NaN else Infinity (xorb s (m <? 0))
  | Infinity s1, Infinity s2 => Infinity (xorb s1 s2)
  end.

(** [Math.floor(x)] and [Math.ceil(x)] of a finite [x], as integers. *)
Definition floor (x : Number) : option Z :=
  match x with
  | Finite m e => Some (if 0 <=? e then m * 2 ^ e else m / 2 ^ (- e))
  | _ => None
  end.

Definition ceil (x : Number) : option Z :=
  match x with
  | Finite m e => Some (if 0 <=? e then m * 2 ^ e else - ((- m) / 2 ^ (- e)))
  | _ => None
  end.

(** The double written [1.2]. *)
Definition ONE_POINT_TWO : Number := Finite 5404319552844595 (-52).

(** *** Bytes and hex strings (ethers [hexlify] / [getBytes]) *)

Definition hex_of_byte (b : byte) : string :=
  let n := Z.of_N (Byte.to_N b) in
  String (digit_char (n / 16)) (String (digit_char (n mod 16)) EmptyString).

Fixpoint hex_of_bytes (bs : list byte) : string :=
  match bs with
  | [] => EmptyString
  | b :: rest => (hex_of_byte b ++ hex_of_bytes rest)%string
  end.

Definition hexlify (bs : list byte) : string :=
  ("0x" ++ hex_of_bytes bs)%string.

Fixpoint bytes_of_hex (s : string) : option (list byte) :=
  match s with
  | EmptyString => Some []
  | String a (String b rest) =>
      match digit_in 16 a, digit_in 16 b, bytes_of_hex rest with
      | Some x, Some y, Some bs =>
          match Byte.of_N (Z.to_N (16 * x + y)) with
          | Some byte => Some (byte :: bs)
          | None => None
          end
      | _, _, _ => None
      end
  | String _ EmptyString => None
  end.

(** [ethers.getBytes(value)] on a string: the value has to match
    [/^0x(?:[0-9a-f][0-9a-f])*$/i], so the prefix and the digits may be
    in either case; [undefined] is not BytesLike. *)
Definition getBytes (value : option string) : result (list byte) :=
  match value with
  | Some (String a (String b digits)) =>
      if Ascii.eqb a "0" && Ascii.eqb (lower_char b) "x" then
        match bytes_of_hex digits with
        | Some bs => Ok bs
        | None => Throw TypeError
        end
      else Throw TypeError
  | _ => Throw TypeError
  end.

End JS.

Notation "x <- e ;; k" := (JS.rbind e (fun x => k))
  (at level 61, e at next level, right associativity).

(** ** utils/unitConverter.ts *)
Module UnitConverter.
Import JS.

(** The own properties of the [UNIT_MULTIPLIERS] object literal. *)
Definition UNIT_MULTIPLIERS : list (string * Z) :=
  [ ("wei", 1);
    ("kwei", 1000);
    ("mwei", 1000000);
    ("gwei", 1000000000);
    ("microvet", 1000000000000);
    ("millivet", 1000000000000000);
    ("vet", 1000000000000000000);
    ("vtho", 1000000000000000000);
    ("ether", 1000000000000000000) ].

(** The names every object literal inherits from [Object.prototype]. *)
Definition OBJECT_PROTOTYPE_KEYS : list string :=
  [ "constructor"; "__proto__"; "hasOwnProperty"; "isPrototypeOf";
    "propertyIsEnumerable"; "toLocaleString"; "toString"; "valueOf";
    "__defineGetter__"; "__defineSetter__"; "__lookupGetter__";
    "__lookupSetter__" ].

(** What [UNIT_MULTIPLIERS[key]] evaluates to: an own bigint, an
    inherited member (an object, never a bigint), or [undefined]. *)
Inductive multiplier : Type :=
| Own (m : Z)
| Inherited
| Undefined.

Fixpoint assoc (key : string) (table : list (string * Z)) : option Z :=
  match table with
  | [] => None
  | (k, v) :: rest => if String.eqb k key then Some v else assoc key rest
  end.

Definition lookup (key : string) : multiplier :=
  match assoc key UNIT_MULTIPLIERS with
  | Some m => Own m
  | None =>
      if existsb (String.eqb key) OBJECT_PROTOTYPE_KEYS then Inherited else Undefined
  end.

(** [!m] *)
Definition falsy (m : multiplier) : bool :=
  match m with
  | Own z => z =? 0
  | Inherited => false
  | Undefined => true
  end.

(** [a * m], [a / m] and [a % m] on a bigint [a]: mixing a bigint with
    anything else is a TypeError, dividing by [0n] a RangeError; the
    quotient truncates towards zero. *)
Definition times (a : Z) (m : multiplier) : result Z :=
  match m with
  | Own z => Ok (a * z)
  | _ => Throw TypeError
  end.

Definition big_div (a b : Z) : result Z :=
  if b =? 0 then Throw RangeError else Ok (Z.quot a b).

Definition big_rem (a b : Z) : result Z :=
  if b =? 0 then Throw RangeError else Ok (Z.rem a b).

Definition over (a : Z) (m : multiplier) : result Z :=
  match m with
  | Own z => big_div a z
  | _ => Throw TypeError
  end.

Definition modulo (a : Z) (m : multiplier) : result Z :=
  match m with
  | Own z => big_rem a z
  | _ => Throw TypeError
  end.

Section Engine.

(** [10 ** d] is exact up to [d = 22]; beyond that the double nearest to
    the power is engine-approximated, so it is left to the engine. *)
Variable pow10_inexact : nat -> Number.

Definition pow10 (d : nat) : Number :=
  if (d <=? 22)%nat then of_int (10 ^ Z.of_nat d) else pow10_inexact d.

Definition convertUnits (value : Numeric) (fromUnit toUnit : string)
  : result string :=
  let normalizedFrom := toLowerCase fromUnit in
  let normalizedTo := toLowerCase toUnit in
  let fromMultiplier := lookup normalizedFrom in
  let toMultiplier := lookup normalizedTo in
  if falsy fromMultiplier then Throw (JsError ("Unknown unit: " ++ fromUnit)) else
  if falsy toMultiplier then Throw (JsError ("Unknown unit: " ++ toUnit)) else
  (* Convert to wei first *)
  valueInWei <-
    match value with
    | VString s =>
        if includes "." s then
          let parts := split "." s in
          let whole := nth 0 parts EmptyString in
          let decimal := nth 1 parts EmptyString in
          let decimals := String.length decimal in
          let combined := (whole ++ decimal)%string in
          c <- BigInt (VString combined) ;;
          p <- times c fromMultiplier ;;
          d <- BigInt (VNumber (pow10 decimals)) ;;
          big_div p d
        else
          c <- BigInt value ;; times c fromMultiplier
    | _ => c <- BigInt value ;; times c fromMultiplier
    end ;;
  (* Convert from wei to target unit *)
  result <- over valueInWei toMultiplier ;;
  remainder <- modulo valueInWei toMultiplier ;;
  if remainder =? 0 then Ok (toString result) else
  (* Handle decimals for the result *)
  let decimalPlaces := 18%nat in
  let multiplier := 10 ^ Z.of_nat decimalPlaces in
  decimalPart <- over (remainder * multiplier) toMultiplier ;;
  let decimalStr :=
    strip_trailing_zeros (padStart decimalPlaces "0" (toString decimalPart)) in
  if String.eqb decimalStr EmptyString then Ok (toString result)
  else Ok (toString result ++ "." ++ decimalStr)%string.

Definition weiToVet (wei : Numeric) : result string :=
  convertUnits wei "wei" "vet".

Definition vetToWei (vet : Numeric) : result string :=
  convertUnits vet "vet" "wei".

Definition weiToVtho (wei : Numeric) : result string :=
  convertUnits wei "wei" "vtho".

Definition vthoToWei (vtho : Numeric) : result string :=
  convertUnits vtho "vtho" "wei".

End Engine.

End UnitConverter.

(** ** utils/clauseBuilder.ts *)
Module ClauseBuilder.
Import JS.

Record Clause : Type := {
  to : option string;      (* null for a contract creation *)
  value : string;
  data : string
}.

Record ClauseWithMeta : Type := {
  clause : Clause;
  comment : option string;
  gasEstimate : option Z
}.

Record Validation : Type := {
  valid : bool;
  errors : list string
}.

Definition is_hex_char (c : ascii) : bool :=
  let n := code c in
  ((48 <=? n) && (n <=? 57)) || ((97 <=? n) && (n <=? 102))
  || ((65 <=? n) && (n <=? 70)).

(** [/^0x[a-fA-F0-9]{40}$/.test(address)] *)
Definition isValidAddress (address : string) : bool :=
  match address with
  | String "0" (String "x" digits) =>
      (String.length digits =? 40)%nat && all_chars is_hex_char digits
  | _ => false
  end.

Definition push_if (cond : bool) (msg : string) (errors : list string)
  : list string :=
  if cond then errors ++ [msg] else errors.

Definition index_label (i : nat) : string :=
  ("Clause " ++ toString (Z.of_nat i))%string.

(** The try/catch around [BigInt(clause.value)]. *)
Definition value_throws (c : Clause) : bool :=
  match BigInt (VString (value c)) with
  | Ok _ => false
  | Throw _ => true
  end.

(** One iteration of the loop body of [validate], at index [i]. *)
Definition check_clause (i : nat) (c : Clause) (errors : list string)
  : list string :=
  (* Check to address (null is allowed for contract deployment) *)
  let errors :=
    push_if (match to c with
             | Some a => negb (isValidAddress a)
             | None => false
             end)
            (index_label i ++ ": Invalid 'to' address")%string errors in
  (* Check value *)
  let errors :=
    push_if (value_throws c) (index_label i ++ ": Invalid 'value'")%string errors in
  (* Check data *)
  push_if (negb (startsWith "0x" (data c)))
          (index_label i ++ ": Data must start with 0x")%string errors.

Fixpoint validate_loop (i : nat) (clauses : list ClauseWithMeta)
  (errors : list string) : list string :=
  match clauses with
  | [] => errors
  | c :: rest => validate_loop (S i) rest (check_clause i (clause c) errors)
  end.

Definition validate (clauses : list ClauseWithMeta) : Validation :=
  let errors := push_if (List.length clauses =? 0)%nat "No clauses added" [] in
  let errors := validate_loop 0 clauses errors in
  {| valid := (List.length errors =? 0)%nat; errors := errors |}.

(** [addRawClause]: appends to the builder's sequence. *)
Definition addRawClause (clauses : list ClauseWithMeta) (to_ : option string)
  (value_ data_ : string) (comment_ : option string) (gasEstimate_ : option Z)
  : list ClauseWithMeta :=
  clauses ++ [ {| clause := {| to := to_; value := value_; data := data_ |};
                  comment := comment_; gasEstimate := gasEstimate_ |} ].

(** [getClauses]: the clauses without their annotations. *)
Definition getClauses (clauses : list ClauseWithMeta) : list Clause :=
  map clause clauses.

End ClauseBuilder.

(** ** Effects: a state monad over [JS.result]

    An [async] function of the sources is a computation that may read
    and write a state (the persisted cursor, the log of calls made) and
    may throw; a throw keeps the state reached so far. *)
Module Eff.
Import JS.

Section State.
Context {S : Type}.

Definition M (A : Type) : Type := S -> result A * S.

Definition ret {A} (a : A) : M A := fun s => (Ok a, s).

Definition throw {A} (e : exn) : M A := fun s => (Throw e, s).

Definition bind {A B} (m : M A) (k : A -> M B) : M B :=
  fun s =>
    match m s with
    | (Ok a, s') => k a s'
    | (Throw e, s') => (Throw e, s')
    end.

(** A computation without effects, such as a call into a pure helper. *)
Definition lift {A} (r : result A) : M A := fun s => (r, s).

Definition get : M S := fun s => (Ok s, s).

Definition modify (f : S -> S) : M unit := fun s => (Ok tt, f s).

End State.
End Eff.

Notation "x <~ e ;; k" := (Eff.bind e (fun x => k))
  (at level 61, e at next level, right associativity).
Notation "e ;;; k" := (Eff.bind e (fun _ => k))
  (at level 61, right associativity).

(** ** transport/thorClient.ts: the response types the trigger reads *)
Module ThorClient.
Import JS.

Record BlockInfo : Type := {
  number : Z;
  id : string;
  timestamp : Z;
  gasLimit : Z;
  gasUsed : Z;
  signer : string;
  beneficiary : string;
  isTrunk : bool;
  transactions : option (list string)
}.

Record LogMeta : Type := {
  blockID : string;
  blockNumber : Z;
  blockTimestamp : Z;
  txID : string;
  txOrigin : string;
  clauseIndex : Z
}.

(** An entry of [POST /logs/transfer]. *)
Record TransferLog : Type := {
  sender : string;
  recipient : string;
  amount : string;
  t_meta : LogMeta
}.

(** An entry of [POST /logs/event]. *)
Record EventLog : Type := {
  e_address : string;
  topics : list string;
  e_data : string;
  e_meta : LogMeta
}.

(** [EventFilter]: the two criteria the trigger sets. *)
Record EventFilter : Type := {
  f_address : option string;
  topic0 : option string
}.

(** The node behind the client during one tick: what each request
    resolves to, or the error it rejects with. *)
Record Node : Type := {
  blocks_best : result (option BlockInfo);               (* GET /blocks/best *)
  blocks : Z -> result (option BlockInfo);               (* GET /blocks/{n} *)
  logs_transfer : Z -> result (list TransferLog);        (* range: block n..n *)
  logs_event : EventFilter -> Z -> result (list EventLog)
}.

(** [createBlockRef]: [blockId.slice(0, 18)] *)
Definition createBlockRef (blockId : string) : string := slice_to 18 blockId.

End ThorClient.

(** ** VechainTrigger.node.ts *)
Module Trigger.
Import JS ThorClient.

Definition VTHO_CONTRACT_ADDRESS : string :=
  "0x0000000000000000000000000000456e65726779".

Definition transferTopic : string :=
  "0xddf252ad1be2c89b69c2b068fc378daa952ba7f163c4a11628f55a4df523b3ef".

(** The node parameters [getNodeParameter] returns. *)
Record Parameters : Type := {
  triggerOn : string;
  address : string;
  tokenContract : string;
  nftContract : string;
  contractAddress : string;
  eventSignature : string;
  threshold : Number;
  monitorAddress : string
}.

(** The [json] of an emitted item, one constructor per trigger shape. *)
Inductive Event : Type :=
| NewBlock (blockNumber : Z) (blockId : string) (timestamp gasLimit gasUsed : Z)
    (txCount : Z) (signer beneficiary : string) (isTrunk : bool)
| BlockFinalized (blockNumber : Z) (blockId : string) (timestamp : Z)
    (finalized : bool) (confirmations : Z)
| VetTransfer (type from to amount amountFormatted txId : string)
    (blockNumber timestamp : Z)
| VthoTransfer (type from to amount amountFormatted txId : string)
    (blockNumber timestamp : Z)
| TokenTransfer (type tokenContract from to amount txId : string)
    (blockNumber timestamp : Z)
| NftTransfer (type nftContract from to tokenId txId : string)
    (blockNumber timestamp : Z)
| ContractEvent (address : string) (topics : list string) (data txId : string)
    (blockNumber timestamp clauseIndex : Z)
| LargeTransaction (from to amount amountFormatted : string) (amountVet : Z)
    (threshold : Number) (txId : string) (blockNumber timestamp : Z).

(** What a tick does to the outside world, in order. *)
Inductive Action : Type :=
| GetBestBlock
| GetBlock (blockNum : Z)
| FilterTransfers (from to : Z)
| FilterEvents (from to : Z) (criteria : EventFilter)
| WriteCursor (n : Z).

(** [workflowStaticData.lastBlockNumber] (absent before the first tick)
    and the log of actions taken. *)
Record State : Type := {
  lastBlockNumber : option Z;
  actions : list Action
}.

Definition Poll (A : Type) : Type := @Eff.M State A.

Definition log (a : Action) : Poll unit :=
  Eff.modify (fun s => {| lastBlockNumber := lastBlockNumber s;
                          actions := actions s ++ [a] |}).

(** [workflowStaticData.lastBlockNumber = n] *)
Definition write_cursor (n : Z) : Poll unit :=
  Eff.modify (fun s => {| lastBlockNumber := Some n;
                          actions := actions s ++ [WriteCursor n] |}).

Definition read_cursor : Poll (option Z) :=
  s <~ Eff.get ;; Eff.ret (lastBlockNumber s).

(** [for (const x of xs) { ... }] over a body that may throw. *)
Fixpoint for_of {A B} (body : B -> A -> result B) (xs : list A) (acc : B)
  : result B :=
  match xs with
  | [] => Ok acc
  | x :: rest => acc' <- body acc x ;; for_of body rest acc'
  end.

Section Tick.

Variable pow10_inexact : nat -> Number.
(** [keccak256(toUtf8Bytes(signature))] of ethers. *)
Variable keccak256 : string -> string.
Variable node : Node.
Variable params : Parameters.

Definition getBestBlock : Poll (option BlockInfo) :=
  log GetBestBlock ;;; Eff.lift (blocks_best node).

Definition getBlock (blockNum : Z) : Poll (option BlockInfo) :=
  log (GetBlock blockNum) ;;; Eff.lift (blocks node blockNum).

(** [client.getTransfers({ range: { unit: 'block', from: n, to: n } })] *)
Definition getTransfers (n : Z) : Poll (list TransferLog) :=
  log (FilterTransfers n n) ;;; Eff.lift (logs_transfer node n).

(** [client.getEvents({ range: ..., criteriaSet: [criteria] })] *)
Definition getEvents (n : Z) (criteria : EventFilter) : Poll (list EventLog) :=
  log (FilterEvents n n criteria) ;;; Eff.lift (logs_event node criteria n).

Definition direction (isReceived : bool) : string :=
  if isReceived then "received" else "sent".

(** *** processVetTransfers *)
Definition vet_body (trigger addressLower : string) (returnData : list Event)
  (transfer : TransferLog) : result (list Event) :=
  let isReceived := String.eqb (toLowerCase (recipient transfer)) addressLower in
  let isSent := String.eqb (toLowerCase (sender transfer)) addressLower in
  if (String.eqb trigger "vetReceived" && isReceived)
     || (String.eqb trigger "vetSent" && isSent)
  then
    formatted <- UnitConverter.weiToVet pow10_inexact (VString (amount transfer)) ;;
    Ok (returnData ++
        [VetTransfer (direction isReceived) (sender transfer) (recipient transfer)
           (amount transfer) (formatted ++ " VET")%string
           (txID (t_meta transfer)) (blockNumber (t_meta transfer))
           (blockTimestamp (t_meta transfer))])%list
  else Ok returnData.

Definition processVetTransfers (block : BlockInfo) (trigger : string)
  (returnData : list Event) : Poll (list Event) :=
  let addressLower := toLowerCase (address params) in
  transfers <~ getTransfers (number block) ;;
  Eff.lift (for_of (vet_body trigger addressLower) transfers returnData).

(** ['0x' + topic.slice(26)] *)
Definition topic_address (topic : string) : string :=
  ("0x" ++ slice_from 26 topic)%string.

(** *** processVthoTransfers *)
Definition vtho_body (trigger addressLower : string) (returnData : list Event)
  (event : EventLog) : result (list Event) :=
  if (List.length (topics event) <? 3)%nat then Ok returnData else
  let from := topic_address (nth 1 (topics event) EmptyString) in
  let to := topic_address (nth 2 (topics event) EmptyString) in
  let amount := e_data event in
  let isReceived := String.eqb (toLowerCase to) addressLower in
  let isSent := String.eqb (toLowerCase from) addressLower in
  if (String.eqb trigger "vthoReceived" && isReceived)
     || (String.eqb trigger "vthoSent" && isSent)
  then
    formatted <- UnitConverter.weiToVtho pow10_inexact (VString amount) ;;
    Ok (returnData ++
        [VthoTransfer (direction isReceived) from to amount
           (formatted ++ " VTHO")%string
           (txID (e_meta event)) (blockNumber (e_meta event))
           (blockTimestamp (e_meta event))])%list
  else Ok returnData.

Definition processVthoTransfers (block : BlockInfo) (trigger : string)
  (returnData : list Event) : Poll (list Event) :=
  let addressLower := toLowerCase (address params) in
  events <~ getEvents (number block)
              {| f_address := Some VTHO_CONTRACT_ADDRESS;
                 topic0 := Some transferTopic |} ;;
  Eff.lift (for_of (vtho_body trigger addressLower) events returnData).

(** [criteria.address] is set only for a non-empty contract parameter. *)
Definition optional (s : string) : option string :=
  if String.eqb s EmptyString then None else Some s.

(** *** processTokenTransfers *)
Definition token_body (addressLower : string) (returnData : list Event)
  (event : EventLog) : result (list Event) :=
  if (List.length (topics event) <? 3)%nat then Ok returnData else
  let from := topic_address (nth 1 (topics event) EmptyString) in
  let to := topic_address (nth 2 (topics event) EmptyString) in
  let isReceived := String.eqb (toLowerCase to) addressLower in
  let isSent := String.eqb (toLowerCase from) addressLower in
  if isReceived || isSent then
    Ok (returnData ++
        [TokenTransfer (direction isReceived) (e_address event) from to
           (e_data event) (txID (e_meta event)) (blockNumber (e_meta event))
           (blockTimestamp (e_meta event))])%list
  else Ok returnData.

Definition processTokenTransfers (block : BlockInfo) (returnData : list Event)
  : Poll (list Event) :=
  let addressLower := toLowerCase (address params) in
  let criteria := {| f_address := optional (tokenContract params);
                     topic0 := Some transferTopic |} in
  events <~ getEvents (number block) criteria ;;
  Eff.lift (for_of (token_body addressLower) events returnData).

(** *** processNftTransfers *)
Definition nft_body (addressLower : string) (returnData : list Event)
  (event : EventLog) : result (list Event) :=
  if (List.length (topics event) <? 4)%nat then Ok returnData else
  let from := topic_address (nth 1 (topics event) EmptyString) in
  let to := topic_address (nth 2 (topics event) EmptyString) in
  id <- BigInt (VString (nth 3 (topics event) EmptyString)) ;;
  let tokenId := toString id in
  let isReceived := String.eqb (toLowerCase to) addressLower in
  let isSent := String.eqb (toLowerCase from) addressLower in
  if isReceived || isSent then
    Ok (returnData ++
        [NftTransfer (direction isReceived) (e_address event) from to tokenId
           (txID (e_meta event)) (blockNumber (e_meta event))
           (blockTimestamp (e_meta event))])%list
  else Ok returnData.

Definition processNftTransfers (block : BlockInfo) (returnData : list Event)
  : Poll (list Event) :=
  let addressLower := toLowerCase (address params) in
  let criteria := {| f_address := optional (nftContract params);
                     topic0 := Some transferTopic |} in
  events <~ getEvents (number block) criteria ;;
  Eff.lift (for_of (nft_body addressLower) events returnData).

(** *** processContractEvents *)
Definition contract_body (returnData : list Event) (event : EventLog)
  : result (list Event) :=
  Ok (returnData ++
      [ContractEvent (e_address event) (topics event) (e_data event)
         (txID (e_meta event)) (blockNumber (e_meta event))
         (blockTimestamp (e_meta event)) (clauseIndex (e_meta event))])%list.

Definition processContractEvents (block : BlockInfo) (returnData : list Event)
  : Poll (list Event) :=
  let criteria :=
    {| f_address := Some (contractAddress params);
       topic0 := if String.eqb (eventSignature params) EmptyString then None
                 else Some (keccak256 (eventSignature params)) |} in
  events <~ getEvents (number block) criteria ;;
  Eff.lift (for_of contract_body events returnData).

(** *** processLargeTransactions *)
Definition large_body (thresholdWei : Z) (returnData : list Event)
  (transfer : TransferLog) : result (list Event) :=
  (* BigInt(transfer.amount || '0') *)
  amount' <- BigInt (VString (if String.eqb (amount transfer) EmptyString
                              then "0" else amount transfer)) ;;
  if amount' <? thresholdWei then Ok returnData else
  let addrLower := toLowerCase (monitorAddress params) in
  if negb (String.eqb (monitorAddress params) EmptyString)
     && (negb (String.eqb (toLowerCase (sender transfer)) addrLower)
         && negb (String.eqb (toLowerCase (recipient transfer)) addrLower))
  then Ok returnData else
  formatted <- UnitConverter.weiToVet pow10_inexact (VString (amount transfer)) ;;
  unit <- BigInt (VNumber (UnitConverter.pow10 pow10_inexact 18)) ;;
  (* the bigint that Number(...) then rounds to a double *)
  amountVet <- UnitConverter.big_div amount' unit ;;
  Ok (returnData ++
      [LargeTransaction (sender transfer) (recipient transfer) (amount transfer)
         (formatted ++ " VET")%string amountVet (threshold params)
         (txID (t_meta transfer)) (blockNumber (t_meta transfer))
         (blockTimestamp (t_meta transfer))])%list.

(** [BigInt(threshold) * BigInt(10 ** 18)] *)
Definition scale_threshold : result Z :=
  t <- BigInt (VNumber (threshold params)) ;;
  unit <- BigInt (VNumber (UnitConverter.pow10 pow10_inexact 18)) ;;
  Ok (t * unit).

Definition processLargeTransactions (block : BlockInfo) (returnData : list Event)
  : Poll (list Event) :=
  thresholdWei <~ Eff.lift scale_threshold ;;
  transfers <~ getTransfers (number block) ;;
  Eff.lift (for_of (large_body thresholdWei) transfers returnData).

(** *** poll *)

(** [block.transactions?.length || 0] *)
Definition txCount (block : BlockInfo) : Z :=
  match transactions block with
  | Some txs => Z.of_nat (List.length txs)
  | None => 0
  end.

(** The [switch (triggerOn)] of the loop body. *)
Definition dispatch (block : BlockInfo) (blockNum : Z) (bestBlock : BlockInfo)
  (returnData : list Event) : Poll (list Event) :=
  let trigger := triggerOn params in
  if String.eqb trigger "newBlock" then
    Eff.ret (returnData ++
             [NewBlock (number block) (id block) (timestamp block)
                (gasLimit block) (gasUsed block) (txCount block)
                (signer block) (beneficiary block) (isTrunk block)])%list
  else if String.eqb trigger "blockFinalized" then
    (* In PoA 2.0, finality is ~12 blocks behind *)
    if blockNum <=? number bestBlock - 12 then
      Eff.ret (returnData ++
               [BlockFinalized (number block) (id block) (timestamp block) true
                  (number bestBlock - number block)])%list
    else Eff.ret returnData
  else if String.eqb trigger "vetReceived" || String.eqb trigger "vetSent" then
    processVetTransfers block trigger returnData
  else if String.eqb trigger "vthoReceived" || String.eqb trigger "vthoSent" then
    processVthoTransfers block trigger returnData
  else if String.eqb trigger "tokenTransfer" then
    processTokenTransfers block returnData
  else if String.eqb trigger "nftTransfer" then
    processNftTransfers block returnData
  else if String.eqb trigger "contractEvent" then
    processContractEvents block returnData
  else if String.eqb trigger "largeTransaction" then
    processLargeTransactions block returnData
  else Eff.ret returnData.

(** The [for] loop: [count] iterations, for [blockNum], [blockNum + 1], ...
    Entered with [blockNum = lastBlockNumber + 1] and
    [count = bestBlock.number - lastBlockNumber], it visits every number
    up to [bestBlock.number] and stops there. *)
Fixpoint for_blocks (count : nat) (blockNum : Z) (bestBlock : BlockInfo)
  (returnData : list Event) : Poll (list Event) :=
  match count with
  | O => Eff.ret returnData
  | S count' =>
      block <~ (if blockNum =? number bestBlock then Eff.ret (Some bestBlock)
                else getBlock blockNum) ;;
      match block with
      | None => for_blocks count' (blockNum + 1) bestBlock returnData
      | Some b =>
          returnData' <~ dispatch b blockNum bestBlock returnData ;;
          for_blocks count' (blockNum + 1) bestBlock returnData'
      end
  end.

(** [null] is [None]; [[returnData]] is [Some returnData]. *)
Definition poll : Poll (option (list Event)) :=
  (* Get last processed block from workflow static data *)
  last <~ read_cursor ;;
  (* Get current best block *)
  best <~ getBestBlock ;;
  match best with
  | None => Eff.ret None
  | Some bestBlock =>
      match last with
      | None =>
          (* Initialize on first run *)
          write_cursor (number bestBlock) ;;;
          Eff.ret None
      | Some lastBlockNumber =>
          (* No new blocks *)
          if number bestBlock <=? lastBlockNumber then Eff.ret None else
          returnData <~ for_blocks (Z.to_nat (number bestBlock - lastBlockNumber))
                          (lastBlockNumber + 1) bestBlock [] ;;
          (* Update last processed block *)
          write_cursor (number bestBlock) ;;;
          if (List.length returnData =? 0)%nat then Eff.ret None
          else Eff.ret (Some returnData)
      end
  end.

End Tick.
End Trigger.

(** ** actions/transaction/transaction.operations.ts, with
       transport/delegationService.ts *)
Module TransactionOps.
Import JS ClauseBuilder ThorClient.

Record Reserved : Type := {
  features : Z
}.

(** [Transaction.Body] as [sendTransaction] fills it in. *)
Record TransactionBody : Type := {
  chainTag : Z;
  blockRef : string;
  expiration : Z;
  clauses : list Clause;
  gasPriceCoef : Z;
  gas : Z;
  dependsOn : option string;
  nonce : string;
  reserved : option Reserved
}.

Definition with_reserved (r : Reserved) (b : TransactionBody) : TransactionBody :=
  {| chainTag := chainTag b; blockRef := blockRef b; expiration := expiration b;
     clauses := clauses b; gasPriceCoef := gasPriceCoef b; gas := gas b;
     dependsOn := dependsOn b; nonce := nonce b; reserved := Some r |}.

(** [ethers.Signature]: [v] is 27 or 28. *)
Record Signature : Type := {
  r : list byte;
  s : list byte;
  yParity : bool
}.

Definition v (sig : Signature) : Z := if yParity sig then 28 else 27.

(** [ethers.toBeHex(n)] for [0 <= n < 256], as bytes. *)
Definition toBeHex (n : Z) : list byte :=
  match Byte.of_N (Z.to_N n) with
  | Some b => [b]
  | None => []
  end.

(** The credentials object handed over as [delegationCredentials]. *)
Record Credentials : Type := {
  privateKey : string;
  enableDelegation : bool;          (* truthiness of the field *)
  delegatorUrl : string;            (* empty when absent *)
  delegatorPrivateKey : string      (* empty when absent *)
}.

(** The body of the delegation service's reply. *)
Record DelegationResponse : Type := {
  signature : option string;
  error : option string
}.

(** One result of [POST /accounts/*]. *)
Record CallResult : Type := {
  c_gasUsed : Z;
  reverted : bool;
  vmError : string
}.

(** What [sendTransaction] returns. *)
Record Submitted : Type := {
  txId : string;
  origin : string;
  s_gas : Z;
  s_gasPriceCoef : Z;
  s_expiration : Z;
  s_blockRef : string;
  success : bool;
  message : string
}.

(** The Thor node and the delegation service during one operation. *)
Record Network : Type := {
  best : result (option BlockInfo);                         (* GET /blocks/best *)
  simulate : list Clause -> Z -> result (list CallResult);  (* POST /accounts/* *)
  submit : string -> result string;                         (* POST /transactions *)
  delegate : string -> string -> string -> result DelegationResponse
                                     (* POST {url}/delegate with {raw, origin} *)
}.

(** A string is truthy unless empty. *)
Definition truthy (s : string) : bool := negb (String.eqb s EmptyString).

Definition truthy_opt (s : option string) : bool :=
  match s with
  | Some s => truthy s
  | None => false
  end.

(** [ThorClient.generateNonce]: ['0x' + hexlify(randomBytes(8)).slice(2)]. *)
Definition generateNonce (randomBytes : list byte) : string :=
  ("0x" ++ slice_from 2 (hexlify randomBytes))%string.

(** [Math.ceil(total * 1.2)] for an integral total. *)
Definition with_buffer (total : Z) : Z :=
  match ceil (mul (of_int total) ONE_POINT_TWO) with
  | Some g => g
  | None => 0
  end.

Section Pipeline.

(** The libraries behind the pipeline: [ethers] wallets and signing keys,
    and [thor-devkit]'s [Transaction]. *)
Context {Digest : Type}.
(** [new ethers.Wallet(key).address]; throws on a malformed key. *)
Variable Wallet : string -> result string.
(** [tx.signingHash()]; throws when the body does not encode. *)
Variable signingHash : TransactionBody -> result Digest.
(** [wallet.signingKey.sign(digest)] *)
Variable sign : string -> Digest -> result Signature.
(** [tx.encode()]: the body, with [tx.signature] once it is set. *)
Variable encode : TransactionBody -> option (list byte) -> result (list byte).
(** [iface.encodeFunctionData('transfer', [to, amount])] *)
Variable encodeTransfer : string -> string -> result string.
Variable pow10_inexact : nat -> Number.

Variable client_chainTag : Z.
Variable net : Network.

(** What an operation does to the outside world and to the key material,
    in order. *)
Inductive Call : Type :=
| GetBestBlock
| EstimateGas (clauses : list Clause)
| SigningHash (body : TransactionBody)
| Sign (digest : Digest)
| Delegate (url raw origin : string)
| Submit (raw : string).

Definition Tx (A : Type) : Type := @Eff.M (list Call) A.

Definition log (c : Call) : Tx unit := Eff.modify (fun t => (t ++ [c])%list).

(** [client.getBestBlock()]; reading [.id] of a missing block throws. *)
Definition getBestBlock : Tx BlockInfo :=
  log GetBestBlock ;;;
  b <~ Eff.lift (best net) ;;
  match b with
  | Some block => Eff.ret block
  | None => Eff.throw TypeError
  end.

(** [client.estimateGas(clauses)]: a batch call with a gas cap of 10000000. *)
Definition estimateGas (clauses : list Clause) : Tx (list CallResult) :=
  log (EstimateGas clauses) ;;; Eff.lift (simulate net clauses 10000000).

(** [client.sendTransaction(raw)] *)
Definition client_sendTransaction (raw : string) : Tx string :=
  log (Submit raw) ;;; Eff.lift (submit net raw).

(** [createDelegationService(url, key)]: the constructor builds a wallet
    from the sponsor key when one is given. *)
Definition createDelegationService (url sponsorPrivateKey : string) : Tx unit :=
  if truthy sponsorPrivateKey then
    _ <~ Eff.lift (Wallet sponsorPrivateKey) ;; Eff.ret tt
  else Eff.ret tt.

(** [DelegationService.requestDelegation] *)
Definition requestDelegation (url rawTransaction origin : string)
  : Tx DelegationResponse :=
  log (Delegate url rawTransaction origin) ;;;
  match delegate net url rawTransaction origin with
  | Ok data => Eff.ret data
  | Throw (AxiosResponseError _ dataError) =>
      Eff.ret {| signature := Some EmptyString;
                 error := Some (if truthy_opt dataError
                                then match dataError with
                                     | Some e => e
                                     | None => EmptyString
                                     end
                                else "Delegation request failed") |}
  | Throw e => Eff.throw e
  end.

(** [delegationCredentials?.enableDelegation] *)
Definition delegation_enabled (c : option Credentials) : bool :=
  match c with
  | Some c => enableDelegation c
  | None => false
  end.

(** [delegationCredentials?.enableDelegation && delegationCredentials?.delegatorUrl] *)
Definition delegation_remote (c : option Credentials) : option Credentials :=
  match c with
  | Some c => if enableDelegation c && truthy (delegatorUrl c) then Some c else None
  | None => None
  end.

(** The body [sendTransaction] builds, up to and including the
    delegation flag.  [randomBytes] is what [ethers.randomBytes(8)]
    returns in this call. *)
Definition build_body (randomBytes : list byte) (clauses_ : list Clause)
  (gas_ gasPriceCoef_ expiration_ : Z) (delegationCredentials : option Credentials)
  (bestBlock : BlockInfo) : TransactionBody :=
  let blockRef_ := createBlockRef (id bestBlock) in
  (* Build transaction body *)
  let txBody :=
    {| chainTag := client_chainTag;
       blockRef := blockRef_;
       expiration := expiration_;
       clauses := map (fun c => {| to := to c; value := value c; data := data c |})
                      clauses_;
       gasPriceCoef := gasPriceCoef_;
       gas := gas_;
       dependsOn := None;
       nonce := generateNonce randomBytes;
       reserved := None |} in
  (* Handle delegation *)
  if delegation_enabled delegationCredentials
  then with_reserved {| features := 1 |} txBody else txBody.

(** Helper function to send a transaction. *)
Definition sendTransaction (randomBytes : list byte) (clauses_ : list Clause)
  (privateKey_ : string) (gas_ gasPriceCoef_ expiration_ : Z)
  (delegationCredentials : option Credentials) : Tx Submitted :=
  wallet <~ Eff.lift (Wallet privateKey_) ;;
  bestBlock <~ getBestBlock ;;
  let blockRef_ := createBlockRef (id bestBlock) in
  let txBody :=
    build_body randomBytes clauses_ gas_ gasPriceCoef_ expiration_
      delegationCredentials bestBlock in
  (* Create and sign transaction *)
  log (SigningHash txBody) ;;;
  digest <~ Eff.lift (signingHash txBody) ;;
  log (Sign digest) ;;;
  signature_ <~ Eff.lift (sign privateKey_ digest) ;;
  let sig := (r signature_ ++ s signature_ ++ toBeHex (v signature_ - 27))%list in
  (* Handle delegation signature if needed *)
  tx_signature <~
    match delegation_remote delegationCredentials with
    | Some c =>
        createDelegationService (delegatorUrl c) (delegatorPrivateKey c) ;;;
        unsigned <~ Eff.lift (encode txBody None) ;;
        delegationResponse <~
          requestDelegation (delegatorUrl c) (hexlify unsigned) wallet ;;
        if truthy_opt (error delegationResponse) then
          Eff.throw (JsError ("Fee delegation failed: " ++
                              match error delegationResponse with
                              | Some e => e
                              | None => EmptyString
                              end))
        else
          (* Combine signatures *)
          sponsor <~ Eff.lift (getBytes (signature delegationResponse)) ;;
          Eff.ret (sig ++ sponsor)%list
    | None => Eff.ret sig
    end ;;
  (* Send transaction *)
  signed <~ Eff.lift (encode txBody (Some tx_signature)) ;;
  let encoded := hexlify signed in
  result_id <~ client_sendTransaction encoded ;;
  Eff.ret {| txId := result_id; origin := wallet; s_gas := gas_;
             s_gasPriceCoef := gasPriceCoef_; s_expiration := expiration_;
             s_blockRef := blockRef_; success := true;
             message := "Transaction submitted successfully" |}.

(** [n || d] on a number. *)
Definition or_default (n d : Z) : Z := if n =? 0 then d else n.

Definition delegation_arg (useDelegation : bool) (credentials : Credentials)
  : option Credentials :=
  if useDelegation then Some credentials else None.

(** [case 'sendVet'] of [executeTransactionOperation] *)
Definition sendVet (randomBytes : list byte) (credentials : Credentials)
  (toAddress amount_ : string) (gasLimit_ gasPriceCoef_ expiration_ : Z)
  (useDelegation : bool) : Tx Submitted :=
  (* Convert amount to wei *)
  valueWei <~ Eff.lift (UnitConverter.vetToWei pow10_inexact (VString amount_)) ;;
  (* Build clause *)
  let clause_ := {| to := Some toAddress; value := valueWei; data := "0x" |} in
  (* Send transaction *)
  sendTransaction randomBytes [clause_] (privateKey credentials)
    (or_default gasLimit_ 21000) gasPriceCoef_ expiration_
    (delegation_arg useDelegation credentials).

Definition VTHO_CONTRACT_ADDRESS : string :=
  "0x0000000000000000000000000000456e65726779".

(** [case 'sendVtho'] *)
Definition sendVtho (randomBytes : list byte) (credentials : Credentials)
  (toAddress amount_ : string) (gasLimit_ gasPriceCoef_ expiration_ : Z)
  (useDelegation : bool) : Tx Submitted :=
  (* Convert amount to wei *)
  valueWei <~ Eff.lift (UnitConverter.vthoToWei pow10_inexact (VString amount_)) ;;
  (* Build transfer call *)
  data_ <~ Eff.lift (encodeTransfer toAddress valueWei) ;;
  let clause_ := {| to := Some VTHO_CONTRACT_ADDRESS; value := "0"; data := data_ |} in
  (* Send transaction *)
  sendTransaction randomBytes [clause_] (privateKey credentials)
    (or_default gasLimit_ 60000) gasPriceCoef_ expiration_
    (delegation_arg useDelegation credentials).

(** [estimates.reduce((sum, e) => sum + e.gasUsed, 0)]: integer gas
    figures, each at most the cap of the call, add up exactly. *)
Definition total_gasUsed (estimates : list CallResult) : Z :=
  fold_left (fun sum e => sum + c_gasUsed e) estimates 0.

(** [case 'multiClause'], from the parsed clause list on. *)
Definition multiClause (randomBytes : list byte) (credentials : Credentials)
  (clauses_ : list Clause) (gasLimit_ gasPriceCoef_ expiration_ : Z)
  (useDelegation : bool) : Tx Submitted :=
  (* Estimate gas if not provided *)
  gas_ <~ (if gasLimit_ =? 0 then
             estimates <~ estimateGas clauses_ ;;
             Eff.ret (with_buffer (total_gasUsed estimates))
           else Eff.ret gasLimit_) ;;
  sendTransaction randomBytes clauses_ (privateKey credentials)
    gas_ gasPriceCoef_ expiration_
    (delegation_arg useDelegation credentials).

End Pipeline.
End TransactionOps.

(** ** actions/vet/vet.operations.ts: the module's own nonce helper *)
Module VetOperations.
Import JS.

(** [generateNonce], given the double [Math.random()] returned:
    ['0x' + Math.floor(random * 0xffffffff).toString(16).padStart(8, '0')] *)
Definition generateNonce (random : Number) : string :=
  let digits :=
    match mul random (of_int 4294967295) with
    | NaN => "NaN"
    | Infinity negative => if negative then "-Infinity" else "Infinity"
    | Finite m e =>
        match floor (Finite m e) with
        | Some n => toString_radix 16 n
        | None => "NaN"
        end
    end in
  ("0x" ++ padStart 8 "0" digits)%string.

End VetOperations.

(** ** Observations on runs, and the predicates of the specification *)

Module Observe.
Import JS ClauseBuilder ThorClient.

(** A Number is an integer (what [BigInt(x)] accepts). *)
Definition is_integer (x : Number) : bool :=
  match x with
  | Finite m e => (0 <=? e) || (m mod 2 ^ (- e) =? 0)
  | _ => false
  end.

(** Decimal digit characters. *)
Definition is_digit (c : ascii) : bool :=
  (48 <=? code c) && (code c <=? 57).

(** The three per-clause checks of [validate], as the clause passes them. *)
Definition to_ok (c : Clause) : bool :=
  match to c with
  | Some a => isValidAddress a
  | None => true
  end.

Definition value_ok (c : Clause) : bool :=
  match StringToBigInt (value c) with
  | Some _ => true
  | None => false
  end.

Definition data_ok (c : Clause) : bool := startsWith "0x" (data c).

Definition clause_ok (c : Clause) : bool := to_ok c && value_ok c && data_ok c.

(** Addresses compared without regard to case. *)
Definition same_address (a b : string) : bool :=
  String.eqb (toLowerCase a) (toLowerCase b).

(** The amount of a transfer log as an integer of base units. *)
Definition amount_wei (t : TransferLog) : option Z :=
  StringToBigInt (if String.eqb (amount t) EmptyString then "0" else amount t).

(** Large-transaction classification, in the words of the specification:
    the amount is at or above the threshold in base units, and, when a
    monitor address is configured, the transfer touches it as sender or
    as recipient. *)
Definition qualifies (thresholdWei : Z) (monitor : string) (t : TransferLog) : bool :=
  match amount_wei t with
  | Some a =>
      (thresholdWei <=? a)
      && (String.eqb monitor EmptyString
          || same_address (sender t) monitor
          || same_address (recipient t) monitor)
  | None => false
  end.

Definition is_write (a : Trigger.Action) : bool :=
  match a with
  | Trigger.WriteCursor _ => true
  | _ => false
  end.

Definition is_log_request (a : Trigger.Action) : bool :=
  match a with
  | Trigger.FilterTransfers _ _ | Trigger.FilterEvents _ _ _ => true
  | _ => false
  end.

Definition threw {A} (r : result A) : bool :=
  match r with
  | Ok _ => false
  | Throw _ => true
  end.

Section Calls.
Context {Digest : Type}.

(** The bodies whose signing hash was taken, the digests that were
    signed, the raw transactions that were submitted and the gas
    estimations requested, in the order of the run. *)
Fixpoint hashed (t : list (@TransactionOps.Call Digest))
  : list TransactionOps.TransactionBody :=
  match t with
  | [] => []
  | TransactionOps.SigningHash b :: rest => b :: hashed rest
  | _ :: rest => hashed rest
  end.

Fixpoint signed (t : list (@TransactionOps.Call Digest)) : list Digest :=
  match t with
  | [] => []
  | TransactionOps.Sign d :: rest => d :: signed rest
  | _ :: rest => signed rest
  end.

Fixpoint submissions (t : list (@TransactionOps.Call Digest)) : list string :=
  match t with
  | [] => []
  | TransactionOps.Submit raw :: rest => raw :: submissions rest
  | _ :: rest => submissions rest
  end.

Fixpoint estimations (t : list (@TransactionOps.Call Digest))
  : list (list Clause) :=
  match t with
  | [] => []
  | TransactionOps.EstimateGas cs :: rest => cs :: estimations rest
  | _ :: rest => estimations rest
  end.

End Calls.

End Observe.

(** ** How a tick may extend the state *)
Module Extent.
Import JS ThorClient Trigger.

(** [s'] is [s] after some further actions, all of which pass [p], with
    the cursor as it was. *)
Definition extends (p : Action -> bool) (s s' : State) : Prop :=
  lastBlockNumber s' = lastBlockNumber s
  /\ exists work, actions s' = (actions s ++ work)%list /\ forallb p work = true.

(** A computation that only ever extends the state that way. *)
Definition confined {A} (p : Action -> bool) (m : Poll A) : Prop :=
  forall s, extends p s (snd (m s)).

Definition not_write (a : Action) : bool := negb (Observe.is_write a).

Definition is_fetch (a : Action) : bool :=
  match a with
  | GetBlock _ => true
  | _ => false
  end.

(** The event a qualifying transfer is reported as. *)
Definition large_event (pow10_inexact : nat -> Number) (threshold_ : Number)
  (t : TransferLog) : Event :=
  LargeTransaction (sender t) (recipient t) (amount t)
    (match UnitConverter.weiToVet pow10_inexact (VString (amount t)) with
     | Ok formatted => formatted ++ " VET"
     | Throw _ => EmptyString
     end)%string
    (match Observe.amount_wei t with
     | Some a => Z.quot a (10 ^ 18)
     | None => 0
     end)
    threshold_
    (txID (t_meta t)) (blockNumber (t_meta t)) (blockTimestamp (t_meta t)).

(** The block the loop works on at [n]: the best block is reused, any
    other is fetched. *)
Definition block_at (node : Node) (bestBlock : BlockInfo) (n : Z)
  : result (option BlockInfo) :=
  if n =? number bestBlock then Ok (Some bestBlock) else blocks node n.

(** Neither a cursor write nor a log request. *)
Definition harmless (a : Action) : bool :=
  not_write a && negb (Observe.is_log_request a).

(** [null] for an empty batch. *)
Definition batch (returnData : list Event) : option (list Event) :=
  match returnData with
  | [] => None
  | _ => Some returnData
  end.

End Extent.

(** ** Sample inputs *)
Module Samples.
Import JS ClauseBuilder ThorClient Trigger.

Definition zero_address : string := "0x0000000000000000000000000000000000000000".

Definition sample (to_ : option string) (value_ data_ : string) : ClauseWithMeta :=
  {| clause := {| to := to_; value := value_; data := data_ |};
     comment := None; gasEstimate := None |}.

Definition sample_block (n : Z) : BlockInfo :=
  {| number := n; id := "0x00"; timestamp := 0; gasLimit := 0; gasUsed := 0;
     signer := "0x00"; beneficiary := "0x00"; isTrunk := true;
     transactions := None |}.

Definition sample_meta : LogMeta :=
  {| blockID := "0x00"; blockNumber := 11; blockTimestamp := 0; txID := "0x7a";
     txOrigin := "0x00"; clauseIndex := 0 |}.

(** A node at height 12 whose block 11 holds two transfers between the
    same parties: exactly 2 VET, and one wei less. *)
Definition sample_node : Node :=
  {| blocks_best := Ok (Some (sample_block 12));
     blocks := fun n => Ok (Some (sample_block n));
     logs_transfer := fun n =>
       if n =? 11 then
         Ok [ {| sender := "0xAA"; recipient := "0xbb";
                 amount := "2000000000000000000"; t_meta := sample_meta |};
              {| sender := "0xAA"; recipient := "0xbb";
                 amount := "1999999999999999999"; t_meta := sample_meta |} ]
       else Ok [];
     logs_event := fun _ _ => Ok [] |}.

Definition sample_params (trigger : string) (threshold_ : Number) (monitor : string)
  : Parameters :=
  {| triggerOn := trigger; address := "0xaa"; tokenContract := EmptyString;
     nftContract := EmptyString; contractAddress := EmptyString;
     eventSignature := EmptyString; threshold := threshold_;
     monitorAddress := monitor |}.


(** Stand-ins for the libraries, for running the pipeline on a sample:
    the digest is the body itself, the signature and the encodings are
    fixed bytes. *)
Definition sample_Wallet (key : string) : result string :=
  if String.eqb key EmptyString then Throw TypeError else Ok ("0xd0" ++ key)%string.

Definition sample_signingHash (b : TransactionOps.TransactionBody)
  : result TransactionOps.TransactionBody := Ok b.

Definition sample_sign (key : string) (d : TransactionOps.TransactionBody)
  : result TransactionOps.Signature :=
  Ok {| TransactionOps.r := [x01]; TransactionOps.s := [x02];
        TransactionOps.yParity := true |}.

Definition sample_encode (b : TransactionOps.TransactionBody)
  (sig : option (list byte)) : result (list byte) :=
  Ok (match sig with
      | Some bytes => xee :: bytes
      | None => [xdd]
      end).

Definition sample_encodeTransfer (to_ amount_ : string) : result string :=
  Ok "0xa9059cbb".

(** A node at height 5 that estimates 21000 gas and accepts what is
    submitted, next to a delegation service that answers [reply]. *)
Definition sample_network (reply : result TransactionOps.DelegationResponse)
  : TransactionOps.Network :=
  {| TransactionOps.best := Ok (Some (sample_block 5));
     TransactionOps.simulate := fun _ _ =>
       Ok [ {| TransactionOps.c_gasUsed := 21000; TransactionOps.reverted := false;
               TransactionOps.vmError := EmptyString |} ];
     TransactionOps.submit := fun _ => Ok "0x7a";
     TransactionOps.delegate := fun _ _ _ => reply |}.

Definition sample_credentials (enabled : bool) (url : string)
  : TransactionOps.Credentials :=
  {| TransactionOps.privateKey := "01"; TransactionOps.enableDelegation := enabled;
     TransactionOps.delegatorUrl := url;
     TransactionOps.delegatorPrivateKey := EmptyString |}.

Definition sample_entropy : list byte := [x00; x01; x02; x03; x04; x05; x06; xff].

Definition sample_clause : Clause :=
  {| to := Some zero_address; value := "1"; data := "0x" |}.

End Samples.

(** ** Reading numerals *)
Module Numerals.
Import JS.

(** The number a string of decimal digits denotes (0 when it is not
    one). *)
Definition decimal_value (s : string) : Z :=
  match parse_digits 10 s 0 with
  | Some v => v
  | None => 0
  end.

End Numerals.

(** ** utils/unitConverter.ts: token amounts *)
Module TokenAmount.
Import JS UnitConverter.

(** [s.padEnd(n, c)] for a one-character filler. *)
Definition padEnd (n : nat) (c : ascii) (s : string) : string :=
  (s ++ repeat_char c (n - String.length s))%string.

Section Engine.
Variable pow10_inexact : nat -> Number.

#[local] Abbreviation pow10 := (pow10 pow10_inexact).

(** [decimals] is the number of decimals of a token, a natural number. *)
Definition formatTokenAmount (amount : Numeric) (decimals : nat) : result string :=
  amountBigInt <- BigInt amount ;;
  divisor <- BigInt (VNumber (pow10 decimals)) ;;
  wholePart <- big_div amountBigInt divisor ;;
  decimalPart <- big_rem amountBigInt divisor ;;
  if decimalPart =? 0 then Ok (toString wholePart) else
  let decimalStr :=
    strip_trailing_zeros (padStart decimals "0" (toString decimalPart)) in
  Ok (toString wholePart ++ "." ++ decimalStr)%string.

(** On an amount given as a string, for which [amount.toString()] is
    the amount itself. *)
Definition parseTokenAmount (amount : string) (decimals : nat) : result string :=
  let amountStr := amount in
  if negb (includes "." amountStr) then
    a <- BigInt (VString amountStr) ;;
    d <- BigInt (VNumber (pow10 decimals)) ;;
    Ok (toString (a * d))
  else
    let parts := split "." amountStr in
    let whole := nth 0 parts EmptyString in
    let decimal := nth 1 parts EmptyString in
    let paddedDecimal := slice_to decimals (padEnd decimals "0" decimal) in
    let combined := (whole ++ paddedDecimal)%string in
    c <- BigInt (VString combined) ;;
    Ok (toString c).

(** [precision] is a number of digits, a natural number (4 when the
    caller leaves it out). *)
Definition formatVet (wei : Numeric) (precision : nat) : result string :=
  vet <- weiToVet pow10_inexact wei ;;
  if negb (includes "." vet) then Ok (vet ++ " VET")%string else
  let parts := split "." vet in
  let whole := nth 0 parts EmptyString in
  let decimal := nth 1 parts EmptyString in
  Ok (whole ++ "." ++ slice_to precision decimal ++ " VET")%string.

Definition formatVtho (wei : Numeric) (precision : nat) : result string :=
  vtho <- weiToVtho pow10_inexact wei ;;
  if negb (includes "." vtho) then Ok (vtho ++ " VTHO")%string else
  let parts := split "." vtho in
  let whole := nth 0 parts EmptyString in
  let decimal := nth 1 parts EmptyString in
  Ok (whole ++ "." ++ slice_to precision decimal ++ " VTHO")%string.

End Engine.
End TokenAmount.

(** ** What a tick reports *)
Module Ticks.
Import JS ThorClient Trigger Extent.

(** The item the [newBlock] trigger makes of a block. *)
Definition new_block_event (b : BlockInfo) : Event :=
  NewBlock (number b) (id b) (timestamp b) (gasLimit b) (gasUsed b)
    (txCount b) (signer b) (beneficiary b) (isTrunk b).

(** The blocks the node has at [blockNum], [blockNum + 1], ...,
    [count] numbers in all, in that order. *)
Fixpoint found_blocks (node : Node) (bestBlock : BlockInfo) (count : nat)
  (blockNum : Z) : list BlockInfo :=
  match count with
  | O => []
  | S count' =>
      match block_at node bestBlock blockNum with
      | Ok (Some b) => b :: found_blocks node bestBlock count' (blockNum + 1)
      | _ => found_blocks node bestBlock count' (blockNum + 1)
      end
  end.

(** The transfers the [vetReceived] and [vetSent] triggers report for
    an address. *)
Definition vet_watched (trigger address_ : string) (t : TransferLog) : bool :=
  if String.eqb trigger "vetReceived"
  then String.eqb (toLowerCase (recipient t)) (toLowerCase address_)
  else String.eqb (toLowerCase (sender t)) (toLowerCase address_).

(** The item such a transfer is reported as: it is labelled as received
    whenever the recipient is the watched address. *)
Definition vet_event (pow10_inexact : nat -> Number) (address_ : string)
  (t : TransferLog) : Event :=
  VetTransfer
    (if Observe.same_address (recipient t) address_ then "received" else "sent")
    (sender t) (recipient t) (amount t)
    (match UnitConverter.weiToVet pow10_inexact (VString (amount t)) with
     | Ok formatted => formatted ++ " VET"
     | Throw _ => EmptyString
     end)%string
    (txID (t_meta t)) (blockNumber (t_meta t)) (blockTimestamp (t_meta t)).

End Ticks.

(** ** utils/clauseBuilder.ts: the rest of the builder *)
Module ClauseBuilderOps.
Import JS ClauseBuilder.

(** [comment || fallback] *)
Definition or_comment (comment_ : option string) (fallback : string) : string :=
  match comment_ with
  | Some c => if String.eqb c EmptyString then fallback else c
  | None => fallback
  end.

(** [addVetTransfer] *)
Definition addVetTransfer (clauses : list ClauseWithMeta) (to_ amount_ : string)
  (comment_ : option string) : list ClauseWithMeta :=
  clauses ++ [ {| clause := {| to := Some to_; value := amount_; data := "0x" |};
                  comment := Some (or_comment comment_
                                     ("Transfer " ++ amount_ ++ " wei VET to " ++ to_));
                  gasEstimate := Some 21000 |} ].

(** [s.replace('0x', '')]: the first occurrence goes. *)
Fixpoint remove_first_0x (s : string) : string :=
  match s with
  | EmptyString => EmptyString
  | String a rest =>
      if Ascii.eqb a "0" && startsWith "x" rest then slice_from 1 rest
      else String a (remove_first_0x rest)
  end.

(** [addContractDeploy], with the optional arguments given. *)
Definition addContractDeploy (clauses : list ClauseWithMeta)
  (bytecode constructorArgs value_ : string) (comment_ : option string)
  : list ClauseWithMeta :=
  let data_ := (bytecode ++ remove_first_0x constructorArgs)%string in
  clauses ++ [ {| clause := {| to := None; value := value_; data := data_ |};
                  comment := Some (or_comment comment_ "Deploy contract");
                  gasEstimate := Some 1000000 |} ].

(** [getClausesWithMeta]: a copy of the sequence. *)
Definition getClausesWithMeta (clauses : list ClauseWithMeta) : list ClauseWithMeta :=
  clauses.

(** [clause.gasEstimate || 21000] *)
Definition gas_or_default (c : ClauseWithMeta) : Z :=
  match gasEstimate c with
  | Some g => if g =? 0 then 21000 else g
  | None => 21000
  end.

(** [getTotalGasEstimate]: sums of integer estimates are exact. *)
Definition getTotalGasEstimate (clauses : list ClauseWithMeta) : Z :=
  (* Base transaction gas *)
  let total := 5000 in
  (* Add clause gas *)
  fold_left (fun total c => total + gas_or_default c) clauses total.

Definition getClauseCount (clauses : list ClauseWithMeta) : Z :=
  Z.of_nat (List.length clauses).

Definition clear (clauses : list ClauseWithMeta) : list ClauseWithMeta := [].

(** [removeClause]: [this.clauses.splice(index, 1)] for an integer
    [index]; a negative one counts from the end. *)
Definition removeClause (clauses : list ClauseWithMeta) (index : Z)
  : list ClauseWithMeta :=
  let len := Z.of_nat (List.length clauses) in
  let start := if index <? 0 then Z.max (len + index) 0 else Z.min index len in
  let deleteCount := Z.min 1 (len - start) in
  (firstn (Z.to_nat start) clauses
   ++ skipn (Z.to_nat (start + deleteCount)) clauses)%list.

Definition createVetTransferClause (to_ amount_ : string) : Clause :=
  {| to := Some to_; value := amount_; data := "0x" |}.

(** [createBatchVetTransfers], on the [{to, amount}] pairs. *)
Definition createBatchVetTransfers (transfers : list (string * string))
  : list Clause :=
  map (fun '(to_, amount_) => createVetTransferClause to_ amount_) transfers.

(** A builder that [addVetTransfer] has filled, one call per transfer. *)
Definition vet_builder (transfers : list (string * string)) : list ClauseWithMeta :=
  fold_left (fun b '(to_, amount_) => addVetTransfer b to_ amount_ None)
            transfers [].

End ClauseBuilderOps.

(** ** Vechain.node.ts: the loop of [execute] *)
Module VechainNode.
Import JS.

(** What one input item turns into: the result of the operation, or,
    under [continueOnFail], the message of what it threw. *)
Inductive Output (Json : Type) : Type :=
| Result (json : Json)
| Failed (error : string).
Arguments Result {Json} json.
Arguments Failed {Json} error.

Record Item (Json : Type) : Type := {
  json : Output Json;
  pairedItem : nat
}.
Arguments json {Json} i.
Arguments pairedItem {Json} i.

Section Execute.
(** The world the operations act on, and what they return. *)
Context {World Json : Type}.

(** [executeAccountOperation.call(this, operation, i)] and the others. *)
Variable executeAccountOperation : string -> nat -> @Eff.M World Json.
Variable executeTransactionOperation : string -> nat -> @Eff.M World Json.
Variable executeVetOperation : string -> nat -> @Eff.M World Json.
Variable executeVthoOperation : string -> nat -> @Eff.M World Json.
Variable executeVip180Operation : string -> nat -> @Eff.M World Json.
Variable executeVip181Operation : string -> nat -> @Eff.M World Json.
Variable executeContractOperation : string -> nat -> @Eff.M World Json.
Variable executeBlockOperation : string -> nat -> @Eff.M World Json.
Variable executeUtilityOperation : string -> nat -> @Eff.M World Json.

(** [error instanceof Error ? error.message : 'Unknown error'] *)
Variable message : exn -> string.

(** [this.continueOnFail()] *)
Variable continueOnFail : bool.

Variable resource operation : string.

(** The [switch (resource)]; the [NodeOperationError] of the default
    case is an error with that message. *)
Definition run_operation (i : nat) : @Eff.M World Json :=
  if String.eqb resource "account" then executeAccountOperation operation i
  else if String.eqb resource "transaction" then executeTransactionOperation operation i
  else if String.eqb resource "vet" then executeVetOperation operation i
  else if String.eqb resource "vtho" then executeVthoOperation operation i
  else if String.eqb resource "vip180" then executeVip180Operation operation i
  else if String.eqb resource "vip181" then executeVip181Operation operation i
  else if String.eqb resource "contract" then executeContractOperation operation i
  else if String.eqb resource "block" then executeBlockOperation operation i
  else if String.eqb resource "utility" then executeUtilityOperation operation i
  else Eff.throw (JsError ("Unknown resource: " ++ resource)).

(** The [for] loop over the items [i], [i + 1], ..., [count] of them. *)
Fixpoint for_items (count i : nat) (returnData : list (Item Json))
  : @Eff.M World (list (Item Json)) :=
  match count with
  | O => Eff.ret returnData
  | S count' =>
      fun w =>
        match run_operation i w with
        | (Ok result, w') =>
            for_items count' (S i)
              (returnData ++ [ {| json := Result result; pairedItem := i |} ]) w'
        | (Throw error, w') =>
            if continueOnFail then
              for_items count' (S i)
                (returnData
                 ++ [ {| json := Failed (message error); pairedItem := i |} ]) w'
            else (Throw error, w')
        end
  end.

(** [execute], for [items] input items; the one output is [returnData]. *)
Definition execute (items : nat) : @Eff.M World (list (Item Json)) :=
  for_items items 0 [].

End Execute.
End VechainNode.

(** ** Fees and energy *)
Module Energy.
Import JS UnitConverter.

(** [x + y] on doubles. *)
Definition add (x y : Number) : Number :=
  match x, y with
  | Finite m1 e1, Finite m2 e2 =>
      let e := Z.min e1 e2 in
      round53 (m1 * 2 ^ (e1 - e) + m2 * 2 ^ (e2 - e)) e
  | NaN, _ | _, NaN => NaN
  | Infinity s1, Infinity s2 => if Bool.eqb s1 s2 then Infinity s1 else NaN
  | Infinity s, Finite _ _ | Finite _ _, Infinity s => Infinity s
  end.

(** [BigInt(Math.floor(x))] *)
Definition floor_to_BigInt (x : Number) : result Z :=
  match floor x with
  | Some n => Ok n
  | None => Throw RangeError
  end.

(** [calculateVthoGenerated], on an amount given as a string (a bigint
    is given by its decimal digits). *)
Definition calculateVthoGenerated (vetAmount : string) (seconds : Number)
  : result string :=
  vetBigInt <- BigInt (VString vetAmount) ;;
  (* Use high precision calculation *)
  elapsed <- floor_to_BigInt (mul seconds (of_int 5)) ;;
  unit <- BigInt (VNumber (of_int (10 ^ 9))) ;;
  vthoWei <- big_div (vetBigInt * elapsed) unit ;;
  Ok (toString vthoWei).

Definition SECONDS_PER_DAY : Number := of_int 86400.

Definition calculateVthoPerDay (vetAmount : string) : result string :=
  calculateVthoGenerated vetAmount SECONDS_PER_DAY.

(** [estimateTransactionCost] of [energyCalculator.ts] *)
Definition estimateTransactionCost (gasUsed gasPriceCoef : Number) : result string :=
  (* Base gas price in VTHO (1e15 wei per gas unit) *)
  baseGasPrice <- BigInt (VString "1000000000000000") ;;
  (* Apply gas price coefficient (0-255) *)
  multiplier <- BigInt (VNumber (add (of_int 128) gasPriceCoef)) ;;
  divisor <- BigInt (VNumber (of_int 128)) ;;
  adjustedGasPrice <- big_div (baseGasPrice * multiplier) divisor ;;
  gas <- BigInt (VNumber gasUsed) ;;
  let cost := adjustedGasPrice * gas in
  Ok (toString cost).

(** [case 'calculateVthoCost'] of [utility.operations.ts], up to
    [costWei]: the price per unit of gas and the cost, as they are
    returned in [adjustedGasPriceWei] and [costWei]. *)
Definition calculateVthoCost (gasAmount gasPriceCoef : Number)
  : result (string * string) :=
  (* Base gas price: 1e15 wei per gas unit *)
  baseGasPrice <- BigInt (VNumber (of_int (10 ^ 15))) ;;
  (* Actual gas price with coefficient *)
  coef <- BigInt (VNumber gasPriceCoef) ;;
  divisor <- BigInt (VNumber (of_int 255)) ;;
  extra <- big_div (baseGasPrice * coef) divisor ;;
  let adjustedGasPrice := baseGasPrice + extra in
  gas <- BigInt (VNumber gasAmount) ;;
  let costWei := gas * adjustedGasPrice in
  Ok (toString adjustedGasPrice, toString costWei).

End Energy.

(** ** Chain tags *)
Module ChainTags.
Import JS.

(** [NetworkConfig] of [constants/networks.ts]. *)
Record NetworkConfig : Type := {
  name : string;
  chainTag : Z;
  genesisId : string;
  nodeUrls : list string;
  explorerUrl : string;
  faucetUrl : option string
}.

(** The own properties of the [NETWORKS] object literal. *)
Definition NETWORKS : list (string * NetworkConfig) :=
  [ ("mainnet",
     {| name := "VeChain Mainnet";
        chainTag := 74;
        genesisId :=
          "0x00000000851caf3cfdb6e899cf5958bfb1ac3413d346d43539627e6be7ec1b4a";
        nodeUrls := [ "https://mainnet.veblocks.net"; "https://mainnet.vechain.org";
                      "https://sync-mainnet.vechain.org";
                      "https://vethor-node.vechain.com" ];
        explorerUrl := "https://explore.vechain.org";
        faucetUrl := None |});
    ("testnet",
     {| name := "VeChain Testnet";
        chainTag := 39;
        genesisId :=
          "0x000000000b2bce3c70bc649a02749e8687721b09ed2e15997f466536b20bb127";
        nodeUrls := [ "https://testnet.veblocks.net"; "https://testnet.vechain.org";
                      "https://sync-testnet.vechain.org" ];
        explorerUrl := "https://explore-testnet.vechain.org";
        faucetUrl := Some "https://faucet.vecha.in" |});
    ("solo",
     {| name := "Thor Solo (Local)";
        chainTag := 246;
        genesisId :=
          "0x00000000c05a20fbca2bf6ae3affba6af4a74b800b585bf7a4988aba7aea69f6";
        nodeUrls := [ "http://localhost:8669"; "http://127.0.0.1:8669" ];
        explorerUrl := "http://localhost:8080";
        faucetUrl := None |}) ].

Fixpoint own (key : string) (table : list (string * NetworkConfig))
  : option NetworkConfig :=
  match table with
  | [] => None
  | (k, v) :: rest => if String.eqb k key then Some v else own key rest
  end.

(** What [NETWORKS[network]] evaluates to: a configuration, a member
    inherited from [Object.prototype] (truthy, with neither a
    [chainTag] nor [nodeUrls]), or [undefined]. *)
Inductive entry : Type :=
| Own (config : NetworkConfig)
| Inherited
| Undefined.

Definition lookup (network : string) : entry :=
  match own network NETWORKS with
  | Some config => Own config
  | None =>
      if existsb (String.eqb network) UnitConverter.OBJECT_PROTOTYPE_KEYS
      then Inherited
      else Undefined
  end.

(** [getNodeUrl]; [undefined[0]] on an inherited member is a
    TypeError. *)
Definition getNodeUrl (network : string) (customUrl : option string)
  : result (option string) :=
  if String.eqb network "custom" && TransactionOps.truthy_opt customUrl then
    Ok customUrl
  else
    match lookup network with
    | Own config => Ok (hd_error (nodeUrls config))
    | Inherited => Throw TypeError
    | Undefined => Throw (JsError ("Unknown network: " ++ network))
    end.

(** [getChainTag] of [constants/networks.ts]; the [chainTag] of an
    inherited member is [undefined]. *)
Definition getChainTag (network : string) : result (option Z) :=
  match lookup network with
  | Own config => Ok (Some (chainTag config))
  | Inherited => Ok None
  | Undefined => Throw (JsError ("Unknown network: " ++ network))
  end.

(** The fields of a [ThorClient]; of its axios instance, the base URL. *)
Record ThorClient : Type := {
  this_client_baseURL : option string;
  this_network : string;
  this_chainTag : option Z
}.

(** The constructor of [ThorClient]. *)
Definition new_ThorClient (network : string) (customUrl : option string)
  : result ThorClient :=
  tag <- (if String.eqb network "custom" then Ok (Some 0)
          else getChainTag network) ;;
  baseURL <- getNodeUrl network customUrl ;;
  Ok {| this_client_baseURL := baseURL;
        this_network := network;
        this_chainTag := tag |}.

(** [createThorClient(network, customUrl).getChainTag()] *)
Definition client_chainTag (network : string) (customUrl : option string)
  : result (option Z) :=
  client <- new_ThorClient network customUrl ;;
  Ok (this_chainTag client).

(** The [getChainTag] local to [vet.operations.ts] (and to the other
    operation files). *)
Definition local_getChainTag (network : string) : Z :=
  if String.eqb network "mainnet" then 74
  else if String.eqb network "testnet" then 39
  else if String.eqb network "solo" then 246
  else 74.

End ChainTags.

(** ** actions/vet/vet.operations.ts: the clauses of a multi-transfer *)
Module VetTransfers.
Import JS ClauseBuilder.

(** [xs.map(f)] for an [f] that may throw: the first throw ends it. *)
Fixpoint map_result {A B} (f : A -> result B) (xs : list A) : result (list B) :=
  match xs with
  | [] => Ok []
  | x :: rest =>
      y <- f x ;;
      ys <- map_result f rest ;;
      Ok (y :: ys)
  end.

Section Engine.
Variable pow10_inexact : nat -> Number.

(** ['0x' + BigInt(vetToWei(amount)).toString(16)] *)
Definition clause_value (amount_ : string) : result string :=
  wei <- UnitConverter.vetToWei pow10_inexact (VString amount_) ;;
  w <- BigInt (VString wei) ;;
  Ok ("0x" ++ toString_radix 16 w)%string.

(** [case 'multiTransfer'], up to the clause list: [recipientList] is
    the list of [{address, amount}] entries, empty when none is given. *)
Definition multiTransfer_clauses (recipientList : list (string * string))
  : result (list Clause) :=
  if (List.length recipientList =? 0)%nat
  then Throw (JsError "At least one recipient is required") else
  (* Build clauses for each recipient *)
  map_result (fun '(address_, amount_) =>
                v <- clause_value amount_ ;;
                Ok {| to := Some address_; value := v; data := "0x" |})
             recipientList.

End Engine.

(** Calculate total gas (21000 base + 9000 per additional clause) *)
Definition totalGas (clauses : list Clause) : Z :=
  21000 + (Z.of_nat (List.length clauses) - 1) * 9000.

End VetTransfers.

(* ================================================================== *)
(** * Part II: properties                                              *)
(* ================================================================== *)

(** ** Facts about the JavaScript primitives *)
Module JSFacts.
Import JS Observe.

Lemma is_digit_cases c :
  is_digit c = true ->
  In c ["0"; "1"; "2"; "3"; "4"; "5"; "6"; "7"; "8"; "9"]%char.
Proof.
  unfold is_digit, code. intros H.
  rewrite <- (ascii_N_embedding c).
  remember (N_of_ascii c) as n eqn:E. clear E.
  assert (Hn : (n = 48 \/ n = 49 \/ n = 50 \/ n = 51 \/ n = 52 \/ n = 53
                \/ n = 54 \/ n = 55 \/ n = 56 \/ n = 57)%N) by lia.
  simpl.
  repeat (destruct Hn as [-> | Hn]; [ tauto | ]). subst n. tauto.
Qed.

Lemma digit_not_space c : is_digit c = true -> is_space c = false.
Proof.
  intros H. apply is_digit_cases in H. simpl in H.
  repeat (destruct H as [<- | H]; [ reflexivity | ]). contradiction.
Qed.

Lemma digit_not_dot c : is_digit c = true -> Ascii.eqb c "." = false.
Proof.
  intros H. apply is_digit_cases in H. simpl in H.
  repeat (destruct H as [<- | H]; [ reflexivity | ]). contradiction.
Qed.

Lemma digit_char_is_digit d : 0 <= d < 10 -> is_digit (digit_char d) = true.
Proof.
  intros H.
  assert (Hd : d = 0 \/ d = 1 \/ d = 2 \/ d = 3 \/ d = 4 \/ d = 5 \/ d = 6
               \/ d = 7 \/ d = 8 \/ d = 9) by lia.
  repeat (destruct Hd as [-> | Hd]; [ reflexivity | ]). subst d. reflexivity.
Qed.

Lemma digit_in_digit_char d : 0 <= d < 10 -> digit_in 10 (digit_char d) = Some d.
Proof.
  intros H.
  assert (Hd : d = 0 \/ d = 1 \/ d = 2 \/ d = 3 \/ d = 4 \/ d = 5 \/ d = 6
               \/ d = 7 \/ d = 8 \/ d = 9) by lia.
  repeat (destruct Hd as [-> | Hd]; [ reflexivity | ]). subst d. reflexivity.
Qed.

(** *** Printing then parsing a decimal *)

Lemma parse_to_digits fuel : forall n acc,
  0 <= n < 10 ^ Z.of_nat fuel ->
  parse_digits 10 (to_digits fuel 10 n acc) 0 = parse_digits 10 acc n.
Proof.
  induction fuel as [| fuel IH]; intros n acc Hn.
  - simpl in *. assert (n = 0) by lia. subst. reflexivity.
  - cbn [to_digits].
    assert (Hmod : 0 <= n mod 10 < 10) by (apply Z.mod_pos_bound; lia).
    destruct (n <? 10) eqn:Hlt.
    + apply Z.ltb_lt in Hlt.
      cbn [parse_digits]. rewrite (digit_in_digit_char _ Hmod).
      rewrite Z.mod_small by lia. reflexivity.
    + apply Z.ltb_ge in Hlt.
      rewrite IH.
      * cbn [parse_digits]. rewrite (digit_in_digit_char _ Hmod).
        f_equal. rewrite (Z.div_mod n 10) at 3 by lia. lia.
      * rewrite Nat2Z.inj_succ, Z.pow_succ_r in Hn by lia.
        split; [ apply Z.div_pos; lia | apply Z.div_lt_upper_bound; lia ].
Qed.

Lemma below_pow10_log2 n : 0 <= n -> n < 10 ^ Z.of_nat (S (Z.to_nat (Z.log2 n))).
Proof.
  intros Hn.
  rewrite Nat2Z.inj_succ, Z2Nat.id by apply Z.log2_nonneg.
  destruct (Z.eq_dec n 0) as [-> | Hnz]; [ reflexivity | ].
  assert (H2 : n < 2 ^ Z.succ (Z.log2 n)) by (apply Z.log2_spec; lia).
  assert (H10 : 2 ^ Z.succ (Z.log2 n) <= 10 ^ Z.succ (Z.log2 n)).
  { apply Z.pow_le_mono_l. lia. }
  lia.
Qed.

Lemma to_digits_shape fuel : forall n acc,
  0 <= n ->
  exists p, to_digits fuel 10 n acc = (p ++ acc)%string
            /\ all_chars is_digit p = true
            /\ (fuel <> O -> p <> EmptyString).
Proof.
  induction fuel as [| fuel IH]; intros n acc Hn.
  - exists EmptyString. repeat split; congruence.
  - cbn [to_digits].
    assert (Hmod : 0 <= n mod 10 < 10) by (apply Z.mod_pos_bound; lia).
    destruct (n <? 10).
    + exists (String (digit_char (n mod 10)) EmptyString). repeat split.
      * simpl. rewrite digit_char_is_digit by assumption. reflexivity.
      * discriminate.
    + destruct (IH (n / 10) (String (digit_char (n mod 10)) acc)) as (p & Hp & Hd & _).
      { apply Z.div_pos; lia. }
      exists (p ++ String (digit_char (n mod 10)) EmptyString)%string.
      repeat split.
      * rewrite Hp. clear. induction p; simpl; congruence.
      * clear Hp. induction p as [| c p IHp]; simpl in *.
        -- rewrite digit_char_is_digit by assumption. reflexivity.
        -- apply andb_true_iff in Hd. destruct Hd as [Hc Hd].
           rewrite Hc. simpl. auto.
      * intros _. destruct p; discriminate.
Qed.

Lemma toString_digits n :
  0 <= n ->
  all_chars is_digit (toString n) = true /\ toString n <> EmptyString.
Proof.
  intros Hn. unfold toString, toString_radix.
  replace (n <? 0) with false by (symmetry; apply Z.ltb_ge; lia).
  unfold nat_toString.
  destruct (to_digits_shape (S (Z.to_nat (Z.log2 n))) n EmptyString Hn)
    as (p & Hp & Hd & Hne).
  rewrite Hp. clear Hp.
  assert (E : (p ++ "")%string = p) by (clear; induction p; simpl; congruence).
  rewrite E. split; [ assumption | apply Hne; discriminate ].
Qed.

Lemma trim_digits s : all_chars is_digit s = true -> trim s = s.
Proof.
  intros H. unfold trim.
  assert (Hs : trim_start s = s).
  { destruct s as [| c s]; [ reflexivity | ]. simpl in *.
    apply andb_true_iff in H. destruct H as [Hc _].
    rewrite (digit_not_space _ Hc). reflexivity. }
  rewrite Hs. clear Hs.
  induction s as [| c s IH]; [ reflexivity | ].
  simpl in *. apply andb_true_iff in H. destruct H as [Hc H].
  rewrite (IH H). destruct s; [ | reflexivity ].
  rewrite (digit_not_space _ Hc). reflexivity.
Qed.

Lemma includes_digits s : all_chars is_digit s = true -> includes "." s = false.
Proof.
  induction s as [| c s IH]; [ reflexivity | ].
  simpl. intros H. apply andb_true_iff in H. destruct H as [Hc H].
  rewrite (digit_not_dot _ Hc), (IH H). reflexivity.
Qed.

Lemma StringToBigInt_digits s :
  all_chars is_digit s = true -> s <> EmptyString ->
  StringToBigInt s = parse_digits 10 s 0.
Proof.
  intros H Hne. unfold StringToBigInt. rewrite (trim_digits _ H).
  destruct s as [| c s]; [ congruence | ].
  simpl in H. apply andb_true_iff in H. destruct H as [Hc H].
  apply is_digit_cases in Hc. simpl in Hc.
  destruct Hc as [<- | Hc].
  - (* a leading zero: the next character is a digit, not a radix letter *)
    destruct s as [| p s]; [ reflexivity | ].
    simpl in H. apply andb_true_iff in H. destruct H as [Hp _].
    apply is_digit_cases in Hp. simpl in Hp.
    repeat (destruct Hp as [<- | Hp]; [ reflexivity | ]). contradiction.
  - repeat (destruct Hc as [<- | Hc]; [ reflexivity | ]). contradiction.
Qed.

(** [BigInt(n.toString())] is [n]. *)
Lemma StringToBigInt_toString n :
  0 <= n -> StringToBigInt (toString n) = Some n.
Proof.
  intros Hn. destruct (toString_digits n Hn) as [Hd Hne].
  rewrite (StringToBigInt_digits _ Hd Hne).
  unfold toString, toString_radix.
  replace (n <? 0) with false by (symmetry; apply Z.ltb_ge; lia).
  unfold nat_toString. rewrite parse_to_digits.
  - reflexivity.
  - split; [ assumption | apply below_pow10_log2; assumption ].
Qed.

Lemma includes_toString n : 0 <= n -> includes "." (toString n) = false.
Proof.
  intros Hn. apply includes_digits. apply toString_digits. assumption.
Qed.

(** *** A literal with a dot is no BigInt *)

Lemma space_not_dot c : is_space c = true -> Ascii.eqb c "." = false.
Proof.
  intros H. destruct (Ascii.eqb_spec c "."); [ subst; discriminate | reflexivity ].
Qed.

Lemma includes_trim_start s : includes "." (trim_start s) = includes "." s.
Proof.
  induction s as [| c s IH]; [ reflexivity | ].
  simpl. destruct (is_space c) eqn:Hc; [ | reflexivity ].
  rewrite (space_not_dot _ Hc). simpl. assumption.
Qed.

Lemma includes_trim_end s : includes "." (trim_end s) = includes "." s.
Proof.
  induction s as [| c s IH]; [ reflexivity | ].
  simpl. destruct (trim_end s) as [| d t] eqn:Ht.
  - simpl in IH. rewrite <- IH.
    destruct (is_space c) eqn:Hc; simpl.
    + rewrite (space_not_dot _ Hc). reflexivity.
    + reflexivity.
  - cbn [includes]. rewrite <- IH. reflexivity.
Qed.

Lemma includes_trim s : includes "." (trim s) = includes "." s.
Proof.
  unfold trim. rewrite includes_trim_end, includes_trim_start. reflexivity.
Qed.

Lemma parse_digits_dot radix s : forall acc,
  includes "." s = true -> parse_digits radix s acc = None.
Proof.
  induction s as [| c s IH]; intros acc H; [ discriminate | ].
  simpl in *. destruct (Ascii.eqb_spec c ".") as [-> | Hc].
  - reflexivity.
  - simpl in H. destruct (digit_in radix c); [ apply IH; assumption | reflexivity ].
Qed.

Lemma parse_nat_dot radix s : includes "." s = true -> parse_nat radix s = None.
Proof.
  intros H. destruct s; [ discriminate | ].
  unfold parse_nat. apply parse_digits_dot. assumption.
Qed.

Lemma StringToBigInt_dot s : includes "." s = true -> StringToBigInt s = None.
Proof.
  intros H. rewrite <- includes_trim in H. unfold StringToBigInt.
  destruct (trim s) as [| a rest]; [ discriminate | ].
  destruct (Ascii.eqb_spec a "+") as [-> | Hplus].
  { apply parse_nat_dot. exact H. }
  destruct (Ascii.eqb_spec a "-") as [-> | Hminus].
  { simpl in H. rewrite (parse_nat_dot _ _ H). reflexivity. }
  destruct (prefixed a rest) as [[radix digits] |] eqn:Hp.
  - unfold prefixed in Hp.
    destruct (Ascii.eqb_spec a "0") as [-> | ]; [ | discriminate ].
    destruct rest as [| p ds]; [ discriminate | ].
    destruct (radix_of p) eqn:Hr; [ | discriminate ].
    inversion Hp; subst. apply parse_nat_dot.
    simpl in H. destruct (Ascii.eqb_spec p ".") as [-> | ]; [ discriminate | exact H ].
  - apply parse_nat_dot. exact H.
Qed.

(** *** Numbers *)

Lemma NumberToBigInt_integer x :
  is_integer x = true -> exists z, NumberToBigInt x = Ok z.
Proof.
  destruct x as [| neg | m e]; simpl; try discriminate.
  destruct (0 <=? e); simpl; [ eauto | ].
  intros ->. eauto.
Qed.

Lemma NumberToBigInt_fraction x :
  is_integer x = false -> NumberToBigInt x = Throw RangeError.
Proof.
  destruct x as [| neg | m e]; simpl; try reflexivity.
  destruct (0 <=? e); simpl; [ discriminate | ].
  intros ->. reflexivity.
Qed.

(** [getBytes] reads hex digits and the prefix in either case, and
    nothing but whole bytes behind a prefix. *)
Example getBytes_either_case :
  getBytes (Some "0xabCD") = Ok [xab; xcd]
  /\ getBytes (Some "0XABCD") = Ok [xab; xcd]
  /\ getBytes (Some "0x") = Ok []
  /\ getBytes (Some "0xabc") = Throw TypeError
  /\ getBytes (Some "abcd") = Throw TypeError
  /\ getBytes (Some EmptyString) = Throw TypeError
  /\ getBytes None = Throw TypeError.
Proof. repeat split. Qed.

End JSFacts.

(** ** The unit converter *)
Module UnitConverterFacts.
Import JS Observe UnitConverter JSFacts.

Section Engine.
Variable pow10_inexact : nat -> Number.

(** A value without a decimal point is scaled up by the source unit and
    down by the target unit; when the division is exact the result is
    printed as an integer. *)
Lemma convertUnits_whole s z fromUnit toUnit mf mt :
  includes "." s = false ->
  StringToBigInt s = Some z ->
  lookup (toLowerCase fromUnit) = Own mf ->
  lookup (toLowerCase toUnit) = Own mt ->
  mf <> 0 -> mt <> 0 ->
  Z.rem (z * mf) mt = 0 ->
  convertUnits pow10_inexact (VString s) fromUnit toUnit
  = Ok (toString (Z.quot (z * mf) mt)).
Proof.
  intros Hdot Hparse Hfrom Hto Hmf Hmt Hrem.
  unfold convertUnits. rewrite Hfrom, Hto. cbn [falsy].
  apply Z.eqb_neq in Hmf. apply Z.eqb_neq in Hmt.
  rewrite Hmf, Hmt, Hdot.
  cbn [BigInt]. rewrite Hparse. cbn [rbind times over modulo].
  unfold big_div, big_rem. rewrite Hmt. cbn [rbind].
  rewrite Hrem. reflexivity.
Qed.

(** The same, without asking for an exact division: the conversion of
    a parsable integer literal never throws between known units. *)
Lemma convertUnits_total s z fromUnit toUnit mf mt :
  StringToBigInt s = Some z ->
  lookup (toLowerCase fromUnit) = Own mf ->
  lookup (toLowerCase toUnit) = Own mt ->
  mf <> 0 -> mt <> 0 ->
  exists out, convertUnits pow10_inexact (VString s) fromUnit toUnit = Ok out.
Proof.
  intros Hparse Hfrom Hto Hmf Hmt.
  assert (Hdot : includes "." s = false).
  { destruct (includes "." s) eqn:E; [ | reflexivity ].
    rewrite (StringToBigInt_dot _ E) in Hparse. discriminate. }
  unfold convertUnits. rewrite Hfrom, Hto. cbn [falsy].
  apply Z.eqb_neq in Hmf. apply Z.eqb_neq in Hmt.
  rewrite Hmf, Hmt, Hdot.
  cbn [BigInt]. rewrite Hparse. cbn [rbind times over modulo].
  unfold big_div, big_rem. rewrite Hmt. cbn [rbind].
  destruct (Z.rem (z * mf) mt =? 0); [ eauto | ].
  match goal with |- context [String.eqb ?a ?b] => destruct (String.eqb a b) end; eauto.
Qed.

Lemma weiToVet_total s z :
  StringToBigInt s = Some z ->
  exists out, weiToVet pow10_inexact (VString s) = Ok out.
Proof.
  intros H. unfold weiToVet.
  eapply convertUnits_total; [ exact H | reflexivity | reflexivity | lia | lia ].
Qed.

(** C6. For every non-negative integer [n], written in decimal and
    taken in the 18-decimal unit "vet", [convertUnits] to "wei" yields
    [n * 10^18], and converting that back to "vet" yields the decimal
    string of [n] again: the round trip is the identity. *)
Theorem vet_wei_roundtrip (n : Z) :
  0 <= n ->
  convertUnits pow10_inexact (VString (toString n)) "vet" "wei"
    = Ok (toString (n * 10 ^ 18))
  /\ convertUnits pow10_inexact (VString (toString (n * 10 ^ 18))) "wei" "vet"
    = Ok (toString n).
Proof.
  intros Hn. split.
  - rewrite (convertUnits_whole (toString n) n "vet" "wei" (10 ^ 18) 1).
    + rewrite Z.quot_1_r. reflexivity.
    + apply includes_toString; assumption.
    + apply StringToBigInt_toString; assumption.
    + reflexivity.
    + reflexivity.
    + lia.
    + lia.
    + apply Z.rem_1_r.
  - rewrite (convertUnits_whole (toString (n * 10 ^ 18)) (n * 10 ^ 18)
               "wei" "vet" 1 (10 ^ 18)).
    + rewrite Z.mul_1_r, Z.quot_mul by lia. reflexivity.
    + apply includes_toString; lia.
    + apply StringToBigInt_toString; lia.
    + reflexivity.
    + reflexivity.
    + lia.
    + lia.
    + rewrite Z.mul_1_r. apply Z.rem_mul. lia.
Qed.

End Engine.

(** The round trip on 42 VET, on an engine whose inexact powers are NaN. *)
Lemma vet_wei_roundtrip_witness :
  0 <= 42
  /\ convertUnits (fun _ => NaN) (VString "42") "vet" "wei"
     = Ok "42000000000000000000"
  /\ convertUnits (fun _ => NaN) (VString "42000000000000000000") "wei" "vet"
     = Ok "42".
Proof.
  split; [ lia | ].
  apply (vet_wei_roundtrip (fun _ => NaN) 42). lia.
Defined.

(** The conversions the specification lists. *)
Example one_vet_in_wei :
  vetToWei (fun _ => NaN) (VString "1") = Ok "1000000000000000000".
Proof. reflexivity. Qed.

Example half_vet_in_wei :
  vetToWei (fun _ => NaN) (VString "0.5") = Ok "500000000000000000".
Proof. reflexivity. Qed.

Example zero_vet_in_wei :
  vetToWei (fun _ => NaN) (VString "0") = Ok "0".
Proof. reflexivity. Qed.

Example half_vet_from_wei :
  weiToVet (fun _ => NaN) (VString "500000000000000000") = Ok "0.5".
Proof. reflexivity. Qed.

Example unknown_unit :
  convertUnits (fun _ => NaN) (VString "1") "vet" "satoshi"
  = Throw (JsError "Unknown unit: satoshi").
Proof. reflexivity. Qed.

End UnitConverterFacts.

(** ** The clause validator *)
Module ClauseBuilderFacts.
Import JS Observe ClauseBuilder Samples JSFacts.

Lemma push_if_app cond msg errs :
  push_if cond msg errs = (errs ++ push_if cond msg [])%list.
Proof.
  unfold push_if. destruct cond; [ reflexivity | symmetry; apply app_nil_r ].
Qed.

Lemma check_clause_app i c errs :
  check_clause i c errs = (errs ++ check_clause i c [])%list.
Proof.
  unfold check_clause.
  rewrite (push_if_app (negb (startsWith "0x" (data c)))).
  rewrite (push_if_app (value_throws c)).
  rewrite (push_if_app _ _ errs).
  rewrite (push_if_app (negb (startsWith "0x" (data c))) _ (push_if _ _ (push_if _ _ []))).
  rewrite (push_if_app (value_throws c) _ (push_if _ _ [])).
  rewrite !app_assoc. reflexivity.
Qed.

Lemma validate_loop_app cs : forall i errs,
  validate_loop i cs errs = (errs ++ validate_loop i cs [])%list.
Proof.
  induction cs as [| c cs IH]; intros i errs; simpl.
  - symmetry; apply app_nil_r.
  - rewrite IH. rewrite (IH (S i) (check_clause i (clause c) [])).
    rewrite (check_clause_app i (clause c) errs).
    rewrite app_assoc. reflexivity.
Qed.

Lemma validate_loop_cons i c cs :
  validate_loop i (c :: cs) []
  = (check_clause i (clause c) [] ++ validate_loop (S i) cs [])%list.
Proof. simpl. apply validate_loop_app. Qed.

Lemma value_throws_ok c : value_throws c = negb (value_ok c).
Proof.
  unfold value_throws, value_ok. cbn [BigInt].
  destruct (StringToBigInt (value c)); reflexivity.
Qed.

Lemma to_check_ok c :
  match to c with Some a => negb (isValidAddress a) | None => false end
  = negb (to_ok c).
Proof. unfold to_ok. destruct (to c); reflexivity. Qed.

(** What one clause contributes, check by check. *)
Lemma check_clause_nil i c :
  check_clause i c []
  = ((if to_ok c then [] else [(index_label i ++ ": Invalid 'to' address")%string])
     ++ (if value_ok c then [] else [(index_label i ++ ": Invalid 'value'")%string])
     ++ (if data_ok c then [] else [(index_label i ++ ": Data must start with 0x")%string]))%list.
Proof.
  unfold check_clause.
  rewrite (push_if_app (negb (startsWith "0x" (data c)))).
  rewrite (push_if_app (value_throws c)).
  rewrite to_check_ok, value_throws_ok. unfold push_if, data_ok.
  destruct (to_ok c), (value_ok c), (startsWith "0x" (data c)); reflexivity.
Qed.

Lemma check_clause_clean i c : check_clause i c [] = [] <-> clause_ok c = true.
Proof.
  rewrite check_clause_nil. unfold clause_ok.
  destruct (to_ok c), (value_ok c), (data_ok c); simpl; split; congruence.
Qed.

Lemma validate_loop_clean cs : forall i,
  validate_loop i cs [] = [] <-> (forall c, In c cs -> clause_ok (clause c) = true).
Proof.
  induction cs as [| c cs IH]; intros i.
  - simpl. split; [ contradiction | reflexivity ].
  - rewrite validate_loop_cons. split.
    + intros H. apply app_eq_nil in H. destruct H as [Hc Hcs].
      intros c' [<- | Hin].
      * apply (check_clause_clean i). assumption.
      * apply (IH (S i)); assumption.
    + intros H.
      assert (Hc : check_clause i (clause c) [] = []).
      { apply check_clause_clean. apply H. left. reflexivity. }
      assert (Hcs : validate_loop (S i) cs [] = []).
      { apply IH. intros c' Hin. apply H. right. assumption. }
      rewrite Hc, Hcs. reflexivity.
Qed.

(** Every failed check of the clause at position [j] is in the list,
    under the clause's index. *)
Lemma validate_loop_reports cs : forall i j c,
  nth_error cs j = Some c ->
  incl (check_clause (i + j) (clause c) []) (validate_loop i cs []).
Proof.
  induction cs as [| c0 cs IH]; intros i j c Hnth.
  - destruct j; discriminate.
  - rewrite validate_loop_cons. destruct j as [| j]; simpl in Hnth.
    + inversion Hnth; subst. rewrite Nat.add_0_r. apply incl_appl, incl_refl.
    + apply incl_appr. replace (i + S j)%nat with (S i + j)%nat by lia.
      apply IH. assumption.
Qed.

Lemma errors_validate cs :
  errors (validate cs)
  = (push_if (List.length cs =? 0)%nat "No clauses added" []
     ++ validate_loop 0 cs [])%list.
Proof. unfold validate. cbn [errors]. apply validate_loop_app. Qed.

Lemma valid_iff_no_errors cs :
  valid (validate cs) = true <-> errors (validate cs) = [].
Proof.
  unfold validate. cbn [valid errors].
  rewrite Nat.eqb_eq, length_zero_iff_nil. reflexivity.
Qed.

(** [isValidAddress] accepts exactly ["0x"] followed by 40 hex digits,
    that is, 20 bytes. *)
Lemma isValidAddress_spec a :
  isValidAddress a = true
  <-> exists digits, a = ("0x" ++ digits)%string
                     /\ String.length digits = 40%nat
                     /\ all_chars is_hex_char digits = true.
Proof.
  split.
  - intros H. unfold isValidAddress in H.
    destruct a as [| c0 [| c1 digits]]; try discriminate.
    + destruct c0 as [[] [] [] [] [] [] [] []]; discriminate.
    + destruct (Ascii.eqb_spec c0 "0") as [-> | Hc0].
      * destruct (Ascii.eqb_spec c1 "x") as [-> | Hc1].
        -- apply andb_true_iff in H. destruct H as [Hlen Hhex].
           apply Nat.eqb_eq in Hlen. exists digits. auto.
        -- exfalso. revert H Hc1. clear.
           destruct c1 as [[] [] [] [] [] [] [] []]; intros; try discriminate.
           congruence.
      * exfalso. revert H Hc0. clear.
        destruct c0 as [[] [] [] [] [] [] [] []]; intros; try discriminate.
        congruence.
  - intros (digits & -> & Hlen & Hhex). simpl.
    rewrite Hlen, Hhex. reflexivity.
Qed.

(** X29. What [validate] checks.  It reports exactly one violation on
    an empty clause list; for a clause at index [i] it reports, under
    that index, a ['to'] that is neither null nor a 20-byte hex
    address, a ['value'] that [BigInt] cannot parse as an integer
    literal (of either sign), and a ['data'] that does not start with
    ["0x"]; it collects all of them, and the result is valid exactly
    when the list is non-empty and every clause passes the three
    checks. *)
Theorem validate_reports_all_violations (clauses : list ClauseWithMeta) :
  errors (validate []) = ["No clauses added"]
  /\ (forall i c,
        nth_error clauses i = Some c ->
        (to_ok (clause c) = false ->
         In (index_label i ++ ": Invalid 'to' address")%string
            (errors (validate clauses)))
        /\ (value_ok (clause c) = false ->
            In (index_label i ++ ": Invalid 'value'")%string
               (errors (validate clauses)))
        /\ (data_ok (clause c) = false ->
            In (index_label i ++ ": Data must start with 0x")%string
               (errors (validate clauses))))
  /\ (valid (validate clauses) = true
      <-> clauses <> [] /\ forall c, In c clauses -> clause_ok (clause c) = true)
  /\ (valid (validate clauses) = true <-> errors (validate clauses) = []).
Proof.
  split; [ reflexivity | ]. split; [ | split ].
  - intros i c Hnth.
    pose proof (validate_loop_reports clauses 0 i c Hnth) as Hincl.
    simpl in Hincl. rewrite check_clause_nil in Hincl.
    assert (Hin : forall m, In m
              ((if to_ok (clause c) then [] else [(index_label i ++ ": Invalid 'to' address")%string])
               ++ (if value_ok (clause c) then [] else [(index_label i ++ ": Invalid 'value'")%string])
               ++ (if data_ok (clause c) then [] else [(index_label i ++ ": Data must start with 0x")%string]))%list ->
              In m (errors (validate clauses))).
    { intros m Hm. rewrite errors_validate. apply in_or_app. right.
      apply Hincl. exact Hm. }
    repeat split; intros Hbad; apply Hin; rewrite Hbad.
    + left. reflexivity.
    + apply in_or_app. right. left. reflexivity.
    + apply in_or_app. right. apply in_or_app. right. left. reflexivity.
  - rewrite valid_iff_no_errors, errors_validate.
    destruct clauses as [| c cs].
    + simpl. split; [ discriminate | intros [H _]; congruence ].
    + cbn [List.length Nat.eqb push_if app].
      rewrite validate_loop_clean. split.
      * intros H. split; [ discriminate | exact H ].
      * intros [_ H]. exact H.
  - apply valid_iff_no_errors.
Qed.

(** A malformed second clause: all three of its violations come back,
    each under index 1. *)
Lemma validate_reports_all_violations_witness :
  nth_error [sample (Some zero_address) "1" "0x"; sample (Some "0x12") "1.5" "ab"] 1
    = Some (sample (Some "0x12") "1.5" "ab")
  /\ errors (validate [sample (Some zero_address) "1" "0x";
                       sample (Some "0x12") "1.5" "ab"])
     = ["Clause 1: Invalid 'to' address"; "Clause 1: Invalid 'value'";
        "Clause 1: Data must start with 0x"]
  /\ In "Clause 1: Invalid 'to' address"
        (errors (validate [sample (Some zero_address) "1" "0x";
                           sample (Some "0x12") "1.5" "ab"])).
Proof.
  split; [ reflexivity | ]. split; [ reflexivity | ].
  destruct (validate_reports_all_violations
              [sample (Some zero_address) "1" "0x"; sample (Some "0x12") "1.5" "ab"])
    as (_ & Hreport & _).
  destruct (Hreport 1%nat _ eq_refl) as (Hto & _).
  apply Hto. reflexivity.
Defined.

(** C7 fails on a negative ['value'].  The check of the value, a VET
    amount in wei, is [BigInt(clause.value)] in a [try]: [BigInt("-5")]
    does not throw, so a clause with a well-formed address, the value
    ["-5"] and the data ["0x"] is reported valid, with no violation at
    all, although its value is not a non-negative integer. *)
Theorem validate_accepts_negative_value :
  StringToBigInt "-5" = Some (-5)
  /\ validate [sample (Some zero_address) "-5" "0x"]
     = {| valid := true; errors := [] |}.
Proof. split; reflexivity. Qed.

End ClauseBuilderFacts.

(** ** The poll engine *)
Module TriggerFacts.
Import JS Observe ThorClient Trigger Extent Samples JSFacts.

(** *** Running the monad *)

Lemma run_bind {S A B} (m : @Eff.M S A) (k : A -> @Eff.M S B) s :
  Eff.bind m k s
  = match m s with
    | (Ok a, s') => k a s'
    | (Throw e, s') => (Throw e, s')
    end.
Proof. reflexivity. Qed.

Lemma extends_refl p s : extends p s s.
Proof.
  split; [ reflexivity | ]. exists []. split; [ symmetry; apply app_nil_r | reflexivity ].
Qed.

Lemma extends_trans p s1 s2 s3 :
  extends p s1 s2 -> extends p s2 s3 -> extends p s1 s3.
Proof.
  intros [Hc1 (w1 & Ha1 & Hp1)] [Hc2 (w2 & Ha2 & Hp2)]. split.
  - congruence.
  - exists (w1 ++ w2)%list. split.
    + rewrite Ha2, Ha1, app_assoc. reflexivity.
    + rewrite forallb_app, Hp1, Hp2. reflexivity.
Qed.

Lemma extends_weaken (p q : Action -> bool) s s' :
  (forall a, p a = true -> q a = true) -> extends p s s' -> extends q s s'.
Proof.
  intros Hpq [Hc (w & Ha & Hp)]. split; [ assumption | ].
  exists w. split; [ assumption | ].
  apply forallb_forall. intros a Hin.
  apply Hpq. rewrite forallb_forall in Hp. apply Hp. assumption.
Qed.

Lemma confined_ret {A} p (a : A) : confined p (Eff.ret a).
Proof. intros s. apply extends_refl. Qed.

Lemma confined_throw {A} p e : confined p (@Eff.throw State A e).
Proof. intros s. apply extends_refl. Qed.

Lemma confined_lift {A} p (r : result A) : confined p (Eff.lift r).
Proof. intros s. apply extends_refl. Qed.

Lemma confined_bind {A B} p (m : Poll A) (k : A -> Poll B) :
  confined p m -> (forall a, confined p (k a)) -> confined p (Eff.bind m k).
Proof.
  intros Hm Hk s. rewrite run_bind. specialize (Hm s).
  destruct (m s) as [[a | e] s1]; simpl in Hm.
  - eapply extends_trans; [ exact Hm | apply Hk ].
  - exact Hm.
Qed.

Lemma confined_log p a : p a = true -> confined p (log a).
Proof.
  intros Hp s. split; [ reflexivity | ].
  exists [a]. split; [ reflexivity | simpl; rewrite Hp; reflexivity ].
Qed.

Lemma confined_read_cursor p : confined p read_cursor.
Proof. intros s. apply extends_refl. Qed.

Create HintDb confined.
#[local] Hint Resolve confined_ret confined_throw confined_lift confined_log
  confined_read_cursor : confined.

Ltac confine :=
  repeat first
    [ apply confined_bind; [ | intros ? ]
    | solve [ auto with confined ]
    | match goal with
      | |- confined _ (if ?c then _ else _) => destruct c
      | |- confined _ (match ?x with _ => _ end) => destruct x
      end ].

Section Tick.
Variable pow10_inexact : nat -> Number.
Variable keccak256 : string -> string.
Variable node : Node.
Variable params : Parameters.

#[local] Abbreviation dispatch := (dispatch pow10_inexact keccak256 node params).
#[local] Abbreviation for_blocks := (for_blocks pow10_inexact keccak256 node params).
#[local] Abbreviation poll := (poll pow10_inexact keccak256 node params).

(** The per-block work never writes the cursor. *)
Lemma dispatch_confined block blockNum bestBlock returnData :
  confined not_write (dispatch block blockNum bestBlock returnData).
Proof.
  unfold Trigger.dispatch, processVetTransfers, processVthoTransfers,
    processTokenTransfers, processNftTransfers, processContractEvents,
    processLargeTransactions, getTransfers, getEvents.
  confine.
Qed.

Lemma for_blocks_confined bestBlock count : forall blockNum returnData,
  confined not_write (for_blocks count blockNum bestBlock returnData).
Proof.
  induction count as [| count IH]; intros blockNum returnData; simpl.
  - apply confined_ret.
  - apply confined_bind.
    + destruct (blockNum =? number bestBlock).
      * apply confined_ret.
      * unfold getBlock. confine.
    + intros [b |].
      * apply confined_bind; [ apply dispatch_confined | intros; apply IH ].
      * apply IH.
Qed.

(** A loop that ran to its end fetched every block of its range other
    than the best block, and every such fetch succeeded. *)
Lemma for_blocks_covers bestBlock count : forall blockNum returnData s out s',
  for_blocks count blockNum bestBlock returnData s = (Ok out, s') ->
  forall n, blockNum <= n < blockNum + Z.of_nat count -> n <> number bestBlock ->
  (exists pre post, actions s' = (actions s ++ pre ++ GetBlock n :: post)%list)
  /\ exists found, blocks node n = Ok found.
Proof.
  induction count as [| count IH]; intros blockNum returnData s out s' Hrun n Hn Hbest.
  - simpl in Hn. lia.
  - cbn [Trigger.for_blocks] in Hrun. rewrite run_bind in Hrun.
    destruct (Z.eq_dec n blockNum) as [-> | Hne].
    + (* the block fetched in this iteration *)
      apply Z.eqb_neq in Hbest. rewrite Hbest in Hrun.
      unfold getBlock in Hrun at 1. rewrite run_bind in Hrun. simpl in Hrun.
      unfold Eff.lift in Hrun.
      destruct (blocks node blockNum) as [found | e] eqn:Hfetch; [ | discriminate ].
      split; [ | eauto ].
      set (s1 := {| lastBlockNumber := lastBlockNumber s;
                    actions := (actions s ++ [GetBlock blockNum])%list |}) in *.
      assert (Hrest : extends not_write s1 s').
      { destruct found as [b |].
        - rewrite run_bind in Hrun.
          pose proof (dispatch_confined b blockNum bestBlock returnData s1) as Hd.
          destruct (dispatch b blockNum bestBlock returnData s1) as [[rd | e] s2];
            [ | discriminate ].
          simpl in Hd. eapply extends_trans; [ exact Hd | ].
          pose proof (for_blocks_confined bestBlock count (blockNum + 1) rd s2) as Hf.
          rewrite Hrun in Hf. exact Hf.
        - pose proof (for_blocks_confined bestBlock count (blockNum + 1) returnData s1) as Hf.
          rewrite Hrun in Hf. exact Hf. }
      destruct Hrest as [_ (w & Hw & _)]. exists [], w.
      rewrite Hw. subst s1. simpl. rewrite <- app_assoc. reflexivity.
    + (* a later block: the rest of the loop covers it *)
      assert (Hlater : blockNum + 1 <= n < blockNum + 1 + Z.of_nat count) by lia.
      assert (Hstep : exists (s1 : State) rd1,
                 extends not_write s s1
                 /\ for_blocks count (blockNum + 1) bestBlock rd1 s1 = (Ok out, s')).
      { destruct ((if blockNum =? number bestBlock then Eff.ret (Some bestBlock)
                   else getBlock node blockNum) s) as [[found | e] s1] eqn:Hfirst;
          [ | discriminate ].
        assert (H1 : extends not_write s s1).
        { match type of Hfirst with
          | ?m s = _ => assert (Hc : confined not_write m)
          end.
          { destruct (blockNum =? number bestBlock);
              [ apply confined_ret | unfold getBlock; confine ]. }
          specialize (Hc s). rewrite Hfirst in Hc. exact Hc. }
        destruct found as [b |].
        - rewrite run_bind in Hrun.
          pose proof (dispatch_confined b blockNum bestBlock returnData s1) as Hd.
          destruct (dispatch b blockNum bestBlock returnData s1) as [[rd | e] s2];
            [ | discriminate ].
          exists s2, rd. split; [ | exact Hrun ].
          eapply extends_trans; [ exact H1 | exact Hd ].
        - exists s1, returnData. split; assumption. }
      destruct Hstep as (s1 & rd1 & [_ (w & Hw & _)] & Hrun').
      destruct (IH _ _ _ _ _ Hrun' n Hlater Hbest) as [(pre & post & Hact) Hfetch].
      split; [ | exact Hfetch ].
      exists (w ++ pre)%list, post. rewrite Hact, Hw, <- !app_assoc. reflexivity.
Qed.

(** A loop that ran to its end classified every block it found, and
    every classification returned. *)
Lemma for_blocks_dispatched bestBlock count : forall blockNum returnData s out s',
  for_blocks count blockNum bestBlock returnData s = (Ok out, s') ->
  forall n b, blockNum <= n < blockNum + Z.of_nat count ->
  block_at node bestBlock n = Ok (Some b) ->
  exists rd s1 rd' s2, dispatch b n bestBlock rd s1 = (Ok rd', s2).
Proof.
  induction count as [| count IH]; intros blockNum returnData s out s' Hrun n b Hn Hb.
  - simpl in Hn. lia.
  - cbn [Trigger.for_blocks] in Hrun. rewrite run_bind in Hrun.
    destruct ((if blockNum =? number bestBlock then Eff.ret (Some bestBlock)
               else getBlock node blockNum) s) as [[found | e] s1] eqn:Hfirst;
      [ | discriminate ].
    assert (Hfound : block_at node bestBlock blockNum = Ok found).
    { unfold block_at. destruct (blockNum =? number bestBlock).
      - inversion Hfirst. reflexivity.
      - unfold getBlock in Hfirst. rewrite run_bind in Hfirst. simpl in Hfirst.
        unfold Eff.lift in Hfirst. inversion Hfirst. reflexivity. }
    destruct found as [b0 |].
    + rewrite run_bind in Hrun.
      destruct (dispatch b0 blockNum bestBlock returnData s1) as [[rd | e] s2] eqn:Hd;
        [ | discriminate ].
      destruct (Z.eq_dec n blockNum) as [-> | Hne].
      * rewrite Hfound in Hb. inversion Hb; subst. eauto.
      * eapply IH; [ exact Hrun | lia | exact Hb ].
    + destruct (Z.eq_dec n blockNum) as [-> | Hne].
      * rewrite Hfound in Hb. discriminate.
      * eapply IH; [ exact Hrun | lia | exact Hb ].
Qed.

(** C4. On the first invocation (no persisted cursor) the tick emits
    nothing and sets the cursor to the number of the best block just
    fetched; on an invocation whose best block is not past the cursor
    it emits nothing, writes nothing and leaves the cursor as it was. *)
Theorem poll_first_run_and_idle (acts : list Action) (bestBlock : BlockInfo) :
  blocks_best node = Ok (Some bestBlock) ->
  poll {| lastBlockNumber := None; actions := acts |}
  = (Ok None,
     {| lastBlockNumber := Some (number bestBlock);
        actions := (acts ++ [GetBestBlock; WriteCursor (number bestBlock)])%list |})
  /\ forall cursor,
       number bestBlock <= cursor ->
       poll {| lastBlockNumber := Some cursor; actions := acts |}
       = (Ok None,
          {| lastBlockNumber := Some cursor;
             actions := (acts ++ [GetBestBlock])%list |}).
Proof.
  intros Hbest. split.
  - unfold Trigger.poll, read_cursor, getBestBlock, write_cursor, log,
      Eff.bind, Eff.get, Eff.ret, Eff.modify, Eff.lift.
    simpl. rewrite Hbest. simpl. rewrite <- app_assoc. reflexivity.
  - intros cursor Hle.
    unfold Trigger.poll, read_cursor, getBestBlock, write_cursor, log,
      Eff.bind, Eff.get, Eff.ret, Eff.modify, Eff.lift.
    simpl. rewrite Hbest. simpl.
    apply Z.leb_le in Hle. rewrite Hle. reflexivity.
Qed.

(** The shape of a catch-up tick: the loop runs from the state reached
    after the best block was fetched, and only its success is followed
    by the cursor write. *)
Lemma poll_idle_run acts bestBlock cursor :
  blocks_best node = Ok (Some bestBlock) ->
  number bestBlock <= cursor ->
  poll {| lastBlockNumber := Some cursor; actions := acts |}
  = (Ok None, {| lastBlockNumber := Some cursor;
                 actions := (acts ++ [GetBestBlock])%list |}).
Proof.
  intros Hbest Hle.
  unfold Trigger.poll, read_cursor, getBestBlock, write_cursor, log,
    Eff.bind, Eff.get, Eff.ret, Eff.modify, Eff.lift.
  cbn [lastBlockNumber actions]. rewrite Hbest.
  apply Z.leb_le in Hle. rewrite Hle. reflexivity.
Qed.

Lemma poll_catch_up_run acts bestBlock cursor :
  blocks_best node = Ok (Some bestBlock) ->
  cursor < number bestBlock ->
  poll {| lastBlockNumber := Some cursor; actions := acts |}
  = match for_blocks (Z.to_nat (number bestBlock - cursor)) (cursor + 1) bestBlock []
            {| lastBlockNumber := Some cursor;
               actions := (acts ++ [GetBestBlock])%list |} with
    | (Ok returnData, s) =>
        (Ok (batch returnData),
         {| lastBlockNumber := Some (number bestBlock);
            actions := (actions s ++ [WriteCursor (number bestBlock)])%list |})
    | (Throw e, s) => (Throw e, s)
    end.
Proof.
  intros Hbest Hlt.
  unfold Trigger.poll, read_cursor, getBestBlock, write_cursor, log,
    Eff.bind, Eff.get, Eff.ret, Eff.modify, Eff.lift.
  cbn [lastBlockNumber actions]. rewrite Hbest.
  apply Z.leb_gt in Hlt. rewrite Hlt.
  match goal with |- context [Trigger.for_blocks ?a ?b ?c ?d ?e ?f ?g ?h ?i] =>
    destruct (Trigger.for_blocks a b c d e f g h i) as [[rd | e0] s2] end.
  - destruct rd; reflexivity.
  - reflexivity.
Qed.

(** C3. On a tick that enters catch-up ([cursor < best.number]) the
    actions after the best-block fetch are the per-block work, which
    contains no cursor write, followed, when nothing threw, by exactly
    one write of [best.number], which is then the persisted cursor,
    whether or not any event was derived.  A tick that returns has
    fetched every block of the range (the best block is reused) and has
    classified every block found.  When the tick throws, and it does so
    whenever a fetch in the range throws or the classification of a
    block of the range throws, there is no write and the cursor keeps
    its old value. *)
Theorem poll_catch_up_cursor (acts : list Action) (bestBlock : BlockInfo)
  (cursor : Z) :
  blocks_best node = Ok (Some bestBlock) ->
  cursor < number bestBlock ->
  let st := {| lastBlockNumber := Some cursor; actions := acts |} in
  exists work,
    forallb not_write work = true
    /\ match fst (poll st) with
       | Ok _ =>
           snd (poll st)
           = {| lastBlockNumber := Some (number bestBlock);
                actions := (acts ++ GetBestBlock :: work
                            ++ [WriteCursor (number bestBlock)])%list |}
           /\ (forall n, cursor < n < number bestBlock ->
               In (GetBlock n) work /\ exists found, blocks node n = Ok found)
           /\ (forall n b, cursor < n <= number bestBlock ->
               block_at node bestBlock n = Ok (Some b) ->
               exists rd s1 rd' s2, dispatch b n bestBlock rd s1 = (Ok rd', s2))
       | Throw _ =>
           snd (poll st)
           = {| lastBlockNumber := Some cursor;
                actions := (acts ++ GetBestBlock :: work)%list |}
       end
    /\ (forall n e, cursor < n < number bestBlock ->
        blocks node n = Throw e -> threw (fst (poll st)) = true)
    /\ (forall n b, cursor < n <= number bestBlock ->
        block_at node bestBlock n = Ok (Some b) ->
        (forall rd s, threw (fst (dispatch b n bestBlock rd s)) = true) ->
        threw (fst (poll st)) = true).
Proof.
  intros Hbest Hlt st. subst st.
  rewrite (poll_catch_up_run acts bestBlock cursor Hbest Hlt).
  set (s1 := {| lastBlockNumber := Some cursor;
                actions := (acts ++ [GetBestBlock])%list |}).
  set (count := Z.to_nat (number bestBlock - cursor)).
  pose proof (for_blocks_confined bestBlock count (cursor + 1) [] s1) as Hconf.
  destruct (for_blocks count (cursor + 1) bestBlock [] s1) as [[rd | e] s2] eqn:Hrun;
    destruct Hconf as [Hcur (work & Hact & Hquiet)]; simpl in Hcur, Hact;
    exists work; (split; [ exact Hquiet | ]).
  - (* the loop ran to its end *)
    assert (Hcover : forall n, cursor < n < number bestBlock ->
               In (GetBlock n) work /\ exists found, blocks node n = Ok found).
    { intros n Hn.
      destruct (for_blocks_covers bestBlock count _ _ _ _ _ Hrun n) as
        [(pre & post & Hpp) Hfetch]; [ subst count; lia | lia | ].
      split; [ | exact Hfetch ].
      rewrite Hact in Hpp. apply app_inv_head in Hpp. rewrite Hpp.
      apply in_or_app. right. left. reflexivity. }
    assert (Hdisp : forall n b, cursor < n <= number bestBlock ->
               block_at node bestBlock n = Ok (Some b) ->
               exists rd0 s0 rd' s', dispatch b n bestBlock rd0 s0 = (Ok rd', s')).
    { intros n b Hn Hb.
      eapply (for_blocks_dispatched bestBlock count _ _ _ _ _ Hrun n b);
        [ subst count; lia | exact Hb ]. }
    cbn [fst snd]. repeat split.
    + rewrite Hact. subst s1. cbn [actions]. rewrite <- !app_assoc. reflexivity.
    + apply Hcover; assumption.
    + apply Hcover; assumption.
    + exact Hdisp.
    + intros n e Hn Hthrow. destruct (Hcover n Hn) as [_ [found Hfound]]. congruence.
    + intros n b Hn Hb Hall.
      destruct (Hdisp n b Hn Hb) as (rd0 & s0 & rd' & s' & Hok).
      specialize (Hall rd0 s0). rewrite Hok in Hall. discriminate.
  - (* something threw *)
    cbn [fst snd]. repeat split.
    destruct s2 as [cur2 act2]. simpl in *. subst cur2 act2.
    rewrite <- app_assoc. reflexivity.
Qed.

(** *** Large transactions *)

Lemma unit_scale :
  BigInt (VNumber (UnitConverter.pow10 pow10_inexact 18)) = Ok (10 ^ 18).
Proof. reflexivity. Qed.

Lemma scale_threshold_integer T :
  NumberToBigInt (threshold params) = Ok T ->
  scale_threshold pow10_inexact params = Ok (T * 10 ^ 18).
Proof.
  intros H. unfold scale_threshold. cbn [BigInt] (* the Number branch *).
  rewrite H. cbn [rbind]. fold (BigInt (VNumber (UnitConverter.pow10 pow10_inexact 18))).
  rewrite unit_scale. reflexivity.
Qed.

Lemma scale_threshold_fraction :
  is_integer (threshold params) = false ->
  scale_threshold pow10_inexact params = Throw RangeError.
Proof.
  intros H. unfold scale_threshold. cbn [BigInt].
  rewrite (NumberToBigInt_fraction _ H). reflexivity.
Qed.

(** One transfer: it is reported exactly when it qualifies. *)
Lemma large_body_step thresholdWei returnData t :
  amount_wei t <> None ->
  large_body pow10_inexact params thresholdWei returnData t
  = Ok (if qualifies thresholdWei (monitorAddress params) t
        then (returnData ++ [large_event pow10_inexact (threshold params) t])%list
        else returnData).
Proof.
  intros Hparse. destruct (amount_wei t) as [a |] eqn:Ha; [ clear Hparse | congruence ].
  unfold large_body, qualifies. rewrite Ha.
  unfold amount_wei in Ha. cbn [BigInt]. rewrite Ha. cbn [rbind].
  rewrite (Z.leb_antisym a thresholdWei).
  destruct (a <? thresholdWei); [ reflexivity | ]. cbn [negb andb].
  unfold same_address.
  destruct (String.eqb (monitorAddress params) EmptyString) eqn:Hmon,
           (String.eqb (toLowerCase (sender t)) (toLowerCase (monitorAddress params))),
           (String.eqb (toLowerCase (recipient t)) (toLowerCase (monitorAddress params)));
    cbn [negb andb orb]; try reflexivity.
  all: assert (Hamount : exists z, StringToBigInt (amount t) = Some z)
         by (destruct (String.eqb_spec (amount t) EmptyString) as [E | _];
             [ rewrite E; exists 0; reflexivity | eauto ]).
  all: destruct Hamount as [z Hz].
  all: destruct (UnitConverterFacts.weiToVet_total pow10_inexact _ _ Hz) as [out Hout].
  all: unfold large_event, amount_wei; rewrite Hout, Ha; cbn [rbind].
  all: fold (BigInt (VNumber (UnitConverter.pow10 pow10_inexact 18))).
  all: rewrite unit_scale; cbn [rbind].
  all: unfold UnitConverter.big_div.
  all: replace (10 ^ 18 =? 0) with false by reflexivity.
  all: reflexivity.
Qed.

Lemma large_loop thresholdWei transfers :
  Forall (fun t => amount_wei t <> None) transfers ->
  forall returnData,
    for_of (large_body pow10_inexact params thresholdWei) transfers returnData
    = Ok (returnData
          ++ map (large_event pow10_inexact (threshold params))
               (filter (qualifies thresholdWei (monitorAddress params)) transfers))%list.
Proof.
  induction 1 as [| t ts Ht Hts IH]; intros returnData; simpl.
  - rewrite app_nil_r. reflexivity.
  - rewrite (large_body_step _ _ _ Ht). cbn [rbind].
    destruct (qualifies thresholdWei (monitorAddress params) t).
    + rewrite IH. simpl. rewrite <- app_assoc. reflexivity.
    + apply IH.
Qed.

(** C5. With an integral threshold [T] (in VET), the large-transaction
    classifier requests the transfer logs of the block once and appends,
    in order, one event for each transfer that qualifies: its amount,
    as an integer of wei, is at least [T * 10^18], and, when a monitor
    address is configured, its sender or its recipient is that address
    up to case.  An amount of exactly [T * 10^18] qualifies; one wei
    less does not. *)
Theorem large_transaction_classification (block : BlockInfo)
  (returnData : list Event) (st : State) (T : Z) (transfers : list TransferLog) :
  NumberToBigInt (threshold params) = Ok T ->
  logs_transfer node (number block) = Ok transfers ->
  Forall (fun t => amount_wei t <> None) transfers ->
  processLargeTransactions pow10_inexact node params block returnData st
  = (Ok (returnData
         ++ map (large_event pow10_inexact (threshold params))
              (filter (qualifies (T * 10 ^ 18) (monitorAddress params)) transfers))%list,
     {| lastBlockNumber := lastBlockNumber st;
        actions := (actions st
                    ++ [FilterTransfers (number block) (number block)])%list |})
  /\ (forall t a monitor,
        amount_wei t = Some a ->
        (qualifies (T * 10 ^ 18) monitor t = true
         <-> T * 10 ^ 18 <= a
             /\ (monitor = EmptyString
                 \/ toLowerCase (sender t) = toLowerCase monitor
                 \/ toLowerCase (recipient t) = toLowerCase monitor)))
  /\ (forall t, amount_wei t = Some (T * 10 ^ 18) ->
        qualifies (T * 10 ^ 18) EmptyString t = true)
  /\ (forall t monitor, amount_wei t = Some (T * 10 ^ 18 - 1) ->
        qualifies (T * 10 ^ 18) monitor t = false).
Proof.
  intros HT Hlogs Hparse. split; [ | split; [ | split ] ].
  - unfold processLargeTransactions, getTransfers, log,
      Eff.bind, Eff.lift, Eff.modify.
    rewrite (scale_threshold_integer T HT), Hlogs.
    rewrite (large_loop _ _ Hparse). reflexivity.
  - intros t a monitor Ha. unfold qualifies, same_address. rewrite Ha.
    rewrite andb_true_iff, !orb_true_iff, Z.leb_le, !String.eqb_eq. tauto.
  - intros t Ha. unfold qualifies. rewrite Ha, Z.leb_refl. reflexivity.
  - intros t monitor Ha. unfold qualifies. rewrite Ha.
    replace (T * 10 ^ 18 <=? T * 10 ^ 18 - 1) with false
      by (symmetry; apply Z.leb_gt; lia).
    reflexivity.
Qed.

(** With a fractional threshold the classifier throws before it asks
    for any log. *)
Lemma dispatch_large_fraction b blockNum bestBlock returnData s :
  triggerOn params = "largeTransaction" ->
  is_integer (threshold params) = false ->
  dispatch b blockNum bestBlock returnData s = (Throw RangeError, s).
Proof.
  intros Htrig Hfrac. unfold Trigger.dispatch. rewrite Htrig. cbn [String.eqb Ascii.eqb Bool.eqb orb].
  unfold processLargeTransactions, Eff.bind, Eff.lift.
  rewrite (scale_threshold_fraction Hfrac). reflexivity.
Qed.

Lemma is_fetch_step s n :
  extends is_fetch s {| lastBlockNumber := lastBlockNumber s;
                        actions := (actions s ++ [GetBlock n])%list |}.
Proof. split; [ reflexivity | ]. exists [GetBlock n]. split; reflexivity. Qed.

Lemma for_blocks_large_fraction bestBlock count :
  triggerOn params = "largeTransaction" ->
  is_integer (threshold params) = false ->
  forall blockNum returnData s,
    (0 < count)%nat ->
    blockNum + Z.of_nat count - 1 = number bestBlock ->
    exists e s',
      for_blocks count blockNum bestBlock returnData s = (Throw e, s')
      /\ extends is_fetch s s'
      /\ ((forall n, blockNum <= n < number bestBlock ->
           exists found, blocks node n = Ok found) -> e = RangeError).
Proof.
  intros Htrig Hfrac.
  induction count as [| count IH]; intros blockNum returnData s Hpos Hlast; [ lia | ].
  cbn [Trigger.for_blocks]. rewrite run_bind.
  destruct (Z.eqb_spec blockNum (number bestBlock)) as [Heq | Hne].
  - cbn [Eff.ret]. rewrite run_bind.
    rewrite (dispatch_large_fraction _ _ _ _ _ Htrig Hfrac).
    exists RangeError, s.
    split; [ reflexivity | split; [ apply extends_refl | reflexivity ] ].
  - unfold getBlock at 1. rewrite run_bind. cbn [log Eff.modify Eff.lift].
    set (s1 := {| lastBlockNumber := lastBlockNumber s;
                  actions := (actions s ++ [GetBlock blockNum])%list |}).
    destruct (blocks node blockNum) as [[b |] | e] eqn:Hfetch.
    + rewrite run_bind. rewrite (dispatch_large_fraction _ _ _ _ _ Htrig Hfrac).
      exists RangeError, s1.
      split; [ reflexivity | split; [ apply is_fetch_step | reflexivity ] ].
    + destruct (IH (blockNum + 1) returnData s1) as (e & s' & Hrun & Hext & Herr);
        [ lia | lia | ].
      exists e, s'. split; [ | split ].
      * exact Hrun.
      * eapply extends_trans; [ apply is_fetch_step | exact Hext ].
      * intros Hall. apply Herr. intros n Hn. apply Hall. lia.
    + exists e, s1. split; [ reflexivity | split; [ apply is_fetch_step | ] ].
      intros Hall. destruct (Hall blockNum) as [found Hfound]; [ lia | congruence ].
Qed.

(** C10, for the ticks that scan a block.  On a large-transaction tick
    whose threshold is not an integer, no event is ever emitted and a
    cursor that exists is never moved, nor is any log requested; and
    whenever there are new blocks to scan the tick throws: at the first
    block it finds, [BigInt(threshold)] raises a RangeError (the error
    of the tick unless a block fetch failed first), before the logs of
    that block are read.  The fractional threshold is not truncated or
    rounded.  A tick that scans nothing does not look at the threshold
    and does not throw: the first run stores the number of the best
    block as the cursor and returns null, a tick whose cursor is at the
    best block returns null and leaves the cursor alone. *)
Theorem fractional_threshold_rejected (st : State) :
  triggerOn params = "largeTransaction" ->
  is_integer (threshold params) = false ->
  (forall events, fst (poll st) <> Ok (Some events))
  /\ (forall cursor, lastBlockNumber st = Some cursor ->
      extends harmless st (snd (poll st)))
  /\ (forall cursor bestBlock,
        lastBlockNumber st = Some cursor ->
        blocks_best node = Ok (Some bestBlock) ->
        cursor < number bestBlock ->
        exists e,
          fst (poll st) = Throw e
          /\ ((forall n, cursor < n < number bestBlock ->
               exists found, blocks node n = Ok found) -> e = RangeError))
  /\ (forall bestBlock,
        lastBlockNumber st = None ->
        blocks_best node = Ok (Some bestBlock) ->
        poll st
        = (Ok None,
           {| lastBlockNumber := Some (number bestBlock);
              actions := (actions st
                          ++ [GetBestBlock; WriteCursor (number bestBlock)])%list |}))
  /\ (forall cursor bestBlock,
        lastBlockNumber st = Some cursor ->
        blocks_best node = Ok (Some bestBlock) ->
        number bestBlock <= cursor ->
        poll st
        = (Ok None,
           {| lastBlockNumber := Some cursor;
              actions := (actions st ++ [GetBestBlock])%list |})).
Proof.
  intros Htrig Hfrac.
  assert (Hbest_step : forall s : State,
            extends harmless s {| lastBlockNumber := lastBlockNumber s;
                                  actions := (actions s ++ [GetBestBlock])%list |}).
  { intros s. split; [ reflexivity | ]. exists [GetBestBlock]. split; reflexivity. }
  assert (Hcatch : forall acts cursor bestBlock,
            blocks_best node = Ok (Some bestBlock) ->
            cursor < number bestBlock ->
            exists e s',
              poll {| lastBlockNumber := Some cursor; actions := acts |} = (Throw e, s')
              /\ extends harmless {| lastBlockNumber := Some cursor; actions := acts |} s'
              /\ ((forall n, cursor < n < number bestBlock ->
                   exists found, blocks node n = Ok found) -> e = RangeError)).
  { intros acts cursor bestBlock Hbest Hlt.
    rewrite (poll_catch_up_run acts bestBlock cursor Hbest Hlt).
    destruct (for_blocks_large_fraction bestBlock
                (Z.to_nat (number bestBlock - cursor)) Htrig Hfrac (cursor + 1) []
                {| lastBlockNumber := Some cursor;
                   actions := (acts ++ [GetBestBlock])%list |})
      as (e & s' & Hrun & Hext & Herr); [ lia | lia | ].
    rewrite Hrun. exists e, s'. split; [ reflexivity | split ].
    - eapply extends_trans;
        [ apply (Hbest_step {| lastBlockNumber := Some cursor; actions := acts |}) | ].
      eapply extends_weaken; [ | exact Hext ].
      intros [] Ha; try discriminate; reflexivity.
    - intros Hall. apply Herr. intros n Hn. apply Hall. lia. }
  assert (Hmain :
    (forall events, fst (poll st) <> Ok (Some events))
    /\ (forall cursor, lastBlockNumber st = Some cursor ->
        extends harmless st (snd (poll st)))
    /\ (forall cursor bestBlock,
          lastBlockNumber st = Some cursor ->
          blocks_best node = Ok (Some bestBlock) ->
          cursor < number bestBlock ->
          exists e,
            fst (poll st) = Throw e
            /\ ((forall n, cursor < n < number bestBlock ->
                 exists found, blocks node n = Ok found) -> e = RangeError))).
  { destruct st as [[cursor |] acts].
    - (* a cursor exists *)
      destruct (blocks_best node) as [[bestBlock |] | e] eqn:Hbest.
      + destruct (Z.le_gt_cases (number bestBlock) cursor) as [Hidle | Hnew].
        * rewrite (poll_idle_run acts bestBlock cursor Hbest Hidle).
          cbn [fst snd]. split; [ | split ].
          -- discriminate.
          -- intros ? _.
             apply (Hbest_step {| lastBlockNumber := Some cursor; actions := acts |}).
          -- intros c b Hc Hb Hlt. inversion Hc; inversion Hb; subst. lia.
        * destruct (Hcatch acts cursor bestBlock eq_refl Hnew)
            as (e & s' & Hrun & Hext & Herr).
          rewrite Hrun. cbn [fst snd]. split; [ | split ].
          -- discriminate.
          -- intros ? _. exact Hext.
          -- intros c b Hc Hb Hlt. inversion Hc; inversion Hb; subst.
             exists e. split; [ reflexivity | exact Herr ].
      + unfold Trigger.poll, read_cursor, getBestBlock, write_cursor, log,
          Eff.bind, Eff.get, Eff.ret, Eff.modify, Eff.lift.
        cbn [lastBlockNumber actions]. rewrite Hbest. cbn [fst snd].
        split; [ | split ].
        * discriminate.
        * intros ? _.
          apply (Hbest_step {| lastBlockNumber := Some cursor; actions := acts |}).
        * intros c b _ Hb. discriminate.
      + unfold Trigger.poll, read_cursor, getBestBlock, write_cursor, log,
          Eff.bind, Eff.get, Eff.ret, Eff.modify, Eff.lift.
        cbn [lastBlockNumber actions]. rewrite Hbest. cbn [fst snd].
        split; [ | split ].
        * discriminate.
        * intros ? _.
          apply (Hbest_step {| lastBlockNumber := Some cursor; actions := acts |}).
        * intros c b _ Hb. discriminate.
    - (* first run: nothing is scanned *)
      assert (Hnone : forall events,
                fst (poll {| lastBlockNumber := None; actions := acts |})
                <> Ok (Some events)).
      { intros events.
        unfold Trigger.poll, read_cursor, getBestBlock, write_cursor, log,
          Eff.bind, Eff.get, Eff.ret, Eff.modify, Eff.lift.
        cbn [lastBlockNumber actions].
        destruct (blocks_best node) as [[bestBlock |] | e]; cbn [fst]; discriminate. }
      split; [ exact Hnone | split ].
      + intros c Hc. discriminate.
      + intros c b Hc. discriminate. }
  destruct Hmain as (Hquiet & Hkept & Hthrows).
  split; [ exact Hquiet | ]. split; [ exact Hkept | ]. split; [ exact Hthrows | ].
  split.
  - intros bestBlock Hnone Hbest. destruct st as [cursor acts].
    cbn [lastBlockNumber] in Hnone. subst cursor.
    unfold Trigger.poll, read_cursor, getBestBlock, write_cursor, log,
      Eff.bind, Eff.get, Eff.ret, Eff.modify, Eff.lift.
    cbn [lastBlockNumber actions]. rewrite Hbest. cbn [fst snd lastBlockNumber actions].
    rewrite <- app_assoc. reflexivity.
  - intros cursor bestBlock Hcursor Hbest Hle. destruct st as [stored acts].
    cbn [lastBlockNumber] in Hcursor. subst stored.
    apply (poll_idle_run acts bestBlock cursor Hbest Hle).
Qed.

End Tick.

(** First run at height 12, then an idle tick with the cursor at 12. *)
Lemma poll_first_run_and_idle_witness :
  blocks_best sample_node = Ok (Some (sample_block 12))
  /\ 12 <= 12
  /\ poll (fun _ => NaN) (fun s => s) sample_node
       (sample_params "newBlock" (of_int 1) EmptyString)
       {| lastBlockNumber := None; actions := [] |}
     = (Ok None, {| lastBlockNumber := Some 12;
                    actions := [GetBestBlock; WriteCursor 12] |})
  /\ poll (fun _ => NaN) (fun s => s) sample_node
       (sample_params "newBlock" (of_int 1) EmptyString)
       {| lastBlockNumber := Some 12; actions := [] |}
     = (Ok None, {| lastBlockNumber := Some 12; actions := [GetBestBlock] |}).
Proof.
  split; [ reflexivity | ]. split; [ lia | ].
  destruct (poll_first_run_and_idle (fun _ => NaN) (fun s => s) sample_node
              (sample_params "newBlock" (of_int 1) EmptyString)
              [] (sample_block 12) eq_refl) as [Hfirst Hidle].
  split; [ exact Hfirst | ].
  apply (Hidle 12). simpl. lia.
Defined.

(** Catch-up from 9 to 12 on a vetReceived trigger with no matching recipient:
    no event, and still one cursor write, after the work. *)
Lemma poll_catch_up_cursor_witness :
  blocks_best sample_node = Ok (Some (sample_block 12))
  /\ 9 < 12
  /\ exists work,
       forallb not_write work = true
       /\ poll (fun _ => NaN) (fun s => s) sample_node
            (sample_params "vetReceived" (of_int 1) EmptyString)
            {| lastBlockNumber := Some 9; actions := [] |}
          = (Ok None,
             {| lastBlockNumber := Some 12;
                actions := (GetBestBlock :: work ++ [WriteCursor 12])%list |}).
Proof.
  split; [ reflexivity | ]. split; [ lia | ].
  destruct (poll_catch_up_cursor (fun _ => NaN) (fun s => s) sample_node
              (sample_params "vetReceived" (of_int 1) EmptyString)
              [] (sample_block 12) 9 eq_refl ltac:(simpl; lia))
    as (work & Hquiet & Hshape & _).
  exists work. split; [ exact Hquiet | ].
  assert (Hrun : fst (poll (fun _ => NaN) (fun s => s) sample_node
                        (sample_params "vetReceived" (of_int 1) EmptyString)
                        {| lastBlockNumber := Some 9; actions := [] |}) = Ok None)
    by (vm_compute; reflexivity).
  rewrite Hrun in Hshape. destruct Hshape as [Hstate _].
  rewrite (surjective_pairing (poll _ _ _ _ _)), Hrun, Hstate. reflexivity.
Defined.

(** Threshold 2 VET on block 11 of the sample node: the transfer of
    exactly 2 VET is reported, the one a wei short is not. *)
Lemma large_transaction_classification_witness :
  NumberToBigInt (threshold (sample_params "largeTransaction" (of_int 2) EmptyString))
    = Ok 2
  /\ processLargeTransactions (fun _ => NaN) sample_node
       (sample_params "largeTransaction" (of_int 2) EmptyString)
       (sample_block 11) [] {| lastBlockNumber := Some 10; actions := [] |}
     = (Ok [LargeTransaction "0xAA" "0xbb" "2000000000000000000" "2 VET" 2
              (of_int 2) "0x7a" 11 0],
        {| lastBlockNumber := Some 10; actions := [FilterTransfers 11 11] |}).
Proof.
  split; [ reflexivity | ].
  refine (proj1 (large_transaction_classification (fun _ => NaN) (fun s => s) sample_node
            (sample_params "largeTransaction" (of_int 2) EmptyString)
            (sample_block 11) [] {| lastBlockNumber := Some 10; actions := [] |} 2
            _ eq_refl eq_refl _)).
  repeat constructor; discriminate.
Defined.

(** Threshold 1.5 VET, cursor at 9, best block 12: the tick throws a
    RangeError. *)
Lemma fractional_threshold_rejected_witness :
  triggerOn (sample_params "largeTransaction" (Finite 3 (-1)) EmptyString)
    = "largeTransaction"
  /\ is_integer (Finite 3 (-1)) = false
  /\ fst (poll (fun _ => NaN) (fun s => s) sample_node
            (sample_params "largeTransaction" (Finite 3 (-1)) EmptyString)
            {| lastBlockNumber := Some 9; actions := [] |})
     = Throw RangeError.
Proof.
  split; [ reflexivity | ]. split; [ reflexivity | ].
  destruct (fractional_threshold_rejected (fun _ => NaN) (fun s => s) sample_node
              (sample_params "largeTransaction" (Finite 3 (-1)) EmptyString)
              {| lastBlockNumber := Some 9; actions := [] |} eq_refl eq_refl)
    as (_ & _ & Hthrow & _).
  destruct (Hthrow 9 (sample_block 12) eq_refl eq_refl ltac:(simpl; lia))
    as (e & Hrun & Herr).
  rewrite Hrun. f_equal. apply Herr. intros n _. eexists. reflexivity.
Defined.

(** C10 fails on a tick that scans nothing.  The first run of the same
    configuration, a large-transaction trigger with threshold 1.5: the
    threshold is not looked at, nothing is thrown, and the cursor is
    set to the best block, 12. *)
Lemma fractional_threshold_first_run :
  triggerOn (sample_params "largeTransaction" (Finite 3 (-1)) EmptyString)
    = "largeTransaction"
  /\ is_integer (threshold (sample_params "largeTransaction" (Finite 3 (-1))
                              EmptyString))
     = false
  /\ poll (fun _ => NaN) (fun s => s) sample_node
       (sample_params "largeTransaction" (Finite 3 (-1)) EmptyString)
       {| lastBlockNumber := None; actions := [] |}
     = (Ok None, {| lastBlockNumber := Some 12;
                    actions := [GetBestBlock; WriteCursor 12] |})
  /\ threw (fst (poll (fun _ => NaN) (fun s => s) sample_node
                   (sample_params "largeTransaction" (Finite 3 (-1)) EmptyString)
                   {| lastBlockNumber := None; actions := [] |}))
     = false.
Proof. repeat split. Qed.

End TriggerFacts.

(** ** The signing and delegation pipeline *)
Module PipelineFacts.
Import JS Observe ClauseBuilder ThorClient TransactionOps Samples.

Section Pipeline.
Context {Digest : Type}.
Variable Wallet : string -> result string.
Variable signingHash : TransactionBody -> result Digest.
Variable sign : string -> Digest -> result Signature.
Variable encode : TransactionBody -> option (list byte) -> result (list byte).
Variable encodeTransfer : string -> string -> result string.
Variable pow10_inexact : nat -> Number.
Variable client_chainTag : Z.
Variable net : Network.

#[local] Abbreviation sendTransaction :=
  (sendTransaction Wallet signingHash sign encode client_chainTag net).
#[local] Abbreviation build_body := (build_body client_chainTag).

(** Unfolds a run of the pipeline into the case analysis on what each
    library call and each request returned. *)
Ltac unfold_run :=
  unfold TransactionOps.sendTransaction, getBestBlock, client_sendTransaction,
    createDelegationService, requestDelegation, estimateGas, log,
    Eff.bind, Eff.lift, Eff.ret, Eff.throw, Eff.modify;
  cbn [fst snd app].

(** The error a failed request is turned into is never empty. *)
Lemma error_response_truthy (dataError : option string) :
  truthy_opt (Some (if truthy_opt dataError
                    then match dataError with
                         | Some e => e
                         | None => EmptyString
                         end
                    else "Delegation request failed")) = true.
Proof.
  destruct dataError as [e |]; cbn; [ | reflexivity ].
  destruct (truthy e) eqn:E; cbn; [ exact E | reflexivity ].
Qed.

Ltac reduce_run :=
  cbv beta iota zeta; cbn [error signature]; rewrite ?error_response_truthy;
  cbv beta iota zeta.

(** One step: case analysis on the next library call or request. *)
Ltac step_run :=
  match goal with
  | |- context [match Wallet ?k with _ => _ end] => destruct (Wallet k) eqn:?
  | |- context [match best net with _ => _ end] =>
      destruct (best net) as [[? |] | ?] eqn:?
  | |- context [match simulate net ?c ?g with _ => _ end] =>
      destruct (simulate net c g) eqn:?
  | |- context [match signingHash ?b with _ => _ end] =>
      destruct (signingHash b) eqn:?
  | |- context [match sign ?k ?d with _ => _ end] => destruct (sign k d) eqn:?
  | |- context [match delegation_remote ?c with _ => _ end] =>
      destruct (delegation_remote c) eqn:?
  | |- context [if truthy ?x then _ else _] => destruct (truthy x) eqn:?
  | |- context [match encode ?b ?x with _ => _ end] => destruct (encode b x) eqn:?
  | |- context [match delegate net ?u ?x ?o with _ => _ end] =>
      destruct (delegate net u x o) as [? | []] eqn:?
  | |- context [if truthy_opt ?x then _ else _] => destruct (truthy_opt x) eqn:?
  | |- context [match getBytes ?x with _ => _ end] => destruct (getBytes x) eqn:?
  | |- context [match submit net ?x with _ => _ end] => destruct (submit net x) eqn:?
  end; reduce_run.

Ltac split_run := reduce_run; repeat step_run.

(** Finds the request among the calls of a run. *)
Ltac pick_request H :=
  cbn [In] in H;
  repeat (destruct H as [H | H]; [ try discriminate H | ]);
  try contradiction;
  try (inversion H; subst; clear H).

(** Two equations on what the same request returned. *)
Ltac same_reply :=
  repeat match goal with
         | H1 : ?x = _, H2 : ?x = _ |- _ =>
             rewrite H1 in H2; inversion H2; subst; clear H2
         end;
  try congruence.

Variable randomBytes : list byte.
Variable clauses_ : list Clause.
Variable privateKey_ : string.
Variable gas_ gasPriceCoef_ expiration_ : Z.

#[local] Abbreviation run dc :=
  (sendTransaction randomBytes clauses_ privateKey_ gas_ gasPriceCoef_ expiration_
     dc []).

(** Whatever happens, the chain sees at most one submission. *)
Lemma at_most_one_submission dc :
  (List.length (submissions (snd (run dc))) <= 1)%nat.
Proof.
  unfold_run. split_run; cbn; lia.
Qed.

Lemma build_body_reserved dc bestBlock :
  reserved (build_body randomBytes clauses_ gas_ gasPriceCoef_ expiration_ dc bestBlock)
  = if delegation_enabled dc then Some {| features := 1 |} else None.
Proof.
  unfold TransactionOps.build_body. destruct (delegation_enabled dc); reflexivity.
Qed.

Lemma build_body_gas rb cs g coef exp dc bestBlock :
  gas (build_body rb cs g coef exp dc bestBlock) = g.
Proof.
  unfold TransactionOps.build_body. destruct (delegation_enabled dc); reflexivity.
Qed.

Ltac close_leaf :=
  cbn [hashed signed submissions estimations app In List.length fst snd];
  try contradiction; try discriminate.

(** With a wallet and a best block at hand, the body built from that
    block is hashed, once, whatever happens afterwards. *)
Lemma hashed_once dc wallet bestBlock :
  Wallet privateKey_ = Ok wallet ->
  best net = Ok (Some bestBlock) ->
  hashed (snd (run dc))
  = [build_body randomBytes clauses_ gas_ gasPriceCoef_ expiration_ dc bestBlock].
Proof.
  intros Hwallet Hbest. unfold_run. rewrite Hwallet. reduce_run.
  rewrite Hbest. reduce_run. split_run; close_leaf; reflexivity.
Qed.

(** Whatever is hashed is the body built from the best block. *)
Lemma hashed_origin dc body :
  In body (hashed (snd (run dc))) ->
  exists bestBlock,
    best net = Ok (Some bestBlock)
    /\ body = build_body randomBytes clauses_ gas_ gasPriceCoef_ expiration_ dc bestBlock.
Proof.
  unfold_run. split_run; close_leaf; intros [<- | []]; eauto.
Qed.

(** Whatever is signed is the signing hash of that body. *)
Lemma signed_origin dc d :
  In d (signed (snd (run dc))) ->
  exists bestBlock,
    best net = Ok (Some bestBlock)
    /\ signingHash (build_body randomBytes clauses_ gas_ gasPriceCoef_ expiration_
                      dc bestBlock) = Ok d.
Proof.
  unfold_run. split_run; close_leaf; intros [<- | []]; eauto.
Qed.

Lemma signed_once dc wallet bestBlock d :
  Wallet privateKey_ = Ok wallet ->
  best net = Ok (Some bestBlock) ->
  signingHash (build_body randomBytes clauses_ gas_ gasPriceCoef_ expiration_
                 dc bestBlock) = Ok d ->
  signed (snd (run dc)) = [d].
Proof.
  intros Hw Hb Hd. unfold_run. rewrite Hw, Hb. cbn [fst snd app]. rewrite Hd.
  split_run; reflexivity.
Qed.

(** C1. When delegation is requested, the body whose signing hash is
    taken already carries [reserved.features = 1], and it carries no
    [reserved] field otherwise; the digest that is signed is the hash
    of that body.  Hence, for a signing hash without collisions, two
    runs that differ only in whether delegation is requested never
    sign the same digest, and both do sign one as soon as the wallet,
    the best block and the hash are available. *)
Theorem signing_digest_depends_on_delegation (dc_on dc_off : option Credentials) :
  delegation_enabled dc_on = true ->
  delegation_enabled dc_off = false ->
  (forall b1 b2 d, signingHash b1 = Ok d -> signingHash b2 = Ok d -> b1 = b2) ->
  (forall body, In body (hashed (snd (run dc_on))) ->
                reserved body = Some {| features := 1 |})
  /\ (forall body, In body (hashed (snd (run dc_off))) -> reserved body = None)
  /\ (forall d, In d (signed (snd (run dc_on))) ->
       exists body, signingHash body = Ok d
                    /\ reserved body = Some {| features := 1 |})
  /\ (forall d_on d_off,
        In d_on (signed (snd (run dc_on))) ->
        In d_off (signed (snd (run dc_off))) ->
        d_on <> d_off)
  /\ (forall wallet bestBlock d_on d_off,
        Wallet privateKey_ = Ok wallet ->
        best net = Ok (Some bestBlock) ->
        signingHash (build_body randomBytes clauses_ gas_ gasPriceCoef_ expiration_
                       dc_on bestBlock) = Ok d_on ->
        signingHash (build_body randomBytes clauses_ gas_ gasPriceCoef_ expiration_
                       dc_off bestBlock) = Ok d_off ->
        signed (snd (run dc_on)) = [d_on]
        /\ signed (snd (run dc_off)) = [d_off]
        /\ d_on <> d_off).
Proof.
  intros Hon Hoff Hinj.
  assert (Hdiff : forall b d1 d2,
            signingHash (build_body randomBytes clauses_ gas_ gasPriceCoef_
                           expiration_ dc_on b) = Ok d1 ->
            signingHash (build_body randomBytes clauses_ gas_ gasPriceCoef_
                           expiration_ dc_off b) = Ok d2 ->
            d1 <> d2).
  { intros b d1 d2 H1 H2 E. subst d2.
    pose proof (Hinj _ _ _ H1 H2) as Hsame.
    apply (f_equal reserved) in Hsame.
    rewrite !build_body_reserved, Hon, Hoff in Hsame. discriminate. }
  split; [ | split; [ | split; [ | split ] ] ].
  - intros body Hin. destruct (hashed_origin _ _ Hin) as (b & _ & ->).
    rewrite build_body_reserved, Hon. reflexivity.
  - intros body Hin. destruct (hashed_origin _ _ Hin) as (b & _ & ->).
    rewrite build_body_reserved, Hoff. reflexivity.
  - intros d Hin. destruct (signed_origin _ _ Hin) as (b & _ & Hd).
    eexists. split; [ exact Hd | ]. rewrite build_body_reserved, Hon. reflexivity.
  - intros d1 d2 H1 H2.
    destruct (signed_origin _ _ H1) as (b1 & Hb1 & Hd1).
    destruct (signed_origin _ _ H2) as (b2 & Hb2 & Hd2).
    assert (b2 = b1) by congruence. subst b2.
    exact (Hdiff _ _ _ Hd1 Hd2).
  - intros wallet bestBlock d1 d2 Hw Hb H1 H2. split; [ | split ].
    + exact (signed_once _ _ _ _ Hw Hb H1).
    + exact (signed_once _ _ _ _ Hw Hb H2).
    + exact (Hdiff _ _ _ H1 H2).
Qed.

(** C2, as the code has it.  With remote delegation configured,
    consider the request the run made to the delegation service.  If
    the service answered with a non-empty error string, or with an HTTP
    error status, the operation throws "Fee delegation failed: ..." and
    nothing is submitted; if the request failed in any other way (no
    response at all), its own error is rethrown as it is, and nothing
    is submitted either.  An operation that succeeds has made exactly
    one submission, and no run makes more than one.  The last part
    says what a run whose steps before the request succeed comes to,
    call by call, for each way the request can end. *)
Theorem delegation_failure_never_submits (c : Credentials) :
  enableDelegation c = true ->
  truthy (delegatorUrl c) = true ->
  (forall url raw origin_,
     In (Delegate url raw origin_) (snd (run (Some c))) ->
     (forall resp,
        delegate net url raw origin_ = Ok resp ->
        truthy_opt (error resp) = true ->
        exists msg,
          error resp = Some msg
          /\ fst (run (Some c)) = Throw (JsError ("Fee delegation failed: " ++ msg))
          /\ submissions (snd (run (Some c))) = [])
     /\ (forall status dataError,
          delegate net url raw origin_ = Throw (AxiosResponseError status dataError) ->
          fst (run (Some c))
          = Throw (JsError ("Fee delegation failed: "
                            ++ if truthy_opt dataError
                               then match dataError with
                                    | Some e => e
                                    | None => EmptyString
                                    end
                               else "Delegation request failed"))
          /\ submissions (snd (run (Some c))) = [])
     /\ (forall e,
          delegate net url raw origin_ = Throw e ->
          threw (fst (run (Some c))) = true
          /\ submissions (snd (run (Some c))) = []
          /\ ((forall status dataError, e <> AxiosResponseError status dataError) ->
              fst (run (Some c)) = Throw e)))
  /\ (forall out,
        fst (run (Some c)) = Ok out ->
        exists raw,
          submissions (snd (run (Some c))) = [raw]
          /\ submit net raw = Ok (txId out))
  /\ (List.length (submissions (snd (run (Some c)))) <= 1)%nat
  /\ (forall wallet bestBlock digest sig unsigned,
        let body := build_body randomBytes clauses_ gas_ gasPriceCoef_ expiration_
                      (Some c) bestBlock in
        let senderSignature := (r sig ++ s sig ++ toBeHex (v sig - 27))%list in
        let calls := [GetBestBlock; SigningHash body; Sign digest;
                      Delegate (delegatorUrl c) (hexlify unsigned) wallet] in
        Wallet privateKey_ = Ok wallet ->
        best net = Ok (Some bestBlock) ->
        signingHash body = Ok digest ->
        sign privateKey_ digest = Ok sig ->
        (truthy (delegatorPrivateKey c) = true ->
         exists sponsor, Wallet (delegatorPrivateKey c) = Ok sponsor) ->
        encode body None = Ok unsigned ->
        (forall resp msg,
           delegate net (delegatorUrl c) (hexlify unsigned) wallet = Ok resp ->
           error resp = Some msg -> truthy msg = true ->
           run (Some c)
           = (Throw (JsError ("Fee delegation failed: " ++ msg)), calls))
        /\ (forall status dataError,
             delegate net (delegatorUrl c) (hexlify unsigned) wallet
             = Throw (AxiosResponseError status dataError) ->
             run (Some c)
             = (Throw (JsError ("Fee delegation failed: "
                                ++ if truthy_opt dataError
                                   then match dataError with
                                        | Some e => e
                                        | None => EmptyString
                                        end
                                   else "Delegation request failed")), calls))
        /\ (forall code_,
             delegate net (delegatorUrl c) (hexlify unsigned) wallet
             = Throw (AxiosNoResponse code_) ->
             run (Some c) = (Throw (AxiosNoResponse code_), calls))
        /\ (forall resp sponsorSignature signedBytes answer,
             delegate net (delegatorUrl c) (hexlify unsigned) wallet = Ok resp ->
             truthy_opt (error resp) = false ->
             getBytes (signature resp) = Ok sponsorSignature ->
             encode body (Some (senderSignature ++ sponsorSignature)%list)
             = Ok signedBytes ->
             submit net (hexlify signedBytes) = Ok answer ->
             snd (run (Some c)) = (calls ++ [Submit (hexlify signedBytes)])%list
             /\ exists out, fst (run (Some c)) = Ok out /\ txId out = answer)).
Proof.
  intros Hen Hurl. split; [ | split; [ | split ] ].
  - intros url raw origin_.
    unfold_run. unfold delegation_remote. rewrite Hen, Hurl. cbn [andb].
    split_run; close_leaf; intros Hin; pick_request Hin;
      (split; [ | split ]); intros; same_reply; close_leaf; cbn [threw];
      try solve [ repeat split; try reflexivity; try congruence;
                  intros Hno; exfalso; eapply Hno; reflexivity ];
      try solve [ match goal with
                  | H : truthy_opt ?d = _ |- context [truthy_opt ?d] => rewrite H
                  end; split; reflexivity ];
      try solve [ match goal with
                  | H : truthy_opt (error ?r) = true |- _ =>
                      destruct (error r) as [msg |];
                      [ exists msg; repeat split | discriminate H ]
                  end ].
  - intros out. unfold_run. unfold delegation_remote. rewrite Hen, Hurl. cbn [andb].
    split_run; close_leaf; intros Hout; inversion Hout; subst; cbn [txId];
      eexists; split; first [ reflexivity | eassumption ].
  - apply at_most_one_submission.
  - intros wallet bestBlock digest sig unsigned body senderSignature calls
      Hw Hb Hd Hs Hsponsor Hu.
    assert (Hrun : run (Some c)
      = let continue (resp : DelegationResponse) :=
          if truthy_opt (error resp) then
            (Throw (JsError ("Fee delegation failed: "
                             ++ match error resp with
                                | Some e => e
                                | None => EmptyString
                                end)), calls)
          else
            match getBytes (signature resp) with
            | Ok sponsorSignature =>
                match encode body (Some (senderSignature ++ sponsorSignature)%list) with
                | Ok signedBytes =>
                    match submit net (hexlify signedBytes) with
                    | Ok answer =>
                        (Ok {| txId := answer; origin := wallet; s_gas := gas_;
                               s_gasPriceCoef := gasPriceCoef_;
                               s_expiration := expiration_;
                               s_blockRef := createBlockRef (id bestBlock);
                               success := true;
                               message := "Transaction submitted successfully" |},
                         (calls ++ [Submit (hexlify signedBytes)])%list)
                    | Throw e => (Throw e, (calls ++ [Submit (hexlify signedBytes)])%list)
                    end
                | Throw e => (Throw e, calls)
                end
            | Throw e => (Throw e, calls)
            end in
        match delegate net (delegatorUrl c) (hexlify unsigned) wallet with
        | Ok data => continue data
        | Throw (AxiosResponseError _ dataError) =>
            continue {| signature := Some EmptyString;
                        error := Some (if truthy_opt dataError
                                       then match dataError with
                                            | Some e => e
                                            | None => EmptyString
                                            end
                                       else "Delegation request failed") |}
        | Throw e => (Throw e, calls)
        end).
    { unfold_run. unfold delegation_remote. rewrite Hen, Hurl. cbn [andb].
      rewrite Hw. reduce_run. rewrite Hb. reduce_run.
      fold body. rewrite Hd. reduce_run. rewrite Hs. reduce_run.
      fold senderSignature.
      destruct (truthy (delegatorPrivateKey c)) eqn:Hkey.
      - destruct (Hsponsor eq_refl) as (sponsor & ->). reduce_run.
        rewrite Hu. reduce_run.
        destruct (delegate net (delegatorUrl c) (hexlify unsigned) wallet)
          as [resp | []]; reduce_run; try reflexivity;
          repeat step_run; reflexivity.
      - reduce_run. rewrite Hu. reduce_run.
        destruct (delegate net (delegatorUrl c) (hexlify unsigned) wallet)
          as [resp | []]; reduce_run; try reflexivity;
          repeat step_run; reflexivity. }
    cbv zeta in Hrun. split; [ | split; [ | split ] ].
    + intros resp msg Hresp Hmsg Htruthy. rewrite Hrun, Hresp.
      unfold truthy_opt. rewrite Hmsg, Htruthy. reflexivity.
    + intros status dataError Hresp. rewrite Hrun, Hresp.
      cbn [error]. rewrite error_response_truthy. reflexivity.
    + intros code_ Hresp. rewrite Hrun, Hresp. reflexivity.
    + intros resp sponsorSignature signedBytes answer Hresp Herr Hsig Henc Hsub.
      rewrite Hrun, Hresp, Herr, Hsig, Henc, Hsub. cbn [fst snd].
      split; [ reflexivity | ]. eexists. split; reflexivity.
Qed.

(** *** Where the gas limit comes from *)

#[local] Abbreviation multiClause :=
  (multiClause Wallet signingHash sign encode client_chainTag net).
#[local] Abbreviation sendVet :=
  (sendVet Wallet signingHash sign encode pow10_inexact client_chainTag net).
#[local] Abbreviation sendVtho :=
  (sendVtho Wallet signingHash sign encode encodeTransfer pow10_inexact
     client_chainTag net).

Ltac unfold_operation :=
  unfold TransactionOps.multiClause, TransactionOps.sendVet,
    TransactionOps.sendVtho, or_default, delegation_arg;
  unfold_run.

Ltac gas_leaf :=
  close_leaf;
  try solve [ intros ? [<- | []]; apply build_body_gas ];
  try solve [ split; [ reflexivity | intros ? [<- | []]; apply build_body_gas ] ];
  try solve [ split; [ reflexivity | intros ? [] ] ].

(** C9 fails in [sendVet] and [sendVtho].  With a wallet and a best
    block at hand and no gas limit supplied (0, the default the
    parameter describes as "0 for auto-estimate"), [sendVet] never asks
    the node for an estimate and the one body it hashes carries the
    constant 21000; [sendVtho] does the same with 60000.  The same
    transfer sent through [multiClause] is estimated once and its body
    carries [Math.ceil(total * 1.2)] of the gas the estimate reports. *)
Theorem unsupplied_gas_limit_is_estimated_only_by_multiClause
  (credentials : Credentials) (useDelegation : bool)
  (toAddress amount_ valueWei wallet : string) (bestBlock : BlockInfo) :
  Wallet (privateKey credentials) = Ok wallet ->
  best net = Ok (Some bestBlock) ->
  UnitConverter.vetToWei pow10_inexact (VString amount_) = Ok valueWei ->
  let transfer := {| to := Some toAddress; value := valueWei; data := "0x" |} in
  let dc := delegation_arg useDelegation credentials in
  (estimations (snd (sendVet randomBytes credentials toAddress amount_ 0
                       gasPriceCoef_ expiration_ useDelegation []))
   = []
   /\ hashed (snd (sendVet randomBytes credentials toAddress amount_ 0
                     gasPriceCoef_ expiration_ useDelegation []))
      = [build_body randomBytes [transfer] 21000 gasPriceCoef_ expiration_ dc
           bestBlock]
   /\ gas (build_body randomBytes [transfer] 21000 gasPriceCoef_ expiration_ dc
             bestBlock)
      = 21000)
  /\ (forall tokenWei data_,
        UnitConverter.vthoToWei pow10_inexact (VString amount_) = Ok tokenWei ->
        encodeTransfer toAddress tokenWei = Ok data_ ->
        let call := {| to := Some VTHO_CONTRACT_ADDRESS; value := "0";
                       data := data_ |} in
        estimations (snd (sendVtho randomBytes credentials toAddress amount_ 0
                            gasPriceCoef_ expiration_ useDelegation []))
        = []
        /\ hashed (snd (sendVtho randomBytes credentials toAddress amount_ 0
                          gasPriceCoef_ expiration_ useDelegation []))
           = [build_body randomBytes [call] 60000 gasPriceCoef_ expiration_ dc
                bestBlock]
        /\ gas (build_body randomBytes [call] 60000 gasPriceCoef_ expiration_ dc
                  bestBlock)
           = 60000)
  /\ (forall estimates,
        simulate net [transfer] 10000000 = Ok estimates ->
        estimations (snd (multiClause randomBytes credentials [transfer] 0
                            gasPriceCoef_ expiration_ useDelegation []))
        = [[transfer]]
        /\ hashed (snd (multiClause randomBytes credentials [transfer] 0
                          gasPriceCoef_ expiration_ useDelegation []))
           = [build_body randomBytes [transfer]
                (with_buffer (total_gasUsed estimates)) gasPriceCoef_ expiration_
                dc bestBlock]
        /\ gas (build_body randomBytes [transfer]
                  (with_buffer (total_gasUsed estimates)) gasPriceCoef_
                  expiration_ dc bestBlock)
           = with_buffer (total_gasUsed estimates)).
Proof.
  intros Hwallet Hbest Hwei transfer dc. subst transfer dc.
  split; [ | split ].
  - unfold_operation. rewrite Hwei. cbn [Z.eqb]. reduce_run.
    rewrite Hwallet. reduce_run. rewrite Hbest. reduce_run.
    split_run; close_leaf;
      (split; [ reflexivity | split; [ reflexivity | apply build_body_gas ] ]).
  - intros tokenWei data_ Htoken Hdata call. subst call.
    unfold_operation. rewrite Htoken. reduce_run. rewrite Hdata. cbn [Z.eqb].
    reduce_run. rewrite Hwallet. reduce_run. rewrite Hbest. reduce_run.
    split_run; close_leaf;
      (split; [ reflexivity | split; [ reflexivity | apply build_body_gas ] ]).
  - intros estimates Hsim. unfold_operation. cbn [Z.eqb]. rewrite Hsim.
    reduce_run. rewrite Hwallet. reduce_run. rewrite Hbest. reduce_run.
    split_run; close_leaf;
      (split; [ reflexivity | split; [ reflexivity | apply build_body_gas ] ]).
Qed.

(** What [multiClause] does with the gas limit otherwise: a failed
    estimate fails the operation before anything else is done. *)
Lemma multiClause_failed_estimate (credentials : Credentials)
  (useDelegation : bool) e :
  simulate net clauses_ 10000000 = Throw e ->
  multiClause randomBytes credentials clauses_ 0 gasPriceCoef_ expiration_
    useDelegation []
  = (Throw e, [EstimateGas clauses_]).
Proof.
  intros Hsim. unfold_operation. cbn [Z.eqb]. rewrite Hsim. reflexivity.
Qed.

(** A gas limit that is supplied is never estimated, by any of the
    three operations. *)
Lemma supplied_gas_limit_is_not_estimated (credentials : Credentials)
  (useDelegation : bool) (toAddress amount_ : string) (gasLimit_ : Z) :
  gasLimit_ <> 0 ->
  estimations (snd (multiClause randomBytes credentials clauses_ gasLimit_
                      gasPriceCoef_ expiration_ useDelegation []))
  = []
  /\ estimations (snd (sendVet randomBytes credentials toAddress amount_ gasLimit_
                         gasPriceCoef_ expiration_ useDelegation []))
     = []
  /\ estimations (snd (sendVtho randomBytes credentials toAddress amount_
                         gasLimit_ gasPriceCoef_ expiration_ useDelegation []))
     = [].
Proof.
  intros Hnz. apply Z.eqb_neq in Hnz. split; [ | split ].
  - unfold_operation. rewrite Hnz. split_run; close_leaf; reflexivity.
  - unfold_operation.
    destruct (UnitConverter.vetToWei pow10_inexact (VString amount_)) as [valueWei | e];
      [ | reflexivity ].
    split_run; close_leaf; reflexivity.
  - unfold_operation.
    destruct (UnitConverter.vthoToWei pow10_inexact (VString amount_)) as [valueWei | e];
      [ | reflexivity ].
    destruct (encodeTransfer toAddress valueWei) as [data_ | e]; [ | reflexivity ].
    split_run; close_leaf; reflexivity.
Qed.

End Pipeline.

Lemma sample_signingHash_injective b1 b2 d :
  sample_signingHash b1 = Ok d -> sample_signingHash b2 = Ok d -> b1 = b2.
Proof. unfold sample_signingHash. intros H1 H2. congruence. Qed.

(** The same transfer sent with and without delegation, on a signing
    hash that is the body itself: one digest is signed in each run, and
    the two differ. *)
Lemma signing_digest_depends_on_delegation_witness :
  delegation_enabled (Some (sample_credentials true EmptyString)) = true
  /\ delegation_enabled None = false
  /\ exists d_on d_off,
       signed (snd (sendTransaction sample_Wallet sample_signingHash sample_sign
                      sample_encode 74 (sample_network (Throw TypeError))
                      sample_entropy [sample_clause] "01" 21000 0 720
                      (Some (sample_credentials true EmptyString)) []))
       = [d_on]
       /\ signed (snd (sendTransaction sample_Wallet sample_signingHash sample_sign
                         sample_encode 74 (sample_network (Throw TypeError))
                         sample_entropy [sample_clause] "01" 21000 0 720
                         None []))
          = [d_off]
       /\ d_on <> d_off.
Proof.
  split; [ reflexivity | ]. split; [ reflexivity | ].
  eexists. eexists.
  refine (proj2 (proj2 (proj2 (proj2
            (signing_digest_depends_on_delegation sample_Wallet sample_signingHash
               sample_sign sample_encode 74 (sample_network (Throw TypeError))
               sample_entropy [sample_clause] "01" 21000 0 720
               (Some (sample_credentials true EmptyString)) None
               eq_refl eq_refl sample_signingHash_injective))))
            "0xd001" (sample_block 5) _ _ eq_refl eq_refl eq_refl eq_refl).
Defined.

(** A delegation service that answers [{error: "no credit"}]: the
    operation fails with that message after four calls, the last of
    them the delegation request, and nothing is submitted. *)
Lemma delegation_failure_never_submits_witness :
  enableDelegation (sample_credentials true "http://sponsor") = true
  /\ truthy (delegatorUrl (sample_credentials true "http://sponsor")) = true
  /\ fst (sendTransaction sample_Wallet sample_signingHash sample_sign
            sample_encode 74
            (sample_network (Ok {| signature := None; error := Some "no credit" |}))
            sample_entropy [sample_clause] "01" 21000 0 720
            (Some (sample_credentials true "http://sponsor")) [])
     = Throw (JsError "Fee delegation failed: no credit")
  /\ submissions
       (snd (sendTransaction sample_Wallet sample_signingHash sample_sign
               sample_encode 74
               (sample_network (Ok {| signature := None; error := Some "no credit" |}))
               sample_entropy [sample_clause] "01" 21000 0 720
               (Some (sample_credentials true "http://sponsor")) []))
     = []
  /\ sendTransaction sample_Wallet sample_signingHash sample_sign
       sample_encode 74
       (sample_network (Ok {| signature := None; error := Some "no credit" |}))
       sample_entropy [sample_clause] "01" 21000 0 720
       (Some (sample_credentials true "http://sponsor")) []
     = (Throw (JsError "Fee delegation failed: no credit"),
        [GetBestBlock;
         SigningHash (build_body 74 sample_entropy [sample_clause] 21000 0 720
                        (Some (sample_credentials true "http://sponsor"))
                        (sample_block 5));
         Sign (build_body 74 sample_entropy [sample_clause] 21000 0 720
                 (Some (sample_credentials true "http://sponsor")) (sample_block 5));
         Delegate "http://sponsor" "0xdd" "0xd001"]).
Proof.
  split; [ reflexivity | ]. split; [ reflexivity | ].
  destruct (delegation_failure_never_submits sample_Wallet sample_signingHash
              sample_sign sample_encode 74
              (sample_network (Ok {| signature := None; error := Some "no credit" |}))
              sample_entropy [sample_clause] "01" 21000 0 720
              (sample_credentials true "http://sponsor") eq_refl eq_refl)
    as (Hfail & _ & _ & Hrun).
  destruct (Hfail "http://sponsor" "0xdd" "0xd001") as (Hreply & _ & _).
  { cbn. tauto. }
  destruct (Hreply _ eq_refl eq_refl) as (msg & Hmsg & Hthrow & Hnone).
  inversion Hmsg; subst msg.
  split; [ exact Hthrow | ]. split; [ exact Hnone | ].
  destruct (Hrun "0xd001" (sample_block 5)
              (build_body 74 sample_entropy [sample_clause] 21000 0 720
                 (Some (sample_credentials true "http://sponsor")) (sample_block 5))
              {| r := [x01]; s := [x02]; yParity := true |} [xdd]
              eq_refl eq_refl eq_refl eq_refl
              (fun H : truthy EmptyString = true =>
                 False_ind _ (Bool.diff_false_true H))
              eq_refl)
    as (Hanswered & _).
  exact (Hanswered _ "no credit" eq_refl eq_refl eq_refl).
Defined.

(** C2 fails when the delegation request gets no response.  A service
    that cannot be reached: the operation throws the request's own
    error, which is not an [Error] with a delegation-failed message,
    after the calls listed and without a submission.  A service that
    answers with an empty error string is not taken to have failed
    either: its signature is decoded, here to a [TypeError]. *)
Lemma delegation_request_without_response_is_rethrown :
  enableDelegation (sample_credentials true "http://sponsor") = true
  /\ sendTransaction sample_Wallet sample_signingHash sample_sign sample_encode 74
       (sample_network (Throw (AxiosNoResponse "ECONNREFUSED")))
       sample_entropy [sample_clause] "01" 21000 0 720
       (Some (sample_credentials true "http://sponsor")) []
     = (Throw (AxiosNoResponse "ECONNREFUSED"),
        [GetBestBlock;
         SigningHash (build_body 74 sample_entropy [sample_clause] 21000 0 720
                        (Some (sample_credentials true "http://sponsor"))
                        (sample_block 5));
         Sign (build_body 74 sample_entropy [sample_clause] 21000 0 720
                 (Some (sample_credentials true "http://sponsor")) (sample_block 5));
         Delegate "http://sponsor" "0xdd" "0xd001"])
  /\ (forall msg,
        fst (sendTransaction sample_Wallet sample_signingHash sample_sign
               sample_encode 74
               (sample_network (Throw (AxiosNoResponse "ECONNREFUSED")))
               sample_entropy [sample_clause] "01" 21000 0 720
               (Some (sample_credentials true "http://sponsor")) [])
        <> Throw (JsError msg))
  /\ fst (sendTransaction sample_Wallet sample_signingHash sample_sign
            sample_encode 74
            (sample_network (Ok {| signature := Some EmptyString;
                                   error := Some EmptyString |}))
            sample_entropy [sample_clause] "01" 21000 0 720
            (Some (sample_credentials true "http://sponsor")) [])
     = Throw TypeError.
Proof.
  split; [ reflexivity | ]. split; [ reflexivity | ].
  split; [ intros msg; discriminate | reflexivity ].
Qed.

(** A sponsor signature comes back: both signatures are concatenated,
    sender first, and the transaction is submitted once. *)
Example delegation_success :
  sendTransaction sample_Wallet sample_signingHash sample_sign sample_encode 74
    (sample_network (Ok {| signature := Some "0xabcd"; error := None |}))
    sample_entropy [sample_clause] "01" 21000 0 720
    (Some (sample_credentials true "http://sponsor")) []
  = (Ok {| txId := "0x7a"; origin := "0xd001"; s_gas := 21000; s_gasPriceCoef := 0;
           s_expiration := 720; s_blockRef := "0x00"; success := true;
           message := "Transaction submitted successfully" |},
     [GetBestBlock;
      SigningHash (build_body 74 sample_entropy [sample_clause] 21000 0 720
                     (Some (sample_credentials true "http://sponsor")) (sample_block 5));
      Sign (build_body 74 sample_entropy [sample_clause] 21000 0 720
              (Some (sample_credentials true "http://sponsor")) (sample_block 5));
      Delegate "http://sponsor" "0xdd" "0xd001";
      Submit "0xee010201abcd"]).
Proof. reflexivity. Qed.

(** Sending one VET without a gas limit on the sample node, whose
    estimate is 21000: [sendVet] never asks for the estimate and signs
    a body with 21000; the same transfer through [multiClause] is
    estimated and signed with 25200. *)
Lemma unsupplied_gas_limit_is_estimated_only_by_multiClause_witness :
  sample_Wallet "01" = Ok "0xd001"
  /\ UnitConverter.vetToWei (fun _ => NaN) (VString "1")
     = Ok "1000000000000000000"
  /\ estimations
       (snd (sendVet sample_Wallet sample_signingHash sample_sign sample_encode
               (fun _ => NaN) 74 (sample_network (Throw TypeError))
               sample_entropy (sample_credentials false EmptyString)
               zero_address "1" 0 0 720 false []))
     = []
  /\ map gas
       (hashed (snd (sendVet sample_Wallet sample_signingHash sample_sign
                       sample_encode (fun _ => NaN) 74
                       (sample_network (Throw TypeError))
                       sample_entropy (sample_credentials false EmptyString)
                       zero_address "1" 0 0 720 false [])))
     = [21000]
  /\ estimations
       (snd (multiClause sample_Wallet sample_signingHash sample_sign
               sample_encode 74 (sample_network (Throw TypeError))
               sample_entropy (sample_credentials false EmptyString)
               [{| to := Some zero_address; value := "1000000000000000000";
                   data := "0x" |}] 0 0 720 false []))
     = [[{| to := Some zero_address; value := "1000000000000000000";
                   data := "0x" |}]]
  /\ map gas
       (hashed (snd (multiClause sample_Wallet sample_signingHash sample_sign
                       sample_encode 74 (sample_network (Throw TypeError))
                       sample_entropy (sample_credentials false EmptyString)
                       [{| to := Some zero_address; value := "1000000000000000000";
                   data := "0x" |}] 0 0 720 false [])))
     = [25200].
Proof.
  split; [ reflexivity | ]. split; [ reflexivity | ].
  destruct (unsupplied_gas_limit_is_estimated_only_by_multiClause
              sample_Wallet sample_signingHash sample_sign sample_encode
              sample_encodeTransfer (fun _ => NaN) 74
              (sample_network (Throw TypeError)) sample_entropy 0 720
              (sample_credentials false EmptyString) false zero_address "1"
              "1000000000000000000" "0xd001" (sample_block 5)
              eq_refl eq_refl eq_refl)
    as ((Hquiet & Hfixed & Hgas) & _ & Hestimated).
  destruct (Hestimated _ eq_refl) as (Hasked & Hbuffered & Hgas').
  split; [ exact Hquiet | ].
  split; [ rewrite Hfixed; cbn [map]; rewrite Hgas; reflexivity | ].
  split; [ exact Hasked | ].
  rewrite Hbuffered. reflexivity.
Defined.

End PipelineFacts.

(** ** The nonce of the per-resource operations *)
Module NonceFacts.
Import JS Observe Samples.

(** C8 fails in [vet.operations.ts]: at a draw of 0.5, the local
    [generateNonce] returns eight hex digits, four bytes, where
    [ThorClient.generateNonce] returns the sixteen hex digits of its
    eight random bytes. *)
Theorem math_random_nonce_is_four_bytes :
  VetOperations.generateNonce (Finite 1 (-1)) = "0x7fffffff"
  /\ String.length (VetOperations.generateNonce (Finite 1 (-1))) = 10%nat
  /\ TransactionOps.generateNonce sample_entropy = "0x00010203040506ff"
  /\ String.length (TransactionOps.generateNonce sample_entropy) = 18%nat.
Proof. repeat split. Qed.

End NonceFacts.

(** ** More on strings of digits *)
Module DigitFacts.
Import JS Observe JSFacts.

Lemma append_nil_r s : (s ++ "")%string = s.
Proof. induction s; simpl; congruence. Qed.

Lemma append_assoc s1 s2 s3 :
  ((s1 ++ s2) ++ s3)%string = (s1 ++ (s2 ++ s3))%string.
Proof. induction s1; simpl; congruence. Qed.

Lemma length_append s1 s2 :
  String.length (s1 ++ s2) = (String.length s1 + String.length s2)%nat.
Proof. induction s1; simpl; congruence. Qed.

Lemma length_repeat_char c n : String.length (repeat_char c n) = n.
Proof. induction n; simpl; congruence. Qed.

Lemma repeat_char_add c a b :
  repeat_char c (a + b) = (repeat_char c a ++ repeat_char c b)%string.
Proof. induction a as [| a IH]; cbn; congruence. Qed.

Lemma all_chars_append p s1 s2 :
  all_chars p (s1 ++ s2) = all_chars p s1 && all_chars p s2.
Proof.
  induction s1 as [| c s1 IH]; simpl; [ reflexivity | ].
  rewrite IH, andb_assoc. reflexivity.
Qed.

Lemma all_chars_repeat p c n : p c = true -> all_chars p (repeat_char c n) = true.
Proof. intros H. induction n; simpl; [ reflexivity | rewrite H; assumption ]. Qed.

Lemma includes_append c s1 s2 :
  includes c (s1 ++ s2) = includes c s1 || includes c s2.
Proof.
  induction s1 as [| a s1 IH]; simpl; [ reflexivity | ].
  rewrite IH, orb_assoc. reflexivity.
Qed.

(** *** The value of a string of decimal digits *)

Lemma digit_in_10 c :
  is_digit c = true -> exists d, digit_in 10 c = Some d /\ 0 <= d < 10.
Proof.
  intros H. apply is_digit_cases in H. cbn [In] in H.
  repeat (destruct H as [<- | H];
          [ eexists; split; [ reflexivity | cbv; split; congruence ] | ]).
  contradiction.
Qed.

Lemma parse_digits_append radix s1 s2 : forall acc,
  parse_digits radix (s1 ++ s2) acc
  = match parse_digits radix s1 acc with
    | Some a => parse_digits radix s2 a
    | None => None
    end.
Proof.
  induction s1 as [| c s1 IH]; intros acc; simpl; [ reflexivity | ].
  destruct (digit_in radix c); [ apply IH | reflexivity ].
Qed.

(** A string of digits always parses; its value is below the power of
    ten of its length, and an accumulator is shifted by that power. *)
Lemma parse_digits_value s :
  all_chars is_digit s = true ->
  exists v,
    0 <= v < 10 ^ Z.of_nat (String.length s)
    /\ forall acc, parse_digits 10 s acc
                   = Some (acc * 10 ^ Z.of_nat (String.length s) + v).
Proof.
  induction s as [| c s IH]; intros H.
  - exists 0. split; [ simpl; lia | intros acc; simpl; f_equal; lia ].
  - simpl in H. apply andb_true_iff in H. destruct H as [Hc Hs].
    destruct (IH Hs) as (v & Hv & Hparse).
    destruct (digit_in_10 c Hc) as (d & Hd & Hrange).
    cbn [String.length]. rewrite Nat2Z.inj_succ, Z.pow_succ_r by lia.
    exists (d * 10 ^ Z.of_nat (String.length s) + v). split.
    + nia.
    + intros acc. cbn [parse_digits]. rewrite Hd, Hparse. f_equal. ring.
Qed.

Lemma parse_zeros n : forall acc,
  parse_digits 10 (repeat_char "0" n) acc = Some (acc * 10 ^ Z.of_nat n).
Proof.
  induction n as [| n IH]; intros acc.
  - simpl. f_equal. lia.
  - cbn [repeat_char parse_digits]. change (digit_in 10 "0") with (Some 0).
    cbv beta iota. rewrite IH, Nat2Z.inj_succ, Z.pow_succ_r by lia. f_equal. ring.
Qed.

(** *** Padding and stripping *)

Lemma padStart_short n c s :
  (String.length s <= n)%nat ->
  padStart n c s = (repeat_char c (n - String.length s) ++ s)%string
  /\ String.length (padStart n c s) = n.
Proof.
  intros H. unfold padStart. split; [ reflexivity | ].
  rewrite length_append, length_repeat_char. lia.
Qed.

(** Stripping the trailing zeros splits a string into what is kept and
    a run of zeros; what is kept does not end in a zero. *)
Lemma strip_trailing_zeros_split s :
  exists k, s = (strip_trailing_zeros s ++ repeat_char "0" k)%string.
Proof.
  induction s as [| c s (k & IH)].
  - exists O. reflexivity.
  - simpl. destruct (strip_trailing_zeros s) as [| d t] eqn:Hs.
    + destruct (Ascii.eqb_spec c "0") as [-> | Hc].
      * exists (S k). simpl in *. congruence.
      * exists k. simpl in *. congruence.
    + exists k. simpl in *. congruence.
Qed.

Lemma strip_trailing_zeros_digits s :
  all_chars is_digit s = true -> all_chars is_digit (strip_trailing_zeros s) = true.
Proof.
  intros H. destruct (strip_trailing_zeros_split s) as (k & Hk).
  rewrite Hk, all_chars_append in H. apply andb_true_iff in H. tauto.
Qed.

Lemma strip_trailing_zeros_length s :
  (String.length (strip_trailing_zeros s) <= String.length s)%nat.
Proof.
  destruct (strip_trailing_zeros_split s) as (k & Hk).
  rewrite Hk at 2. rewrite length_append. lia.
Qed.

(** *** Length of a printed number *)

Lemma to_digits_length radix fuel : forall n acc j,
  1 < radix ->
  0 <= n < radix ^ Z.of_nat (S j) ->
  (String.length (to_digits fuel radix n acc) <= S j + String.length acc)%nat.
Proof.
  induction fuel as [| fuel IH]; intros n acc j Hradix Hn.
  - cbn [to_digits]. lia.
  - cbn [to_digits]. destruct (n <? radix) eqn:Hlt.
    + cbn [String.length]. lia.
    + apply Z.ltb_ge in Hlt. destruct j as [| j].
      * change (Z.of_nat 1) with 1 in Hn. rewrite Z.pow_1_r in Hn. lia.
      * assert (Hdiv : 0 <= n / radix < radix ^ Z.of_nat (S j)).
        { rewrite (Nat2Z.inj_succ (S j)), Z.pow_succ_r in Hn by lia.
          split; [ apply Z.div_pos; lia | apply Z.div_lt_upper_bound; lia ]. }
        pose proof (IH (n / radix) (String (digit_char (n mod radix)) acc) j
                      Hradix Hdiv) as H.
        cbn [String.length] in H. lia.
Qed.

Lemma toString_radix_length radix n j :
  1 < radix ->
  0 <= n < radix ^ Z.of_nat (S j) ->
  (String.length (toString_radix radix n) <= S j)%nat.
Proof.
  intros Hradix Hn. unfold toString_radix.
  replace (n <? 0) with false by (symmetry; apply Z.ltb_ge; lia).
  unfold nat_toString.
  pose proof (to_digits_length radix (S (Z.to_nat (Z.log2 n))) n EmptyString j
                Hradix Hn) as H.
  cbn [String.length] in H. lia.
Qed.

Lemma toString_length n j :
  0 <= n < 10 ^ Z.of_nat (S j) -> (String.length (toString n) <= S j)%nat.
Proof. intros Hn. apply toString_radix_length; [ lia | assumption ]. Qed.

Lemma split_no_dot s : includes "." s = false -> split "." s = [s].
Proof.
  induction s as [| c s IH]; [ reflexivity | ].
  simpl. destruct (Ascii.eqb c "."); [ discriminate | ].
  simpl. intros H. rewrite (IH H). reflexivity.
Qed.

Lemma split_at_dot a b :
  includes "." a = false ->
  split "." (a ++ String "." b) = a :: split "." b.
Proof.
  induction a as [| c a IH]; intros H.
  - reflexivity.
  - simpl in *. destruct (Ascii.eqb c "."); [ discriminate | ].
    simpl in H. rewrite (IH H). reflexivity.
Qed.

End DigitFacts.

(** ** More on the unit converter *)
Module ConverterFacts.
Import JS Observe Numerals UnitConverter JSFacts DigitFacts UnitConverterFacts.

Section Engine.
Variable pow10_inexact : nat -> Number.

#[local] Abbreviation convertUnits := (convertUnits pow10_inexact).

(** From wei, a bigint is only divided by the target multiplier. *)
Lemma from_wei_exact x toUnit mt :
  lookup (toLowerCase toUnit) = Own mt -> mt <> 0 -> Z.rem x mt = 0 ->
  convertUnits (VBigInt x) "wei" toUnit = Ok (toString (Z.quot x mt)).
Proof.
  intros Hto Hmt Hrem. unfold UnitConverter.convertUnits.
  change (lookup (toLowerCase "wei")) with (Own 1). rewrite Hto. cbn [falsy].
  apply Z.eqb_neq in Hmt. rewrite Hmt. change (1 =? 0) with false. cbv beta iota.
  cbn [BigInt rbind times over modulo]. rewrite Z.mul_1_r.
  unfold big_div, big_rem. rewrite Hmt. cbn [rbind]. rewrite Hrem. reflexivity.
Qed.

(** A value without a decimal point goes through wei. *)
Lemma whole_through_wei s z fromUnit toUnit mf :
  includes "." s = false ->
  StringToBigInt s = Some z ->
  lookup (toLowerCase fromUnit) = Own mf -> mf <> 0 ->
  falsy (lookup (toLowerCase toUnit)) = false ->
  convertUnits (VString s) fromUnit toUnit
  = convertUnits (VBigInt (z * mf)) "wei" toUnit.
Proof.
  intros Hdot Hparse Hfrom Hmf Hto. unfold UnitConverter.convertUnits.
  change (lookup (toLowerCase "wei")) with (Own 1). rewrite Hfrom, Hto. cbn [falsy].
  apply Z.eqb_neq in Hmf. rewrite Hmf, Hdot. change (1 =? 0) with false.
  cbv beta iota. cbn [BigInt]. rewrite Hparse. cbn [rbind times].
  rewrite Z.mul_1_r. reflexivity.
Qed.

(** A value [W.F] is read as the integer [WF], scaled by the source
    multiplier and divided, towards zero, by [10^|F|]; from there it is
    converted like a bigint of wei. *)
Lemma decimal_through_wei W F fromUnit toUnit mf :
  all_chars is_digit W = true ->
  all_chars is_digit F = true ->
  (W ++ F)%string <> EmptyString ->
  (String.length F <= 22)%nat ->
  lookup (toLowerCase fromUnit) = Own mf -> mf <> 0 ->
  falsy (lookup (toLowerCase toUnit)) = false ->
  convertUnits (VString (W ++ String "." F)) fromUnit toUnit
  = convertUnits
      (VBigInt (Z.quot (decimal_value (W ++ F) * mf)
                       (10 ^ Z.of_nat (String.length F))))
      "wei" toUnit.
Proof.
  intros HW HF Hne Hlen Hfrom Hmf Hto.
  assert (HWdot : includes "." W = false) by (apply includes_digits; assumption).
  assert (HFdot : includes "." F = false) by (apply includes_digits; assumption).
  assert (Hdigits : all_chars is_digit (W ++ F) = true).
  { rewrite all_chars_append, HW, HF. reflexivity. }
  destruct (parse_digits_value _ Hdigits) as (v & _ & Hv).
  assert (Hvalue : decimal_value (W ++ F) = v).
  { unfold decimal_value. rewrite Hv. lia. }
  unfold UnitConverter.convertUnits.
  change (lookup (toLowerCase "wei")) with (Own 1). rewrite Hfrom, Hto. cbn [falsy].
  apply Z.eqb_neq in Hmf. rewrite Hmf. change (1 =? 0) with false. cbv beta iota.
  assert (Hincl : includes "." (W ++ String "." F) = true).
  { rewrite includes_append. simpl. apply orb_true_r. }
  rewrite Hincl, (split_at_dot W F HWdot), (split_no_dot F HFdot).
  cbn [nth]. cbn [BigInt].
  rewrite (StringToBigInt_digits _ Hdigits Hne), Hv. cbn [rbind times].
  unfold pow10. apply Nat.leb_le in Hlen. rewrite Hlen.
  unfold of_int. cbn [NumberToBigInt Z.leb rbind].
  change (0 <=? 0) with true. cbv beta iota. cbn [rbind].
  unfold big_div at 1.
  assert (Hpow : 10 ^ Z.of_nat (String.length F) * 2 ^ 0 <> 0).
  { change (2 ^ 0) with 1. rewrite Z.mul_1_r. apply Z.pow_nonzero; lia. }
  apply Z.eqb_neq in Hpow. rewrite Hpow. cbn [rbind].
  change (2 ^ 0) with 1. rewrite !Z.mul_1_r, Z.add_0_l, Hvalue. reflexivity.
Qed.

(** Every unit of the table is a positive divisor of [10^18]. *)
Lemma multiplier_divides key m :
  lookup key = Own m -> 0 < m /\ exists c, 0 < c /\ 10 ^ 18 = c * m.
Proof.
  unfold lookup, UNIT_MULTIPLIERS. cbn [assoc].
  repeat match goal with
  | |- context [String.eqb ?k key] => destruct (String.eqb k key)
  end;
  try (intros [= <-]; split; [ lia | ];
       match goal with
       | |- exists c, _ /\ _ = c * ?m =>
           exists (10 ^ 18 / m); split; [ reflexivity | reflexivity ]
       end).
  destruct (existsb _ _); discriminate.
Qed.

(** What a non-negative amount of wei looks like in a unit of the
    table: the quotient and, when the division leaves a remainder, the
    remainder on 18 places without its trailing zeros. *)
Lemma from_wei_format w toUnit m :
  0 <= w ->
  lookup (toLowerCase toUnit) = Own m ->
  convertUnits (VString (toString w)) "wei" toUnit
  = Ok (if Z.rem w m =? 0 then toString (Z.quot w m)
        else (toString (Z.quot w m) ++ "."
              ++ strip_trailing_zeros
                   (padStart 18 "0" (toString (Z.quot (Z.rem w m * 10 ^ 18) m))))%string).
Proof.
  intros Hw Hto. destruct (multiplier_divides _ _ Hto) as (Hm & c & Hc & Hcm).
  unfold UnitConverter.convertUnits.
  change (lookup (toLowerCase "wei")) with (Own 1). rewrite Hto. cbn [falsy].
  replace (m =? 0) with false by (symmetry; apply Z.eqb_neq; lia).
  change (1 =? 0) with false. cbv beta iota.
  rewrite (includes_toString w Hw). cbn [BigInt].
  rewrite (StringToBigInt_toString w Hw). cbn [rbind times over modulo].
  rewrite Z.mul_1_r. unfold big_div, big_rem.
  replace (m =? 0) with false by (symmetry; apply Z.eqb_neq; lia).
  cbn [rbind]. destruct (Z.rem w m =? 0) eqn:Hrem; [ reflexivity | ].
  cbn [rbind Z.of_nat]. change (Z.pos (Pos.of_succ_nat 17)) with 18.
  set (part := Z.quot (Z.rem w m * 10 ^ 18) m).
  destruct (String.eqb _ EmptyString) eqn:Hempty; [ | reflexivity ].
  exfalso. apply String.eqb_eq in Hempty. apply Z.eqb_neq in Hrem.
  pose proof (Z.rem_bound_pos w m Hw Hm) as Hr.
  assert (Hpart : part = Z.rem w m * c).
  { unfold part. rewrite Hcm, Z.mul_assoc, Z.quot_mul by lia. reflexivity. }
  assert (Hbound : 0 <= part < 10 ^ Z.of_nat 18).
  { change (10 ^ Z.of_nat 18) with (10 ^ 18). rewrite Hpart, Hcm. nia. }
  destruct (toString_digits part (proj1 Hbound)) as [Hd _].
  pose proof (toString_length part 17 Hbound) as Hlen.
  destruct (padStart_short 18 "0" (toString part) Hlen) as [Hpad _].
  destruct (strip_trailing_zeros_split (padStart 18 "0" (toString part))) as (k & Hk).
  rewrite Hempty in Hk. cbn [append] in Hk.
  assert (Hv : parse_digits 10 (padStart 18 "0" (toString part)) 0 = Some part).
  { rewrite Hpad, parse_digits_append, parse_zeros.
    pose proof (StringToBigInt_toString part (proj1 Hbound)) as Hp.
    destruct (toString_digits part (proj1 Hbound)) as [Hd' Hne].
    rewrite (StringToBigInt_digits _ Hd' Hne) in Hp. exact Hp. }
  rewrite Hk, parse_zeros in Hv. injection Hv as Hv. nia.
Qed.

(** X1. Wei to a unit and back gives the wei back. *)
Theorem wei_unit_wei_roundtrip w unit m :
  0 <= w ->
  lookup (toLowerCase unit) = Own m ->
  exists s,
    convertUnits (VString (toString w)) "wei" unit = Ok s
    /\ convertUnits (VString s) unit "wei" = Ok (toString w).
Proof.
  intros Hw Hunit. destruct (multiplier_divides _ _ Hunit) as (Hm & c & Hc & Hcm).
  rewrite (from_wei_format w unit m Hw Hunit).
  pose proof (Z.quot_rem' w m) as Hqr.
  pose proof (Z.rem_bound_pos w m Hw Hm) as Hr.
  assert (Hq : 0 <= Z.quot w m) by (apply Z.quot_pos; lia).
  destruct (Z.rem w m =? 0) eqn:Hrem; eexists; split; try reflexivity.
  - apply Z.eqb_eq in Hrem.
    rewrite (convertUnits_whole pow10_inexact (toString (Z.quot w m)) (Z.quot w m)
               unit "wei" m 1).
    + rewrite Z.quot_1_r. f_equal. f_equal. lia.
    + apply includes_toString; assumption.
    + apply StringToBigInt_toString; assumption.
    + assumption.
    + reflexivity.
    + lia.
    + lia.
    + apply Z.rem_1_r.
  - apply Z.eqb_neq in Hrem.
    set (part := Z.quot (Z.rem w m * 10 ^ 18) m).
    assert (Hpart : part = Z.rem w m * c).
    { unfold part. rewrite Hcm, Z.mul_assoc, Z.quot_mul by lia. reflexivity. }
    assert (Hbound : 0 <= part < 10 ^ Z.of_nat 18).
    { change (10 ^ Z.of_nat 18) with (10 ^ 18). rewrite Hpart, Hcm. nia. }
    destruct (toString_digits part (proj1 Hbound)) as [Hd Hne].
    pose proof (toString_length part 17 Hbound) as Hlen.
    destruct (padStart_short 18 "0" (toString part) Hlen) as [Hpad Hpadlen].
    set (padded := padStart 18 "0" (toString part)) in *.
    assert (Hpd : all_chars is_digit padded = true).
    { rewrite Hpad, all_chars_append, Hd, all_chars_repeat; reflexivity. }
    assert (Hv : parse_digits 10 padded 0 = Some part).
    { rewrite Hpad, parse_digits_append, parse_zeros.
      pose proof (StringToBigInt_toString part (proj1 Hbound)) as Hp.
      rewrite (StringToBigInt_digits _ Hd Hne) in Hp. exact Hp. }
    destruct (strip_trailing_zeros_split padded) as (k & Hk).
    pose proof (strip_trailing_zeros_digits padded Hpd) as HF.
    set (F := strip_trailing_zeros padded) in *.
    destruct (toString_digits (Z.quot w m) Hq) as [HW HWne].
    assert (Hlen18 : (String.length F + k = 18)%nat).
    { rewrite <- Hpadlen, Hk, length_append, length_repeat_char. reflexivity. }
    change (toString (Z.quot w m) ++ "." ++ F)%string
      with (toString (Z.quot w m) ++ String "." F)%string.
    rewrite (decimal_through_wei (toString (Z.quot w m)) F unit "wei" m);
      try assumption; try lia; try reflexivity.
    2:{ destruct (toString (Z.quot w m)); [ congruence | discriminate ]. }
    destruct (parse_digits_value F HF) as (vF & HvF & HparseF).
    assert (Hcombined : decimal_value (toString (Z.quot w m) ++ F)
                        = Z.quot w m * 10 ^ Z.of_nat (String.length F) + vF).
    { unfold decimal_value. rewrite parse_digits_append.
      pose proof (StringToBigInt_toString _ Hq) as Hp.
      rewrite (StringToBigInt_digits _ HW HWne) in Hp. rewrite Hp, HparseF.
      reflexivity. }
    rewrite Hcombined.
    rewrite Hk, parse_digits_append, HparseF, parse_zeros in Hv.
    injection Hv as Hv.
    assert (Hpow : 10 ^ 18 = 10 ^ Z.of_nat (String.length F) * 10 ^ Z.of_nat k).
    { rewrite <- Z.pow_add_r by lia. f_equal. lia. }
    assert (HpF : 0 < 10 ^ Z.of_nat (String.length F)) by (apply Z.pow_pos_nonneg; lia).
    assert (Hpk : 0 < 10 ^ Z.of_nat k) by (apply Z.pow_pos_nonneg; lia).
    assert (Hkey : vF * m = Z.rem w m * 10 ^ Z.of_nat (String.length F)).
    { apply (Z.mul_cancel_r _ _ (10 ^ Z.of_nat k)); [ lia | ].
      transitivity (Z.rem w m * (c * m)); [ rewrite <- Hcm | ]; nia. }
    replace ((Z.quot w m * 10 ^ Z.of_nat (String.length F) + vF) * m)
      with (w * 10 ^ Z.of_nat (String.length F)) by nia.
    rewrite Z.quot_mul by lia.
    rewrite (from_wei_exact w "wei" 1);
      [ rewrite Z.quot_1_r; reflexivity | reflexivity | lia | apply Z.rem_1_r ].
Qed.

(** A minus sign survives padding and the removal of trailing zeros. *)
Lemma includes_strip c s :
  Ascii.eqb c "0" = false ->
  includes c (strip_trailing_zeros s) = includes c s.
Proof.
  intros Hc. destruct (strip_trailing_zeros_split s) as (k & Hk).
  rewrite Hk at 2. rewrite includes_append. clear Hk.
  assert (Hz : includes c (repeat_char "0" k) = false).
  { induction k as [| k IH]; [ reflexivity | ].
    cbn [includes repeat_char]. rewrite IH, Ascii.eqb_sym, Hc. reflexivity. }
  rewrite Hz, orb_false_r. reflexivity.
Qed.

Lemma includes_padStart c n f s :
  includes c s = true -> includes c (padStart n f s) = true.
Proof.
  intros H. unfold padStart. rewrite includes_append, H. apply orb_true_r.
Qed.

(** X3. Below zero, an amount that is not a whole number of the unit is
    written with the sign of its fraction after the decimal point. *)
Theorem negative_fraction_keeps_its_sign w unit m :
  w < 0 ->
  lookup (toLowerCase unit) = Own m ->
  Z.rem w m <> 0 ->
  exists fraction,
    convertUnits (VBigInt w) "wei" unit
    = Ok (toString (Z.quot w m) ++ "." ++ fraction)%string
    /\ includes "-" fraction = true.
Proof.
  intros Hw Hunit Hrem.
  destruct (multiplier_divides _ _ Hunit) as (Hm & c & Hc & Hcm).
  unfold UnitConverter.convertUnits.
  change (lookup (toLowerCase "wei")) with (Own 1). rewrite Hunit. cbn [falsy].
  replace (m =? 0) with false by (symmetry; apply Z.eqb_neq; lia).
  change (1 =? 0) with false. cbv beta iota.
  cbn [BigInt rbind times over modulo]. rewrite Z.mul_1_r.
  unfold big_div, big_rem.
  replace (m =? 0) with false by (symmetry; apply Z.eqb_neq; lia).
  cbn [rbind]. apply Z.eqb_neq in Hrem. rewrite Hrem. apply Z.eqb_neq in Hrem.
  cbn [rbind Z.of_nat]. change (Z.pos (Pos.of_succ_nat 17)) with 18.
  set (part := Z.quot (Z.rem w m * 10 ^ 18) m).
  assert (Hpart : part = Z.rem w m * c).
  { unfold part. rewrite Hcm, Z.mul_assoc, Z.quot_mul by lia. reflexivity. }
  assert (Hneg : part < 0).
  { pose proof (Z.rem_bound_neg_neg w (- m)) as Hb.
    rewrite Z.rem_opp_r in Hb by lia. nia. }
  assert (Hsign : includes "-"
            (strip_trailing_zeros (padStart 18 "0" (toString part))) = true).
  { rewrite includes_strip by reflexivity. apply includes_padStart.
    unfold toString, toString_radix.
    replace (part <? 0) with true by (symmetry; apply Z.ltb_lt; lia).
    reflexivity. }
  destruct (String.eqb _ EmptyString) eqn:Hempty.
  - apply String.eqb_eq in Hempty. rewrite Hempty in Hsign. discriminate.
  - eexists. split; [ reflexivity | exact Hsign ].
Qed.

(** X2. A decimal amount is cut off below one wei, never rounded. *)
Theorem decimal_amount_is_truncated W F unit m :
  all_chars is_digit W = true ->
  all_chars is_digit F = true ->
  (W ++ F)%string <> EmptyString ->
  (String.length F <= 22)%nat ->
  lookup (toLowerCase unit) = Own m ->
  convertUnits (VString (W ++ "." ++ F)) unit "wei"
  = Ok (toString (decimal_value (W ++ F) * m / 10 ^ Z.of_nat (String.length F))).
Proof.
  intros HW HF Hne Hlen Hunit.
  destruct (multiplier_divides _ _ Hunit) as (Hm & _).
  change (W ++ "." ++ F)%string with (W ++ String "." F)%string.
  rewrite (decimal_through_wei W F unit "wei" m);
    try assumption; try lia; try reflexivity.
  assert (Hdigits : all_chars is_digit (W ++ F) = true).
  { rewrite all_chars_append, HW, HF. reflexivity. }
  destruct (parse_digits_value _ Hdigits) as (v & Hv & Hparse).
  assert (Hvalue : decimal_value (W ++ F) = v).
  { unfold decimal_value. rewrite Hparse. lia. }
  rewrite Hvalue.
  rewrite Z.quot_div_nonneg by (try apply Z.pow_pos_nonneg; nia).
  rewrite (from_wei_exact _ "wei" 1);
    [ rewrite Z.quot_1_r; reflexivity | reflexivity | lia | apply Z.rem_1_r ].
Qed.

End Engine.

(** One wei above one and a half VET, to VET and back. *)
Lemma wei_unit_wei_roundtrip_witness :
  0 <= 1500000000000000001
  /\ lookup (toLowerCase "VET") = Own (10 ^ 18)
  /\ exists s,
       convertUnits (fun _ => NaN) (VString (toString 1500000000000000001)) "wei" "VET"
       = Ok s
       /\ convertUnits (fun _ => NaN) (VString s) "VET" "wei"
          = Ok (toString 1500000000000000001).
Proof.
  split; [ lia | ]. split; [ reflexivity | ].
  apply (wei_unit_wei_roundtrip (fun _ => NaN) 1500000000000000001 "VET" (10 ^ 18));
    [ lia | reflexivity ].
Defined.

(** Minus one and a half VET is written [-1.-5]. *)
Lemma negative_fraction_keeps_its_sign_witness :
  -1500000000000000000 < 0
  /\ lookup (toLowerCase "vet") = Own (10 ^ 18)
  /\ Z.rem (-1500000000000000000) (10 ^ 18) <> 0
  /\ exists fraction,
       convertUnits (fun _ => NaN) (VBigInt (-1500000000000000000)) "wei" "vet"
       = Ok (toString (Z.quot (-1500000000000000000) (10 ^ 18)) ++ "." ++ fraction)%string
       /\ includes "-" fraction = true.
Proof.
  split; [ lia | ]. split; [ reflexivity | ].
  split; [ vm_compute; discriminate | ].
  apply (negative_fraction_keeps_its_sign (fun _ => NaN) (-1500000000000000000)
           "vet" (10 ^ 18)); [ lia | reflexivity | vm_compute; discriminate ].
Defined.

(** Nineteen decimals of a VET: what is below one wei is dropped. *)
Lemma decimal_amount_is_truncated_witness :
  all_chars is_digit "0" = true
  /\ all_chars is_digit "0000000000000000019" = true
  /\ (String.length "0000000000000000019" <= 22)%nat
  /\ convertUnits (fun _ => NaN) (VString "0.0000000000000000019") "vet" "wei"
     = Ok "1".
Proof.
  split; [ reflexivity | ]. split; [ reflexivity | ]. split; [ vm_compute; lia | ].
  exact (decimal_amount_is_truncated (fun _ => NaN) "0" "0000000000000000019"
           "vet" (10 ^ 18) eq_refl eq_refl ltac:(discriminate)
           ltac:(vm_compute; lia) eq_refl).
Defined.
End ConverterFacts.

(** ** Token amounts *)
Module TokenAmountFacts.
Import JS Observe Numerals UnitConverter TokenAmount.
Import JSFacts DigitFacts UnitConverterFacts ConverterFacts.

Lemma padEnd_short n c s :
  (String.length s <= n)%nat ->
  String.length (padEnd n c s) = n.
Proof.
  intros H. unfold padEnd. rewrite length_append, length_repeat_char. lia.
Qed.

Lemma slice_to_all n s : (String.length s <= n)%nat -> slice_to n s = s.
Proof.
  revert n. induction s as [| c s IH]; intros [| n] H; simpl in *;
    try reflexivity; try lia.
  rewrite IH by lia. reflexivity.
Qed.

Lemma slice_to_append a b : slice_to (String.length a) (a ++ b) = a.
Proof. induction a as [| c a IH]; simpl; [ destruct b | ]; congruence. Qed.

(** A string is its first [n] characters followed by the others. *)
Lemma slice_to_from n s : s = (slice_to n s ++ slice_from n s)%string.
Proof.
  revert n. induction s as [| c s IH]; intros [| n]; simpl; try reflexivity.
  rewrite <- IH. reflexivity.
Qed.

Lemma slice_to_length n s :
  (n <= String.length s)%nat -> String.length (slice_to n s) = n.
Proof.
  revert n. induction s as [| c s IH]; intros [| n] H; simpl in *;
    try reflexivity; try lia.
  rewrite IH by lia. reflexivity.
Qed.

Lemma decimal_value_digits s v :
  all_chars is_digit s = true ->
  parse_digits 10 s 0 = Some v -> decimal_value s = v.
Proof. intros _ H. unfold decimal_value. rewrite H. reflexivity. Qed.

Lemma decimal_value_append a b :
  all_chars is_digit a = true -> all_chars is_digit b = true ->
  decimal_value (a ++ b)
  = decimal_value a * 10 ^ Z.of_nat (String.length b) + decimal_value b
  /\ 0 <= decimal_value b < 10 ^ Z.of_nat (String.length b)
  /\ 0 <= decimal_value a.
Proof.
  intros Ha Hb.
  destruct (parse_digits_value a Ha) as (va & Hva & Hpa).
  destruct (parse_digits_value b Hb) as (vb & Hvb & Hpb).
  unfold decimal_value. rewrite parse_digits_append, !Hpa, !Hpb.
  repeat split; try lia.
Qed.

Lemma decimal_value_zeros k : decimal_value (repeat_char "0" k) = 0.
Proof. unfold decimal_value. rewrite parse_zeros. reflexivity. Qed.

(** [BigInt] of a string of digits, the empty one included. *)
Lemma BigInt_digits s :
  all_chars is_digit s = true ->
  BigInt (VString s) = Ok (decimal_value s).
Proof.
  intros H. destruct s as [| c s].
  - reflexivity.
  - cbn [BigInt]. rewrite (StringToBigInt_digits _ H) by discriminate.
    destruct (parse_digits_value _ H) as (v & _ & Hv).
    unfold decimal_value. rewrite Hv. reflexivity.
Qed.

Section Engine.
Variable pow10_inexact : nat -> Number.

#[local] Abbreviation formatTokenAmount := (formatTokenAmount pow10_inexact).
#[local] Abbreviation parseTokenAmount := (parseTokenAmount pow10_inexact).
#[local] Abbreviation convertUnits := (convertUnits pow10_inexact).

Lemma BigInt_pow10 d :
  (d <= 22)%nat ->
  BigInt (VNumber (pow10 pow10_inexact d)) = Ok (10 ^ Z.of_nat d).
Proof.
  intros H. unfold pow10. apply Nat.leb_le in H. rewrite H.
  unfold of_int. cbn [BigInt NumberToBigInt].
  change (0 <=? 0) with true. cbv beta iota.
  change (2 ^ 0) with 1. rewrite Z.mul_1_r. reflexivity.
Qed.

(** What [parseTokenAmount] makes of [W.F]: the digits of [F] beyond
    [decimals] are dropped. *)
Lemma parseTokenAmount_decimal W F d :
  all_chars is_digit W = true ->
  all_chars is_digit F = true ->
  parseTokenAmount (W ++ String "." F) d
  = Ok (toString (decimal_value (W ++ F) * 10 ^ Z.of_nat d
                  / 10 ^ Z.of_nat (String.length F))).
Proof.
  intros HW HF.
  assert (HWdot : includes "." W = false) by (apply includes_digits; assumption).
  assert (HFdot : includes "." F = false) by (apply includes_digits; assumption).
  unfold TokenAmount.parseTokenAmount.
  assert (Hincl : includes "." (W ++ String "." F) = true).
  { rewrite includes_append. simpl. apply orb_true_r. }
  rewrite Hincl, (split_at_dot W F HWdot), (split_no_dot F HFdot).
  cbn [negb nth].
  set (padded := slice_to d (padEnd d "0" F)).
  assert (Hshape :
    exists F1 F2 k,
      F = (F1 ++ F2)%string /\ padded = (F1 ++ repeat_char "0" k)%string
      /\ (String.length F1 + k = d)%nat /\ (F2 = EmptyString \/ k = O)).
  { destruct (Nat.le_gt_cases (String.length F) d) as [Hle | Hgt].
    - exists F, EmptyString, (d - String.length F)%nat.
      rewrite append_nil_r. repeat split; try lia; [ | left; reflexivity ].
      unfold padded, padEnd. apply slice_to_all.
      rewrite length_append, length_repeat_char. lia.
    - exists (slice_to d F), (slice_from d F), O.
      rewrite append_nil_r. repeat split.
      + apply slice_to_from.
      + unfold padded, padEnd.
        replace (d - String.length F)%nat with O by lia.
        cbn [repeat_char]. rewrite append_nil_r. reflexivity.
      + rewrite slice_to_length by lia. lia.
      + right. reflexivity. }
  destruct Hshape as (F1 & F2 & k & HFeq & Hpadded & Hlen & Hcase).
  rewrite Hpadded. subst F.
  rewrite all_chars_append in HF. apply andb_true_iff in HF. destruct HF as [HF1 HF2].
  assert (Hz : all_chars is_digit (repeat_char "0" k) = true)
    by (apply all_chars_repeat; reflexivity).
  rewrite BigInt_digits by (rewrite !all_chars_append, HW, HF1, Hz; reflexivity).
  cbn [rbind]. f_equal. f_equal.
  rewrite <- !append_assoc.
  assert (HWF1 : all_chars is_digit (W ++ F1) = true)
    by (rewrite all_chars_append, HW, HF1; reflexivity).
  destruct (decimal_value_append (W ++ F1) (repeat_char "0" k) HWF1 Hz) as (-> & _ & Hnn).
  destruct (decimal_value_append (W ++ F1) F2 HWF1 HF2) as (-> & Hb2 & _).
  rewrite decimal_value_zeros, length_repeat_char, length_append, Z.add_0_r.
  set (v := decimal_value (W ++ F1)) in *. set (v2 := decimal_value F2) in *.
  assert (Hd : Z.of_nat d = Z.of_nat (String.length F1) + Z.of_nat k) by lia.
  rewrite Hd, Nat2Z.inj_add, !Z.pow_add_r by lia.
  set (p1 := 10 ^ Z.of_nat (String.length F1)).
  set (pk := 10 ^ Z.of_nat k). set (p2 := 10 ^ Z.of_nat (String.length F2)) in *.
  assert (Hp1 : 0 < p1) by (apply Z.pow_pos_nonneg; lia).
  assert (Hpk : 0 < pk) by (apply Z.pow_pos_nonneg; lia).
  assert (Hp2 : 0 < p2) by (apply Z.pow_pos_nonneg; lia).
  destruct Hcase as [-> | ->].
  - subst p2 v2. cbn [String.length Z.of_nat]. change (10 ^ 0) with 1.
    rewrite Z.mul_1_r. change (decimal_value "") with 0. rewrite Z.mul_1_r, Z.add_0_r.
    replace (v * (p1 * pk)) with (v * pk * p1) by ring.
    rewrite Z.div_mul by lia. reflexivity.
  - subst pk. change (10 ^ Z.of_nat 0) with 1. rewrite !Z.mul_1_r.
    rewrite (Z.mul_comm p1 p2), Z.div_mul_cancel_r by lia.
    apply Z.div_unique with (r := v2); lia.
Qed.

(** X4. What [formatTokenAmount] writes, [parseTokenAmount] reads back. *)
Theorem token_amount_roundtrip a d :
  0 <= a -> (d <= 22)%nat ->
  exists s,
    formatTokenAmount (VBigInt a) d = Ok s
    /\ parseTokenAmount s d = Ok (toString a).
Proof.
  intros Ha Hd. unfold TokenAmount.formatTokenAmount.
  rewrite (BigInt_pow10 d Hd). cbn [BigInt rbind].
  set (p := 10 ^ Z.of_nat d).
  assert (Hp : 0 < p) by (apply Z.pow_pos_nonneg; lia).
  unfold big_div, big_rem.
  replace (p =? 0) with false by (symmetry; apply Z.eqb_neq; lia).
  cbn [rbind].
  pose proof (Z.quot_rem' a p) as Hqr.
  pose proof (Z.rem_bound_pos a p Ha Hp) as Hr.
  assert (Hq : 0 <= Z.quot a p) by (apply Z.quot_pos; lia).
  destruct (toString_digits _ Hq) as [HW HWne].
  destruct (Z.rem a p =? 0) eqn:Hrem; eexists; split; try reflexivity.
  - apply Z.eqb_eq in Hrem. unfold TokenAmount.parseTokenAmount.
    rewrite (includes_toString _ Hq), (BigInt_pow10 d Hd). cbn [negb BigInt].
    rewrite (StringToBigInt_toString _ Hq). cbn [rbind].
    fold p. f_equal. f_equal. lia.
  - apply Z.eqb_neq in Hrem.
    destruct d as [| j].
    { exfalso. subst p. change (10 ^ Z.of_nat 0) with 1 in *. lia. }
    set (r := Z.rem a p) in *.
    assert (Hbound : 0 <= r < 10 ^ Z.of_nat (S j)) by (fold p; lia).
    destruct (toString_digits r (proj1 Hbound)) as [Hrd Hrne].
    pose proof (toString_length r j Hbound) as Hlen.
    destruct (padStart_short (S j) "0" (toString r) Hlen) as [Hpad Hpadlen].
    set (padded := padStart (S j) "0" (toString r)) in *.
    assert (Hpd : all_chars is_digit padded = true).
    { rewrite Hpad, all_chars_append, Hrd, all_chars_repeat; reflexivity. }
    assert (Hv : decimal_value padded = r).
    { unfold decimal_value. rewrite Hpad, parse_digits_append, parse_zeros.
      pose proof (StringToBigInt_toString r (proj1 Hbound)) as Hparse.
      rewrite (StringToBigInt_digits _ Hrd Hrne) in Hparse.
      cbn [Z.mul]. rewrite Hparse. reflexivity. }
    destruct (strip_trailing_zeros_split padded) as (k & Hk).
    pose proof (strip_trailing_zeros_digits padded Hpd) as HF.
    set (F := strip_trailing_zeros padded) in *.
    change (toString (Z.quot a p) ++ "." ++ F)%string
      with (toString (Z.quot a p) ++ String "." F)%string.
    rewrite (parseTokenAmount_decimal _ F (S j) HW HF). f_equal. f_equal.
    assert (Hz : all_chars is_digit (repeat_char "0" k) = true)
      by (apply all_chars_repeat; reflexivity).
    destruct (decimal_value_append (toString (Z.quot a p)) F HW HF) as (-> & HbF & _).
    assert (HvW : decimal_value (toString (Z.quot a p)) = Z.quot a p).
    { unfold decimal_value.
      pose proof (StringToBigInt_toString _ Hq) as Hparse.
      rewrite (StringToBigInt_digits _ HW HWne) in Hparse. rewrite Hparse.
      reflexivity. }
    rewrite HvW.
    destruct (decimal_value_append F (repeat_char "0" k) HF Hz) as (HFk & _ & _).
    rewrite <- Hk, Hv, decimal_value_zeros, length_repeat_char, Z.add_0_r in HFk.
    assert (Hlen18 : (String.length F + k = S j)%nat).
    { rewrite <- Hpadlen, Hk, length_append, length_repeat_char. reflexivity. }
    assert (Hpow : p = 10 ^ Z.of_nat (String.length F) * 10 ^ Z.of_nat k).
    { unfold p. rewrite <- Z.pow_add_r by lia. f_equal. lia. }
    fold p.
    set (pF := 10 ^ Z.of_nat (String.length F)) in *.
    set (pk := 10 ^ Z.of_nat k) in *.
    assert (HpF : 0 < pF) by (apply Z.pow_pos_nonneg; lia).
    assert (Hpk : 0 < pk) by (apply Z.pow_pos_nonneg; lia).
    replace ((Z.quot a p * pF + decimal_value F) * p) with (a * pF) by nia.
    apply Z.div_mul. lia.
Qed.

(** X5. On a decimal amount with at most 22 decimals, [parseTokenAmount]
    at 18 decimals and [vetToWei] agree. *)
Theorem parseTokenAmount_agrees_with_vetToWei W F :
  all_chars is_digit W = true ->
  all_chars is_digit F = true ->
  (W ++ F)%string <> EmptyString ->
  (String.length F <= 22)%nat ->
  parseTokenAmount (W ++ "." ++ F) 18
  = vetToWei pow10_inexact (VString (W ++ "." ++ F)).
Proof.
  intros HW HF Hne Hlen.
  change (W ++ "." ++ F)%string with (W ++ String "." F)%string.
  rewrite (parseTokenAmount_decimal W F 18 HW HF).
  unfold vetToWei.
  rewrite (decimal_through_wei pow10_inexact W F "vet" "wei" (10 ^ 18));
    try assumption; try lia; try reflexivity.
  assert (Hdigits : all_chars is_digit (W ++ F) = true).
  { rewrite all_chars_append, HW, HF. reflexivity. }
  destruct (parse_digits_value _ Hdigits) as (v & Hv & Hparse).
  assert (Hvalue : decimal_value (W ++ F) = v).
  { unfold decimal_value. rewrite Hparse. lia. }
  rewrite Hvalue.
  rewrite Z.quot_div_nonneg by (try apply Z.pow_pos_nonneg; nia).
  rewrite (from_wei_exact pow10_inexact _ "wei" 1);
    [ rewrite Z.quot_1_r; reflexivity | reflexivity | lia | apply Z.rem_1_r ].
Qed.

Lemma slice_to_prefix n a b :
  (n <= String.length a)%nat -> slice_to n (a ++ b) = slice_to n a.
Proof.
  revert n. induction a as [| c a IH]; intros [| n] H; cbn in *;
    try reflexivity; try lia.
  rewrite IH by lia. reflexivity.
Qed.

Lemma prefix_of_zeros a : forall n b c,
  (a ++ b)%string = (repeat_char "0" n ++ c)%string ->
  (String.length a <= n)%nat ->
  a = repeat_char "0" (String.length a).
Proof.
  induction a as [| x a IH]; intros n b c Heq Hlen; [ reflexivity | ].
  destruct n as [| n]; [ cbn in Hlen; lia | ].
  cbn [append repeat_char String.length] in *. injection Heq as -> Heq.
  rewrite <- (IH n b c Heq) by lia. reflexivity.
Qed.

(** X28. [formatVet] cuts the fraction after [precision] digits: a
    whole number of VET is shown without a fraction, and an amount that
    is not zero but below one unit of the last digit shown is shown as
    zero. *)
Theorem formatVet_hides_dust (w : Z) (precision : nat) :
  (forall n, 0 <= n ->
     formatVet pow10_inexact (VString (toString (n * 10 ^ 18))) precision
     = Ok (toString n ++ " VET")%string)
  /\ ((precision <= 18)%nat -> 0 < w < 10 ^ (18 - Z.of_nat precision) ->
      formatVet pow10_inexact (VString (toString w)) precision
      = Ok ("0." ++ repeat_char "0" precision ++ " VET")%string).
Proof.
  split.
  - intros n Hn. unfold formatVet, weiToVet.
    rewrite (from_wei_format pow10_inexact (n * 10 ^ 18) "vet" (10 ^ 18))
      by (try reflexivity; lia).
    rewrite Z.rem_mul, Z.quot_mul by lia. cbn [Z.eqb rbind].
    rewrite (includes_toString n Hn). reflexivity.
  - intros Hp Hw. unfold formatVet, weiToVet.
    assert (Hpow : 10 ^ (18 - Z.of_nat precision) <= 10 ^ 18)
      by (apply Z.pow_le_mono_r; lia).
    rewrite (from_wei_format pow10_inexact w "vet" (10 ^ 18))
      by (try reflexivity; lia).
    rewrite Z.rem_small, Z.quot_small by lia.
    replace (w =? 0) with false by (symmetry; apply Z.eqb_neq; lia).
    rewrite Z.quot_mul by lia. cbn [rbind].
    set (padded := padStart 18 "0" (toString w)).
    set (F := strip_trailing_zeros padded).
    change (toString 0) with "0".
    change ("0" ++ "." ++ F)%string with (String "0" (String "." F)).
    destruct (toString_digits w ltac:(lia)) as [Hd Hne].
    assert (Hshort : (String.length (toString w) <= 18 - precision)%nat).
    { destruct (18 - precision)%nat as [| j] eqn:Hj.
      - exfalso. replace (18 - Z.of_nat precision) with 0 in Hw by lia.
        change (10 ^ 0) with 1 in Hw. lia.
      - apply toString_length.
        replace (Z.of_nat (S j)) with (18 - Z.of_nat precision) by lia. lia. }
    destruct (padStart_short 18 "0" (toString w) ltac:(lia)) as [Hpad Hpadlen].
    fold padded in Hpad, Hpadlen.
    assert (Hpd : all_chars is_digit padded = true).
    { rewrite Hpad, all_chars_append, Hd, all_chars_repeat; reflexivity. }
    assert (Hv : decimal_value padded = w).
    { unfold decimal_value. rewrite Hpad, parse_digits_append, parse_zeros.
      pose proof (StringToBigInt_toString w ltac:(lia)) as Hparse.
      rewrite (StringToBigInt_digits _ Hd Hne) in Hparse.
      cbn [Z.mul]. rewrite Hparse. reflexivity. }
    destruct (strip_trailing_zeros_split padded) as (k & Hk). fold F in Hk.
    pose proof (strip_trailing_zeros_digits padded Hpd) as HF. fold F in HF.
    assert (Hlead : padded
                    = (repeat_char "0" precision
                       ++ (repeat_char "0" (18 - String.length (toString w) - precision)
                           ++ toString w))%string).
    { rewrite Hpad, <- append_assoc, <- repeat_char_add. do 2 f_equal. lia. }
    assert (HFlen : (precision <= String.length F)%nat).
    { apply Nat.nlt_ge. intros Hlt.
      assert (Hzeros : F = repeat_char "0" (String.length F)).
      { eapply (prefix_of_zeros F precision (repeat_char "0" k));
          [ rewrite <- Hk; exact Hlead | lia ]. }
      assert (Hz : all_chars is_digit (repeat_char "0" k) = true)
        by (apply all_chars_repeat; reflexivity).
      destruct (decimal_value_append F (repeat_char "0" k) HF Hz) as (Hval & _ & _).
      rewrite <- Hk, Hv, decimal_value_zeros, Hzeros, decimal_value_zeros in Hval.
      lia. }
    assert (Hslice : slice_to precision F = repeat_char "0" precision).
    { rewrite <- (slice_to_prefix precision F (repeat_char "0" k) HFlen), <- Hk, Hlead.
      rewrite <- (length_repeat_char "0" precision) at 1.
      apply slice_to_append. }
    assert (HFdot : includes "." F = false) by (apply includes_digits; exact HF).
    cbn [includes Ascii.eqb Bool.eqb orb negb].
    change (split "." (String "0" (String "." F))) with ("0" :: split "." F).
    rewrite (split_no_dot F HFdot). cbn [nth]. rewrite Hslice. reflexivity.
Qed.

End Engine.

(** 1500 units of a token of three decimals. *)
Lemma token_amount_roundtrip_witness :
  0 <= 1500 /\ (3 <= 22)%nat
  /\ exists s,
       formatTokenAmount (fun _ => NaN) (VBigInt 1500) 3 = Ok s
       /\ parseTokenAmount (fun _ => NaN) s 3 = Ok (toString 1500).
Proof.
  split; [ lia | ]. split; [ lia | ].
  apply (token_amount_roundtrip (fun _ => NaN) 1500 3); lia.
Defined.

Lemma parseTokenAmount_agrees_with_vetToWei_witness :
  all_chars is_digit "1" = true /\ all_chars is_digit "5" = true
  /\ (String.length "5" <= 22)%nat
  /\ parseTokenAmount (fun _ => NaN) "1.5" 18
     = vetToWei (fun _ => NaN) (VString "1.5").
Proof.
  split; [ reflexivity | ]. split; [ reflexivity | ]. split; [ vm_compute; lia | ].
  exact (parseTokenAmount_agrees_with_vetToWei (fun _ => NaN) "1" "5"
           eq_refl eq_refl ltac:(discriminate) ltac:(vm_compute; lia)).
Defined.
(** One wei, at the default precision of four digits. *)
Lemma formatVet_hides_dust_witness :
  (4 <= 18)%nat /\ 0 < 1 < 10 ^ (18 - Z.of_nat 4)
  /\ formatVet (fun _ => NaN) (VString (toString 1)) 4 = Ok "0.0000 VET".
Proof.
  split; [ lia | ]. split; [ lia | ].
  exact (proj2 (formatVet_hides_dust (fun _ => NaN) 1 4) ltac:(lia) ltac:(lia)).
Defined.

End TokenAmountFacts.

(** ** More on the poll engine *)
Module TickFacts.
Import JS Observe ThorClient Trigger Extent Ticks Samples JSFacts TriggerFacts.

Section Tick.
Variable pow10_inexact : nat -> Number.
Variable keccak256 : string -> string.
Variable node : Node.
Variable params : Parameters.

#[local] Abbreviation dispatch := (dispatch pow10_inexact keccak256 node params).
#[local] Abbreviation for_blocks := (for_blocks pow10_inexact keccak256 node params).
#[local] Abbreviation poll := (poll pow10_inexact keccak256 node params).

(** The block of one iteration, as the loop obtains it. *)
Lemma for_blocks_step count blockNum bestBlock returnData s :
  for_blocks (S count) blockNum bestBlock returnData s
  = match block_at node bestBlock blockNum with
    | Ok (Some b) =>
        let s1 := if blockNum =? number bestBlock then s
                  else {| lastBlockNumber := lastBlockNumber s;
                          actions := (actions s ++ [GetBlock blockNum])%list |} in
        match dispatch b blockNum bestBlock returnData s1 with
        | (Ok returnData', s2) =>
            for_blocks count (blockNum + 1) bestBlock returnData' s2
        | (Throw e, s2) => (Throw e, s2)
        end
    | Ok None =>
        for_blocks count (blockNum + 1) bestBlock returnData
          {| lastBlockNumber := lastBlockNumber s;
             actions := (actions s ++ [GetBlock blockNum])%list |}
    | Throw e =>
        (Throw e, {| lastBlockNumber := lastBlockNumber s;
                     actions := (actions s ++ [GetBlock blockNum])%list |})
    end.
Proof.
  cbn [Trigger.for_blocks]. unfold block_at. rewrite run_bind.
  destruct (blockNum =? number bestBlock) eqn:Hbest.
  - unfold Eff.ret at 1. cbv beta iota. rewrite run_bind. reflexivity.
  - unfold getBlock, log, Eff.bind, Eff.modify, Eff.lift.
    destruct (blocks node blockNum) as [[b |] | e]; reflexivity.
Qed.

(** *** newBlock *)

Lemma for_blocks_new bestBlock count :
  triggerOn params = "newBlock" ->
  forall blockNum returnData s,
    (forall n, blockNum <= n < blockNum + Z.of_nat count ->
               n <> number bestBlock -> exists found, blocks node n = Ok found) ->
    fst (for_blocks count blockNum bestBlock returnData s)
    = Ok (returnData
          ++ map new_block_event (found_blocks node bestBlock count blockNum))%list.
Proof.
  intros Htrigger. induction count as [| count IH]; intros blockNum returnData s Hnode.
  - simpl. rewrite app_nil_r. reflexivity.
  - rewrite for_blocks_step. cbn [found_blocks].
    assert (Hrest : forall n, blockNum + 1 <= n < blockNum + 1 + Z.of_nat count ->
                    n <> number bestBlock -> exists found, blocks node n = Ok found).
    { intros n Hn. apply Hnode. lia. }
    assert (Hhere : exists found, block_at node bestBlock blockNum = Ok found).
    { unfold block_at. destruct (blockNum =? number bestBlock) eqn:Hbest.
      - eauto.
      - apply Hnode; [ lia | apply Z.eqb_neq; assumption ]. }
    destruct Hhere as ([b |] & ->).
    + unfold Trigger.dispatch. rewrite Htrigger. cbn [String.eqb Ascii.eqb Bool.eqb].
      unfold Eff.ret. cbv beta iota zeta.
      rewrite IH by assumption. cbn [map]. rewrite <- app_assoc. reflexivity.
    + apply IH. assumption.
Qed.

Lemma found_blocks_snoc node0 bestBlock count : forall blockNum,
  found_blocks node0 bestBlock (S count) blockNum
  = (found_blocks node0 bestBlock count blockNum
     ++ match block_at node0 bestBlock (blockNum + Z.of_nat count) with
        | Ok (Some b) => [b]
        | _ => []
        end)%list.
Proof.
  induction count as [| count IH]; intros blockNum.
  - cbn [found_blocks Z.of_nat]. rewrite Z.add_0_r.
    destruct (block_at node0 bestBlock blockNum) as [[b |] | e]; reflexivity.
  - change (found_blocks node0 bestBlock (S (S count)) blockNum)
      with (match block_at node0 bestBlock blockNum with
            | Ok (Some b) => b :: found_blocks node0 bestBlock (S count) (blockNum + 1)
            | _ => found_blocks node0 bestBlock (S count) (blockNum + 1)
            end).
    rewrite IH. cbn [found_blocks].
    replace (blockNum + 1 + Z.of_nat count) with (blockNum + Z.of_nat (S count)) by lia.
    destruct (block_at node0 bestBlock blockNum) as [[b |] | e]; reflexivity.
Qed.

(** X6. The [newBlock] trigger reports every block the node has between
    the cursor and the head, oldest first and the head last. *)
Theorem new_block_reports_each_block_once (acts : list Action)
  (bestBlock : BlockInfo) (cursor : Z) :
  triggerOn params = "newBlock" ->
  blocks_best node = Ok (Some bestBlock) ->
  cursor < number bestBlock ->
  (forall n, cursor < n < number bestBlock -> exists found, blocks node n = Ok found) ->
  let reported :=
    found_blocks node bestBlock (Z.to_nat (number bestBlock - cursor)) (cursor + 1) in
  fst (poll {| lastBlockNumber := Some cursor; actions := acts |})
  = Ok (Some (map new_block_event reported))
  /\ exists earlier, reported = (earlier ++ [bestBlock])%list.
Proof.
  intros Htrigger Hbest Hlt Hnode reported.
  assert (Hlast : exists earlier, reported = (earlier ++ [bestBlock])%list).
  { unfold reported.
    destruct (Z.to_nat (number bestBlock - cursor)) as [| count] eqn:Hcount; [ lia | ].
    rewrite found_blocks_snoc.
    replace (cursor + 1 + Z.of_nat count) with (number bestBlock) by lia.
    unfold block_at. rewrite Z.eqb_refl. eauto. }
  split; [ | exact Hlast ].
  rewrite (poll_catch_up_run pow10_inexact keccak256 node params acts bestBlock cursor
             Hbest Hlt).
  assert (Hrun := for_blocks_new bestBlock (Z.to_nat (number bestBlock - cursor))
                   Htrigger (cursor + 1) []
                   {| lastBlockNumber := Some cursor;
                      actions := (acts ++ [GetBestBlock])%list |}).
  assert (Hfound : forall n,
            cursor + 1 <= n < cursor + 1 + Z.of_nat (Z.to_nat (number bestBlock - cursor)) ->
            n <> number bestBlock -> exists found, blocks node n = Ok found).
  { intros n Hn Hne. apply Hnode. lia. }
  specialize (Hrun Hfound). fold reported in Hrun. cbn [app] in Hrun.
  destruct (for_blocks _ _ _ _ _) as [[rd | e] s2]; cbn [fst] in Hrun |- *;
    [ | discriminate ].
  injection Hrun as ->. destruct Hlast as (earlier & ->).
  rewrite map_app. destruct (map new_block_event earlier); reflexivity.
Qed.

(** *** blockFinalized *)

Lemma for_blocks_unfinalized bestBlock count :
  triggerOn params = "blockFinalized" ->
  forall blockNum returnData s out s',
    number bestBlock - 12 < blockNum ->
    for_blocks count blockNum bestBlock returnData s = (Ok out, s') ->
    out = returnData.
Proof.
  intros Htrigger. induction count as [| count IH];
    intros blockNum returnData s out s' Hnear Hrun.
  - simpl in Hrun. injection Hrun as <- _. reflexivity.
  - rewrite for_blocks_step in Hrun.
    destruct (block_at node bestBlock blockNum) as [[b |] | e]; [ | | discriminate ].
    + unfold Trigger.dispatch in Hrun. rewrite Htrigger in Hrun.
      cbn [String.eqb Ascii.eqb Bool.eqb] in Hrun.
      replace (blockNum <=? number bestBlock - 12) with false in Hrun
        by (symmetry; apply Z.leb_gt; lia).
      unfold Eff.ret in Hrun. cbv beta iota zeta in Hrun.
      eapply IH; [ | exact Hrun ]. lia.
    + eapply IH; [ | exact Hrun ]. lia.
Qed.

(** X7. A [blockFinalized] trigger whose cursor is within 12 blocks of
    the head reports nothing, and the blocks it passed over are behind
    the cursor when the tick returns. *)
Theorem block_finalized_within_twelve_is_silent (acts : list Action)
  (bestBlock : BlockInfo) (cursor : Z) :
  triggerOn params = "blockFinalized" ->
  blocks_best node = Ok (Some bestBlock) ->
  number bestBlock - 12 <= cursor ->
  let st := {| lastBlockNumber := Some cursor; actions := acts |} in
  (forall events, fst (poll st) <> Ok (Some events))
  /\ (fst (poll st) = Ok None ->
      lastBlockNumber (snd (poll st)) = Some (Z.max cursor (number bestBlock))).
Proof.
  intros Htrigger Hbest Hnear st.
  destruct (Z.le_gt_cases (number bestBlock) cursor) as [Hidle | Hlt].
  - subst st. rewrite (poll_idle_run pow10_inexact keccak256 node params acts bestBlock cursor
               Hbest Hidle).
    cbn [fst snd lastBlockNumber]. split; [ discriminate | ].
    intros _. f_equal. lia.
  - subst st.
    rewrite (poll_catch_up_run pow10_inexact keccak256 node params acts bestBlock cursor
               Hbest Hlt).
    destruct (for_blocks _ _ _ _ _) as [[rd | e] s2] eqn:Hrun; cbn [fst snd].
    + apply (for_blocks_unfinalized bestBlock _ Htrigger) in Hrun; [ | lia ].
      subst rd. cbn [batch lastBlockNumber]. split; [ discriminate | ].
      intros _. f_equal. lia.
    + split; discriminate.
Qed.

(** *** vetReceived and vetSent *)

Lemma vet_body_step trigger returnData t :
  trigger = "vetReceived" \/ trigger = "vetSent" ->
  (exists z, StringToBigInt (amount t) = Some z) ->
  vet_body pow10_inexact trigger (toLowerCase (address params)) returnData t
  = Ok (if vet_watched trigger (address params) t
        then (returnData ++ [vet_event pow10_inexact (address params) t])%list
        else returnData).
Proof.
  intros Htrigger (z & Hz).
  destruct (UnitConverterFacts.weiToVet_total pow10_inexact _ _ Hz) as [out Hout].
  unfold vet_body, vet_watched, vet_event, same_address, direction. rewrite Hout.
  destruct Htrigger as [-> | ->]; cbn [String.eqb Ascii.eqb Bool.eqb andb orb];
    destruct (String.eqb (toLowerCase (recipient t)) (toLowerCase (address params)));
    destruct (String.eqb (toLowerCase (sender t)) (toLowerCase (address params)));
    reflexivity.
Qed.

Lemma vet_loop trigger transfers :
  trigger = "vetReceived" \/ trigger = "vetSent" ->
  Forall (fun t => exists z, StringToBigInt (amount t) = Some z) transfers ->
  forall returnData,
    for_of (vet_body pow10_inexact trigger (toLowerCase (address params)))
      transfers returnData
    = Ok (returnData
          ++ map (vet_event pow10_inexact (address params))
               (filter (vet_watched trigger (address params)) transfers))%list.
Proof.
  intros Htrigger. induction 1 as [| t ts Ht Hts IH]; intros returnData; simpl.
  - rewrite app_nil_r. reflexivity.
  - rewrite (vet_body_step _ _ _ Htrigger Ht). cbn [rbind].
    destruct (vet_watched trigger (address params) t).
    + rewrite IH. simpl. rewrite <- app_assoc. reflexivity.
    + apply IH.
Qed.

(** X8. The VET triggers report, in the order of the node's log, the
    transfers of the block whose recipient (for [vetReceived]) or sender
    (for [vetSent]) is the watched address, letter case apart. *)
Theorem vet_trigger_reports_watched_transfers (block : BlockInfo)
  (trigger : string) (returnData : list Event) (st : State)
  (transfers : list TransferLog) :
  trigger = "vetReceived" \/ trigger = "vetSent" ->
  logs_transfer node (number block) = Ok transfers ->
  Forall (fun t => exists z, StringToBigInt (amount t) = Some z) transfers ->
  processVetTransfers pow10_inexact node params block trigger returnData st
  = (Ok (returnData
         ++ map (vet_event pow10_inexact (address params))
              (filter (vet_watched trigger (address params)) transfers))%list,
     {| lastBlockNumber := lastBlockNumber st;
        actions := (actions st
                    ++ [FilterTransfers (number block) (number block)])%list |})
  /\ (forall t, vet_watched "vetReceived" (address params) t = true
                <-> toLowerCase (recipient t) = toLowerCase (address params))
  /\ (forall t, vet_watched "vetSent" (address params) t = true
                <-> toLowerCase (sender t) = toLowerCase (address params)).
Proof.
  intros Htrigger Hlogs Hamounts. split; [ | split ].
  - unfold processVetTransfers, getTransfers, log,
      Eff.bind, Eff.modify, Eff.lift.
    rewrite Hlogs. cbv beta iota.
    rewrite (vet_loop trigger transfers Htrigger Hamounts). reflexivity.
  - intros t. unfold vet_watched. cbn [String.eqb Ascii.eqb Bool.eqb].
    apply String.eqb_eq.
  - intros t. unfold vet_watched. cbn [String.eqb Ascii.eqb Bool.eqb].
    apply String.eqb_eq.
Qed.

End Tick.

(** The sample node at height 12, a cursor at 9: blocks 10, 11 and 12. *)
Lemma new_block_reports_each_block_once_witness :
  triggerOn (sample_params "newBlock" (of_int 1) EmptyString) = "newBlock"
  /\ blocks_best sample_node = Ok (Some (sample_block 12))
  /\ 9 < number (sample_block 12)
  /\ fst (poll (fun _ => NaN) (fun s => s) sample_node
            (sample_params "newBlock" (of_int 1) EmptyString)
            {| lastBlockNumber := Some 9; actions := [] |})
     = Ok (Some (map new_block_event
                   [sample_block 10; sample_block 11; sample_block 12])).
Proof.
  split; [ reflexivity | ]. split; [ reflexivity | ]. split; [ simpl; lia | ].
  refine (proj1 (new_block_reports_each_block_once (fun _ => NaN) (fun s => s)
                   sample_node (sample_params "newBlock" (of_int 1) EmptyString)
                   [] (sample_block 12) 9 eq_refl eq_refl _ _)).
  - simpl; lia.
  - intros n _. eexists. reflexivity.
Defined.

(** The same node and cursor under [blockFinalized]: nothing. *)
Lemma block_finalized_within_twelve_is_silent_witness :
  triggerOn (sample_params "blockFinalized" (of_int 1) EmptyString) = "blockFinalized"
  /\ blocks_best sample_node = Ok (Some (sample_block 12))
  /\ number (sample_block 12) - 12 <= 9
  /\ forall events,
       fst (poll (fun _ => NaN) (fun s => s) sample_node
              (sample_params "blockFinalized" (of_int 1) EmptyString)
              {| lastBlockNumber := Some 9; actions := [] |})
       <> Ok (Some events).
Proof.
  split; [ reflexivity | ]. split; [ reflexivity | ]. split; [ simpl; lia | ].
  refine (proj1 (block_finalized_within_twelve_is_silent (fun _ => NaN) (fun s => s)
                   sample_node
                   (sample_params "blockFinalized" (of_int 1) EmptyString)
                   [] (sample_block 12) 9 eq_refl eq_refl _)).
  simpl; lia.
Defined.

(** Block 11 of the sample node, watched for what [0xaa] sends. *)
Lemma vet_trigger_reports_watched_transfers_witness :
  logs_transfer sample_node (number (sample_block 11))
  = Ok [ {| sender := "0xAA"; recipient := "0xbb";
            amount := "2000000000000000000"; t_meta := sample_meta |};
         {| sender := "0xAA"; recipient := "0xbb";
            amount := "1999999999999999999"; t_meta := sample_meta |} ]
  /\ fst (processVetTransfers (fun _ => NaN) sample_node
            (sample_params "vetSent" (of_int 1) EmptyString)
            (sample_block 11) "vetSent" []
            {| lastBlockNumber := Some 10; actions := [] |})
     = Ok [ VetTransfer "sent" "0xAA" "0xbb" "2000000000000000000" "2 VET"
              "0x7a" 11 0;
            VetTransfer "sent" "0xAA" "0xbb" "1999999999999999999"
              "1.999999999999999999 VET" "0x7a" 11 0 ].
Proof.
  split; [ reflexivity | ].
  destruct (vet_trigger_reports_watched_transfers (fun _ => NaN) sample_node
              (sample_params "vetSent" (of_int 1) EmptyString)
              (sample_block 11) "vetSent" []
              {| lastBlockNumber := Some 10; actions := [] |}
              _ (or_intror eq_refl) eq_refl
              ltac:(repeat constructor; eexists; reflexivity)) as (Hrun & _).
  rewrite Hrun. reflexivity.
Defined.
End TickFacts.

(** ** More on the signing pipeline *)
Module SigningFacts.
Import JS Observe ClauseBuilder ThorClient TransactionOps Samples.

Section Pipeline.
Context {Digest : Type}.
Variable Wallet : string -> result string.
Variable signingHash : TransactionBody -> result Digest.
Variable sign : string -> Digest -> result Signature.
Variable encode : TransactionBody -> option (list byte) -> result (list byte).
Variable client_chainTag : Z.
Variable net : Network.

#[local] Abbreviation sendTransaction :=
  (sendTransaction Wallet signingHash sign encode client_chainTag net).
#[local] Abbreviation build_body := (build_body client_chainTag).

Ltac unfold_run :=
  unfold TransactionOps.sendTransaction, getBestBlock, client_sendTransaction,
    createDelegationService, requestDelegation, log,
    Eff.bind, Eff.lift, Eff.ret, Eff.throw, Eff.modify;
  cbn [fst snd app].

Ltac reduce_run :=
  cbv beta iota zeta; cbn [error signature];
  rewrite ?PipelineFacts.error_response_truthy; cbv beta iota zeta.

Ltac step_run :=
  match goal with
  | |- context [match Wallet ?k with _ => _ end] => destruct (Wallet k) eqn:?
  | |- context [match best net with _ => _ end] =>
      destruct (best net) as [[? |] | ?] eqn:?
  | |- context [match signingHash ?b with _ => _ end] =>
      destruct (signingHash b) eqn:?
  | |- context [match sign ?k ?d with _ => _ end] => destruct (sign k d) eqn:?
  | |- context [if truthy ?x then _ else _] => destruct (truthy x) eqn:?
  | |- context [match encode ?b ?x with _ => _ end] => destruct (encode b x) eqn:?
  | |- context [match delegate net ?u ?x ?o with _ => _ end] =>
      destruct (delegate net u x o) as [? | []] eqn:?
  | |- context [if truthy_opt ?x then _ else _] => destruct (truthy_opt x) eqn:?
  | |- context [match getBytes ?x with _ => _ end] => destruct (getBytes x) eqn:?
  | |- context [match submit net ?x with _ => _ end] => destruct (submit net x) eqn:?
  end; reduce_run.

Variable randomBytes : list byte.
Variable clauses_ : list Clause.
Variable privateKey_ : string.
Variable gas_ gasPriceCoef_ expiration_ : Z.

#[local] Abbreviation run dc :=
  (sendTransaction randomBytes clauses_ privateKey_ gas_ gasPriceCoef_ expiration_
     dc []).

(** X9. Without a delegation URL a successful send makes four calls, in
    this order: the best block, the signing hash of the body, the
    sender's signature over it, the submission of the body with that
    65-byte signature alone; and the body carries the delegation flag
    whenever delegation is enabled, URL or not. *)
Theorem send_without_sponsor (dc : option Credentials) (out : Submitted) :
  delegation_remote dc = None ->
  fst (run dc) = Ok out ->
  exists wallet bestBlock digest sig signedBytes,
    let body := build_body randomBytes clauses_ gas_ gasPriceCoef_ expiration_
                  dc bestBlock in
    Wallet privateKey_ = Ok wallet
    /\ best net = Ok (Some bestBlock)
    /\ signingHash body = Ok digest
    /\ sign privateKey_ digest = Ok sig
    /\ encode body (Some (r sig ++ s sig ++ toBeHex (v sig - 27))%list)
       = Ok signedBytes
    /\ submit net (hexlify signedBytes) = Ok (txId out)
    /\ snd (run dc)
       = [GetBestBlock; SigningHash body; Sign digest; Submit (hexlify signedBytes)]
    /\ origin out = wallet
    /\ reserved body
       = if delegation_enabled dc then Some {| features := 1 |} else None.
Proof.
  intros Hremote. unfold_run. rewrite Hremote. reduce_run.
  repeat step_run; cbn [fst snd app]; intros Hout; try discriminate Hout.
  injection Hout as <-. cbn [txId origin].
  do 5 eexists. cbv zeta.
  repeat (split; [ eassumption || reflexivity | ]).
  apply PipelineFacts.build_body_reserved.
Qed.

(** X10. With a delegation URL a successful send asks the service for a
    signature over the unsigned body on behalf of the sender's address,
    after the sender has signed and before anything is submitted, and
    submits the body under the sender's signature followed by the
    sponsor's. *)
Theorem send_with_sponsor (dc : option Credentials) (c : Credentials)
  (out : Submitted) :
  delegation_remote dc = Some c ->
  fst (run dc) = Ok out ->
  exists wallet bestBlock digest sig unsigned response sponsor signedBytes,
    let body := build_body randomBytes clauses_ gas_ gasPriceCoef_ expiration_
                  dc bestBlock in
    Wallet privateKey_ = Ok wallet
    /\ best net = Ok (Some bestBlock)
    /\ reserved body = Some {| features := 1 |}
    /\ signingHash body = Ok digest
    /\ sign privateKey_ digest = Ok sig
    /\ encode body None = Ok unsigned
    /\ delegate net (delegatorUrl c) (hexlify unsigned) wallet = Ok response
    /\ truthy_opt (error response) = false
    /\ getBytes (signature response) = Ok sponsor
    /\ encode body
         (Some ((r sig ++ s sig ++ toBeHex (v sig - 27)) ++ sponsor)%list)
       = Ok signedBytes
    /\ submit net (hexlify signedBytes) = Ok (txId out)
    /\ snd (run dc)
       = [GetBestBlock; SigningHash body; Sign digest;
          Delegate (delegatorUrl c) (hexlify unsigned) wallet;
          Submit (hexlify signedBytes)].
Proof.
  intros Hremote.
  assert (Henabled : delegation_enabled dc = true).
  { unfold delegation_remote in Hremote. destruct dc as [c0 |]; [ | discriminate ].
    cbn. destruct (enableDelegation c0); [ reflexivity | discriminate ]. }
  unfold_run. rewrite Hremote. reduce_run.
  repeat step_run; cbn [fst snd app]; intros Hout; try discriminate Hout.
  all: injection Hout as <-; cbn [txId origin].
  all: do 8 eexists; cbv zeta.
  all: repeat (split;
               [ first [ reflexivity | eassumption
                       | rewrite PipelineFacts.build_body_reserved, Henabled;
                         reflexivity ] | ]).
  all: reflexivity.
Qed.

(** X11. A sponsor key that is configured but malformed stops a
    delegated send after the sender has signed: the service is not
    asked and nothing is submitted, although the remote flow never
    signs with that key. *)
Theorem malformed_sponsor_key_stops_the_send (dc : option Credentials)
  (c : Credentials) (e : exn) :
  delegation_remote dc = Some c ->
  truthy (delegatorPrivateKey c) = true ->
  Wallet (delegatorPrivateKey c) = Throw e ->
  threw (fst (run dc)) = true
  /\ submissions (snd (run dc)) = []
  /\ (forall url raw origin_, ~ In (Delegate url raw origin_) (snd (run dc)))
  /\ (forall wallet bestBlock digest sig,
        Wallet privateKey_ = Ok wallet ->
        best net = Ok (Some bestBlock) ->
        signingHash (build_body randomBytes clauses_ gas_ gasPriceCoef_ expiration_
                       dc bestBlock) = Ok digest ->
        sign privateKey_ digest = Ok sig ->
        run dc
        = (Throw e,
           [GetBestBlock;
            SigningHash (build_body randomBytes clauses_ gas_ gasPriceCoef_
                           expiration_ dc bestBlock);
            Sign digest])).
Proof.
  intros Hremote Hkey Hbad. split; [ | split; [ | split ] ].
  - unfold_run. rewrite Hremote. reduce_run. rewrite Hkey, Hbad.
    repeat step_run; reflexivity.
  - unfold_run. rewrite Hremote. reduce_run. rewrite Hkey, Hbad.
    repeat step_run; reflexivity.
  - intros url raw origin_. unfold_run. rewrite Hremote. reduce_run.
    rewrite Hkey, Hbad.
    repeat step_run; cbn [In]; intros Hin;
      repeat (destruct Hin as [Hin | Hin]; [ discriminate Hin | ]);
      contradiction.
  - intros wallet bestBlock digest sig Hw Hb Hd Hs.
    unfold_run. rewrite Hremote. reduce_run.
    rewrite Hw, Hb. reduce_run. rewrite Hd. reduce_run. rewrite Hs. reduce_run.
    rewrite Hkey, Hbad. reflexivity.
Qed.

End Pipeline.

Section Operations.
Context {Digest : Type}.
Variable Wallet : string -> result string.
Variable signingHash : TransactionBody -> result Digest.
Variable sign : string -> Digest -> result Signature.
Variable encode : TransactionBody -> option (list byte) -> result (list byte).
Variable encodeTransfer : string -> string -> result string.
Variable pow10_inexact : nat -> Number.
Variable client_chainTag : Z.
Variable net : Network.

#[local] Abbreviation sendVet :=
  (sendVet Wallet signingHash sign encode pow10_inexact client_chainTag net).
#[local] Abbreviation sendVtho :=
  (sendVtho Wallet signingHash sign encode encodeTransfer pow10_inexact
     client_chainTag net).

Lemma build_body_clauses rb cs g coef exp dc bestBlock :
  clauses (build_body client_chainTag rb cs g coef exp dc bestBlock) = cs.
Proof.
  unfold build_body. destruct (delegation_enabled dc); cbn [clauses with_reserved];
    induction cs as [| [t v0 d] cs IH]; cbn [map to value data]; congruence.
Qed.

(** X12. [sendVet] and [sendVtho] sign one clause, carrying the amount
    converted to wei: a plain transfer to the recipient for VET, a call
    of the VTHO contract with no value for VTHO; an amount that does not
    convert, or a call that does not encode, fails the operation before
    any request is made.  With a wallet, a best block and a signing
    hash at hand, the body with that one clause is hashed, once, and
    its digest is the one digest that is signed. *)
Theorem transfers_carry_the_converted_amount (randomBytes : list byte)
  (credentials : Credentials) (toAddress amount_ : string)
  (gasLimit_ gasPriceCoef_ expiration_ : Z) (useDelegation : bool) :
  (forall wei,
     UnitConverter.vetToWei pow10_inexact (VString amount_) = Ok wei ->
     forall body,
       In body (hashed (snd (sendVet randomBytes credentials toAddress amount_
                               gasLimit_ gasPriceCoef_ expiration_ useDelegation []))) ->
       clauses body = [ {| to := Some toAddress; value := wei; data := "0x" |} ])
  /\ (forall e,
        UnitConverter.vetToWei pow10_inexact (VString amount_) = Throw e ->
        sendVet randomBytes credentials toAddress amount_
          gasLimit_ gasPriceCoef_ expiration_ useDelegation []
        = (Throw e, []))
  /\ (forall wei data_,
        UnitConverter.vthoToWei pow10_inexact (VString amount_) = Ok wei ->
        encodeTransfer toAddress wei = Ok data_ ->
        forall body,
          In body (hashed (snd (sendVtho randomBytes credentials toAddress amount_
                                  gasLimit_ gasPriceCoef_ expiration_ useDelegation []))) ->
          clauses body
          = [ {| to := Some VTHO_CONTRACT_ADDRESS; value := "0"; data := data_ |} ])
  /\ (forall e,
        UnitConverter.vthoToWei pow10_inexact (VString amount_) = Throw e ->
        sendVtho randomBytes credentials toAddress amount_
          gasLimit_ gasPriceCoef_ expiration_ useDelegation []
        = (Throw e, []))
  /\ (forall wei e,
        UnitConverter.vthoToWei pow10_inexact (VString amount_) = Ok wei ->
        encodeTransfer toAddress wei = Throw e ->
        sendVtho randomBytes credentials toAddress amount_
          gasLimit_ gasPriceCoef_ expiration_ useDelegation []
        = (Throw e, []))
  /\ (forall wei wallet bestBlock digest,
        let body :=
          build_body client_chainTag randomBytes
            [ {| to := Some toAddress; value := wei; data := "0x" |} ]
            (or_default gasLimit_ 21000) gasPriceCoef_ expiration_
            (delegation_arg useDelegation credentials) bestBlock in
        UnitConverter.vetToWei pow10_inexact (VString amount_) = Ok wei ->
        Wallet (privateKey credentials) = Ok wallet ->
        best net = Ok (Some bestBlock) ->
        signingHash body = Ok digest ->
        hashed (snd (sendVet randomBytes credentials toAddress amount_
                       gasLimit_ gasPriceCoef_ expiration_ useDelegation []))
        = [body]
        /\ signed (snd (sendVet randomBytes credentials toAddress amount_
                          gasLimit_ gasPriceCoef_ expiration_ useDelegation []))
           = [digest]
        /\ clauses body
           = [ {| to := Some toAddress; value := wei; data := "0x" |} ])
  /\ (forall wei data_ wallet bestBlock digest,
        let body :=
          build_body client_chainTag randomBytes
            [ {| to := Some VTHO_CONTRACT_ADDRESS; value := "0"; data := data_ |} ]
            (or_default gasLimit_ 60000) gasPriceCoef_ expiration_
            (delegation_arg useDelegation credentials) bestBlock in
        UnitConverter.vthoToWei pow10_inexact (VString amount_) = Ok wei ->
        encodeTransfer toAddress wei = Ok data_ ->
        Wallet (privateKey credentials) = Ok wallet ->
        best net = Ok (Some bestBlock) ->
        signingHash body = Ok digest ->
        hashed (snd (sendVtho randomBytes credentials toAddress amount_
                       gasLimit_ gasPriceCoef_ expiration_ useDelegation []))
        = [body]
        /\ signed (snd (sendVtho randomBytes credentials toAddress amount_
                          gasLimit_ gasPriceCoef_ expiration_ useDelegation []))
           = [digest]
        /\ clauses body
           = [ {| to := Some VTHO_CONTRACT_ADDRESS; value := "0"; data := data_ |} ]).
Proof.
  split; [ | split; [ | split; [ | split; [ | split; [ | split ] ] ] ] ].
  - intros wei Hwei body Hin.
    unfold TransactionOps.sendVet, Eff.bind, Eff.lift in Hin.
    rewrite Hwei in Hin. cbv beta iota in Hin.
    apply PipelineFacts.hashed_origin in Hin. destruct Hin as (bestBlock & _ & ->).
    apply build_body_clauses.
  - intros e He. unfold TransactionOps.sendVet, Eff.bind, Eff.lift.
    rewrite He. reflexivity.
  - intros wei data_ Hwei Hdata body Hin.
    unfold TransactionOps.sendVtho, Eff.bind, Eff.lift in Hin.
    rewrite Hwei in Hin. cbv beta iota in Hin. rewrite Hdata in Hin.
    cbv beta iota in Hin.
    apply PipelineFacts.hashed_origin in Hin. destruct Hin as (bestBlock & _ & ->).
    apply build_body_clauses.
  - intros e He. unfold TransactionOps.sendVtho, Eff.bind, Eff.lift.
    rewrite He. reflexivity.
  - intros wei e Hwei He. unfold TransactionOps.sendVtho, Eff.bind, Eff.lift.
    rewrite Hwei. cbv beta iota. rewrite He. reflexivity.
  - intros wei wallet bestBlock digest body Hwei Hwallet Hbest Hdigest.
    unfold TransactionOps.sendVet, Eff.bind, Eff.lift.
    rewrite Hwei. cbv beta iota.
    split; [ | split ].
    + eapply PipelineFacts.hashed_once; eassumption.
    + eapply PipelineFacts.signed_once; eassumption.
    + apply build_body_clauses.
  - intros wei data_ wallet bestBlock digest body Hwei Hdata Hwallet Hbest Hdigest.
    unfold TransactionOps.sendVtho, Eff.bind, Eff.lift.
    rewrite Hwei. cbv beta iota. rewrite Hdata. cbv beta iota.
    split; [ | split ].
    + eapply PipelineFacts.hashed_once; eassumption.
    + eapply PipelineFacts.signed_once; eassumption.
    + apply build_body_clauses.
Qed.

End Operations.

(** The delegation flag without a URL: the flagged body goes out under
    the sender's signature alone. *)
Lemma send_without_sponsor_witness :
  delegation_remote (Some (sample_credentials true EmptyString)) = None
  /\ exists out,
       fst (sendTransaction sample_Wallet sample_signingHash sample_sign
              sample_encode 74 (sample_network (Throw TypeError))
              sample_entropy [sample_clause] "01" 21000 0 720
              (Some (sample_credentials true EmptyString)) [])
       = Ok out
       /\ exists body digest signedBytes,
            snd (sendTransaction sample_Wallet sample_signingHash sample_sign
                   sample_encode 74 (sample_network (Throw TypeError))
                   sample_entropy [sample_clause] "01" 21000 0 720
                   (Some (sample_credentials true EmptyString)) [])
            = [GetBestBlock; SigningHash body; Sign digest;
               Submit (hexlify signedBytes)]
            /\ reserved body = Some {| features := 1 |}.
Proof.
  split; [ reflexivity | ]. eexists. split; [ reflexivity | ].
  destruct (send_without_sponsor sample_Wallet sample_signingHash sample_sign
              sample_encode 74 (sample_network (Throw TypeError))
              sample_entropy [sample_clause] "01" 21000 0 720
              (Some (sample_credentials true EmptyString)) _ eq_refl eq_refl)
    as (wallet & bestBlock & digest & sig & signedBytes & H).
  cbv zeta in H.
  destruct H as (_ & _ & _ & _ & _ & _ & Htrace & _ & Hflag).
  eexists. exists digest, signedBytes. split; [ exact Htrace | exact Hflag ].
Defined.

(** A sponsor that signs: five calls, the sponsor's bytes last. *)
Lemma send_with_sponsor_witness :
  delegation_remote (Some (sample_credentials true "http://sponsor"))
  = Some (sample_credentials true "http://sponsor")
  /\ exists out,
       fst (sendTransaction sample_Wallet sample_signingHash sample_sign
              sample_encode 74
              (sample_network (Ok {| signature := Some "0xabcd"; error := None |}))
              sample_entropy [sample_clause] "01" 21000 0 720
              (Some (sample_credentials true "http://sponsor")) [])
       = Ok out
       /\ exists body digest unsigned wallet signedBytes,
            snd (sendTransaction sample_Wallet sample_signingHash sample_sign
                   sample_encode 74
                   (sample_network (Ok {| signature := Some "0xabcd"; error := None |}))
                   sample_entropy [sample_clause] "01" 21000 0 720
                   (Some (sample_credentials true "http://sponsor")) [])
            = [GetBestBlock; SigningHash body; Sign digest;
               Delegate "http://sponsor" (hexlify unsigned) wallet;
               Submit (hexlify signedBytes)].
Proof.
  split; [ reflexivity | ]. eexists. split; [ reflexivity | ].
  destruct (send_with_sponsor sample_Wallet sample_signingHash sample_sign
              sample_encode 74
              (sample_network (Ok {| signature := Some "0xabcd"; error := None |}))
              sample_entropy [sample_clause] "01" 21000 0 720
              (Some (sample_credentials true "http://sponsor"))
              (sample_credentials true "http://sponsor") _ eq_refl eq_refl)
    as (wallet & bestBlock & digest & sig & unsigned & response & sponsor
        & signedBytes & H).
  cbv zeta in H.
  destruct H as (_ & _ & _ & _ & _ & _ & _ & _ & _ & _ & _ & Htrace).
  eexists. exists digest, unsigned, wallet, signedBytes. exact Htrace.
Defined.

(** A sponsor key the wallet library rejects. *)
Lemma malformed_sponsor_key_stops_the_send_witness :
  let wallet_of key :=
    if String.eqb key "zz" then Throw TypeError else Ok ("0xd0" ++ key)%string in
  let credentials :=
    {| privateKey := "01"; enableDelegation := true;
       delegatorUrl := "http://sponsor"; delegatorPrivateKey := "zz" |} in
  delegation_remote (Some credentials) = Some credentials
  /\ truthy (delegatorPrivateKey credentials) = true
  /\ wallet_of (delegatorPrivateKey credentials) = Throw TypeError
  /\ submissions
       (snd (sendTransaction wallet_of sample_signingHash sample_sign
               sample_encode 74
               (sample_network (Ok {| signature := Some "0xabcd"; error := None |}))
               sample_entropy [sample_clause] "01" 21000 0 720
               (Some credentials) []))
     = [].
Proof.
  intros wallet_of credentials.
  split; [ reflexivity | ]. split; [ reflexivity | ]. split; [ reflexivity | ].
  exact (proj1 (proj2 (malformed_sponsor_key_stops_the_send wallet_of
                         sample_signingHash sample_sign sample_encode 74
                         (sample_network (Ok {| signature := Some "0xabcd";
                                                error := None |}))
                         sample_entropy [sample_clause] "01" 21000 0 720
                         (Some credentials) credentials TypeError
                         eq_refl eq_refl eq_refl))).
Defined.

(** One VET to the zero address on the sample node: the body that is
    hashed, and signed, carries 10^18 wei for that address. *)
Lemma transfers_carry_the_converted_amount_witness :
  UnitConverter.vetToWei (fun _ => NaN) (VString "1") = Ok "1000000000000000000"
  /\ sample_Wallet "01" = Ok "0xd001"
  /\ map clauses
       (hashed (snd (sendVet sample_Wallet sample_signingHash sample_sign
                       sample_encode (fun _ => NaN) 74
                       (sample_network (Throw TypeError))
                       sample_entropy (sample_credentials false EmptyString)
                       zero_address "1" 0 0 720 false [])))
     = [[ {| to := Some zero_address; value := "1000000000000000000";
             data := "0x" |} ]]
  /\ map clauses
       (signed (snd (sendVet sample_Wallet sample_signingHash sample_sign
                       sample_encode (fun _ => NaN) 74
                       (sample_network (Throw TypeError))
                       sample_entropy (sample_credentials false EmptyString)
                       zero_address "1" 0 0 720 false [])))
     = [[ {| to := Some zero_address; value := "1000000000000000000";
             data := "0x" |} ]].
Proof.
  split; [ reflexivity | ]. split; [ reflexivity | ].
  destruct (proj1 (proj2 (proj2 (proj2 (proj2 (proj2
              (transfers_carry_the_converted_amount sample_Wallet
                 sample_signingHash sample_sign sample_encode
                 sample_encodeTransfer (fun _ => NaN) 74
                 (sample_network (Throw TypeError)) sample_entropy
                 (sample_credentials false EmptyString) zero_address "1" 0 0 720
                 false))))))
              "1000000000000000000" "0xd001" (sample_block 5) _
              eq_refl eq_refl eq_refl eq_refl)
    as (Hhashed & Hsigned & Hclauses).
  rewrite Hhashed, Hsigned. cbn [map]. rewrite Hclauses. split; reflexivity.
Defined.
End SigningFacts.

(** ** Nonces *)
Module NonceMoreFacts.
Import JS Observe TransactionOps Samples JSFacts DigitFacts.

Lemma digit_in_16_digit_char d :
  0 <= d < 16 -> digit_in 16 (digit_char d) = Some d.
Proof.
  intros H.
  assert (Hd : In d [0; 1; 2; 3; 4; 5; 6; 7; 8; 9; 10; 11; 12; 13; 14; 15])
    by (cbn [In]; lia).
  cbn [In] in Hd.
  repeat (destruct Hd as [<- | Hd]; [ reflexivity | ]). contradiction.
Qed.

Lemma bytes_of_hex_byte b rest :
  bytes_of_hex (hex_of_byte b ++ rest)
  = match bytes_of_hex rest with
    | Some bs => Some (b :: bs)
    | None => None
    end.
Proof.
  unfold hex_of_byte. cbn [append bytes_of_hex].
  pose proof (Byte.to_N_bounded b) as Hb.
  set (n := Z.of_N (Byte.to_N b)).
  assert (Hn : 0 <= n < 256) by (unfold n; lia).
  rewrite !digit_in_16_digit_char
    by (try apply Z.mod_pos_bound; try (split; [ apply Z.div_pos | apply Z.div_lt_upper_bound ]); lia).
  replace (16 * (n / 16) + n mod 16) with n by (rewrite <- Z.div_mod; lia).
  unfold n. rewrite N2Z.id, Byte.of_to_N.
  destruct (bytes_of_hex rest); reflexivity.
Qed.

Lemma bytes_of_hex_of_bytes bs : bytes_of_hex (hex_of_bytes bs) = Some bs.
Proof.
  induction bs as [| b bs IH]; [ reflexivity | ].
  cbn [hex_of_bytes]. rewrite bytes_of_hex_byte, IH. reflexivity.
Qed.

Lemma length_hex_of_bytes bs :
  String.length (hex_of_bytes bs) = (2 * List.length bs)%nat.
Proof.
  induction bs as [| b bs IH]; [ reflexivity | ].
  cbn [hex_of_bytes]. rewrite length_append, IH.
  cbn [hex_of_byte String.length List.length]. lia.
Qed.

(** X13. The nonce of the transport layer is its random bytes in hex, all
    of them: it decodes back to the bytes drawn, and is 18 characters
    long for the 8 bytes the code draws. *)
Theorem nonce_keeps_every_random_byte (randomBytes : list byte) :
  getBytes (Some (generateNonce randomBytes)) = Ok randomBytes
  /\ String.length (generateNonce randomBytes)
     = (2 + 2 * List.length randomBytes)%nat
  /\ forall others, generateNonce randomBytes = generateNonce others ->
                    randomBytes = others.
Proof.
  assert (Hshape : forall bs, generateNonce bs = ("0x" ++ hex_of_bytes bs)%string)
    by reflexivity.
  assert (Hback : forall bs, getBytes (Some (generateNonce bs)) = Ok bs).
  { intros bs. rewrite Hshape.
    change (getBytes (Some ("0x" ++ hex_of_bytes bs)%string))
      with (match bytes_of_hex (hex_of_bytes bs) with
            | Some decoded => Ok decoded
            | None => Throw TypeError
            end).
    rewrite bytes_of_hex_of_bytes. reflexivity. }
  split; [ apply Hback | split ].
  - rewrite Hshape. cbn [append String.length]. rewrite length_hex_of_bytes. lia.
  - intros others Heq. pose proof (Hback randomBytes) as H1.
    rewrite Heq, Hback in H1. congruence.
Qed.


Lemma nonce_keeps_every_random_byte_witness :
  generateNonce sample_entropy = generateNonce sample_entropy
  /\ getBytes (Some (generateNonce sample_entropy)) = Ok sample_entropy
  /\ String.length (generateNonce sample_entropy) = 18%nat.
Proof.
  split; [ reflexivity | ].
  destruct (nonce_keeps_every_random_byte sample_entropy) as (Hback & Hlen & _).
  split; [ exact Hback | exact Hlen ].
Defined.
End NonceMoreFacts.

(** ** Double arithmetic in the gas margin and in the local nonce *)
Module DoubleFacts.
Import JS Observe TransactionOps JSFacts DigitFacts.

(** Rounding a positive integer significand to 53 bits: at most half a
    unit of the last place kept is lost or gained. *)
Lemma round53_spec a e :
  0 < a ->
  exists k q r q',
    0 <= k
    /\ round53 a e = Finite q' (e + k)
    /\ a = q * 2 ^ k + r
    /\ 0 <= r < 2 ^ k
    /\ ((q' = q /\ 2 * r <= 2 ^ k) \/ (q' = q + 1 /\ 2 ^ k <= 2 * r))
    /\ a < 2 ^ (53 + k)
    /\ (0 < k -> 2 ^ (52 + k) <= a).
Proof.
  intros Ha. unfold round53. rewrite (Z.abs_eq a) by lia.
  pose proof (Z.log2_spec a Ha) as [Hlow Hhigh].
  pose proof (Z.log2_nonneg a) as Hlog.
  set (k := Z.log2 a + 1 - 53).
  destruct (k <=? 0) eqn:Hk.
  - apply Z.leb_le in Hk. exists 0, a, 0, a.
    rewrite Z.add_0_r. change (2 ^ 0) with 1.
    repeat split; try lia.
    eapply Z.lt_le_trans; [ exact Hhigh | ].
    apply Z.pow_le_mono_r; lia.
  - apply Z.leb_gt in Hk. cbv zeta.
    assert (HK : 0 < 2 ^ k) by (apply Z.pow_pos_nonneg; lia).
    pose proof (Z.div_mod a (2 ^ k) ltac:(lia)) as Hdm.
    pose proof (Z.mod_pos_bound a (2 ^ k) HK) as Hr.
    assert (Hhalf : 2 * 2 ^ (k - 1) = 2 ^ k).
    { rewrite <- Z.pow_succ_r by lia. f_equal. lia. }
    replace (Z.sgn a) with 1 by (symmetry; apply Z.sgn_pos; lia).
    exists k, (a / 2 ^ k), (a mod 2 ^ k).
    eexists. split; [ lia | ]. split; [ rewrite Z.mul_1_l; reflexivity | ].
    split; [ lia | ]. split; [ assumption | ]. split; [ | split ].
    + destruct (2 ^ (k - 1) <? a mod 2 ^ k) eqn:Hgt; cbn [orb].
      * apply Z.ltb_lt in Hgt. right. split; [ reflexivity | lia ].
      * apply Z.ltb_ge in Hgt.
        destruct (a mod 2 ^ k =? 2 ^ (k - 1)) eqn:Heq; cbn [andb].
        -- apply Z.eqb_eq in Heq. destruct (Z.odd (a / 2 ^ k)).
           ++ right. split; [ reflexivity | lia ].
           ++ left. split; [ reflexivity | lia ].
        -- left. split; [ reflexivity | lia ].
    + replace (53 + k) with (Z.log2 a + 1) by lia. exact Hhigh.
    + intros _. replace (52 + k) with (Z.log2 a) by lia. exact Hlow.
Qed.

(** *** The 20% gas margin *)

(** The arithmetic behind [Math.ceil(total * 1.2)]: the double nearest
    to [1.2] is [(6 * 2^52 - 1) / 5 / 2^52]. *)
Lemma margin_bounds t K D q r q' N :
  0 < K -> 0 < D -> K * D = 2 ^ 52 ->
  5 * (q * K + r) = 6 * t * 2 ^ 52 - t ->
  0 <= r < K ->
  (q' = q /\ 2 * r <= K) \/ (q' = q + 1 /\ K <= 2 * r) ->
  0 < t -> K < 2 * t -> 6 * t < 2 ^ 52 ->
  5 * N - 4 <= 6 * t <= 5 * N ->
  (N - 1) * D < q' <= N * D.
Proof.
  intros HK HD HKD Ha Hr Hq Ht HKt Hsmall HN.
  assert (HqK : forall x y, x <= y -> x * K <= y * K)
    by (intros; apply Z.mul_le_mono_nonneg_r; lia).
  set (P := 2 ^ 52) in *.
  assert (HNP : N * D * K = N * P) by (rewrite <- HKD; ring).
  assert (HN1P : (N - 1) * D * K = N * P - P) by (rewrite <- HKD; ring).
  split.
  - apply Z.nle_gt. intros Hle.
    destruct Hq as [[-> Hhalf] | [-> Hhalf]].
    + pose proof (HqK _ _ Hle) as H. rewrite HN1P in H. lia.
    + assert (Hle' : q + 1 <= (N - 1) * D) by lia.
      pose proof (HqK _ _ Hle') as H. rewrite HN1P in H. lia.
  - apply Z.nlt_ge. intros Hgt.
    destruct Hq as [[-> Hhalf] | [-> Hhalf]].
    + assert (Hle' : N * D + 1 <= q) by lia.
      pose proof (HqK _ _ Hle') as H.
      replace ((N * D + 1) * K) with (N * P + K) in H by (rewrite <- HNP; ring).
      lia.
    + assert (Hle' : N * D <= q) by lia.
      pose proof (HqK _ _ Hle') as H. rewrite HNP in H. lia.
Qed.

(** X14. For every gas total below [2^49] the margin computed in doubles
    is the exact one: the least integer that is at least [1.2] times
    the total. *)
Theorem with_buffer_is_exact (total : Z) :
  0 <= total < 2 ^ 49 ->
  with_buffer total = (6 * total + 4) / 5
  /\ 6 * total <= 5 * with_buffer total < 6 * total + 5.
Proof.
  intros Ht.
  assert (Hexact : with_buffer total = (6 * total + 4) / 5).
  { destruct (Z.eq_dec total 0) as [-> | Hnz]; [ reflexivity | ].
    unfold with_buffer, ONE_POINT_TWO, of_int, mul.
    set (M := 5404319552844595).
    assert (Ha : 0 < total * M) by (unfold M; lia).
    destruct (round53_spec (total * M) (0 + -52) Ha)
      as (k & q & r & q' & Hk & -> & Hsplit & Hr & Hq & Hhigh & Hlow).
    set (N := (6 * total + 4) / 5).
    assert (HN : 5 * N - 4 <= 6 * total <= 5 * N).
    { unfold N. pose proof (Z.div_mod (6 * total + 4) 5 ltac:(lia)).
      pose proof (Z.mod_pos_bound (6 * total + 4) 5 ltac:(lia)). lia. }
    assert (HKt : 2 ^ k < 2 * total).
    { destruct (Z.eq_dec k 0) as [-> | Hpos]; [ change (2 ^ 0) with 1; lia | ].
      specialize (Hlow ltac:(lia)).
      rewrite Z.pow_add_r in Hlow by lia.
      assert (HM : M < 2 * 2 ^ 52) by (unfold M; lia).
      apply Z.nle_gt. intros Hle. nia. }
    assert (Hk50 : k < 50).
    { apply Z.nle_gt. intros Hge.
      assert (2 ^ 50 <= 2 ^ k) by (apply Z.pow_le_mono_r; lia). lia. }
    assert (HKD : 2 ^ k * 2 ^ (52 - k) = 2 ^ 52).
    { rewrite <- Z.pow_add_r by lia. f_equal. lia. }
    assert (HK : 0 < 2 ^ k) by (apply Z.pow_pos_nonneg; lia).
    assert (HD : 0 < 2 ^ (52 - k)) by (apply Z.pow_pos_nonneg; lia).
    assert (H5a : 5 * (q * 2 ^ k + r) = 6 * total * 2 ^ 52 - total).
    { rewrite <- Hsplit. unfold M. lia. }
    pose proof (margin_bounds total (2 ^ k) (2 ^ (52 - k)) q r q' N
                  HK HD HKD H5a Hr Hq ltac:(lia) HKt ltac:(lia) HN) as Hbounds.
    cbn [ceil].
    replace (0 <=? 0 + -52 + k) with false by (symmetry; apply Z.leb_gt; lia).
    replace (- (0 + -52 + k)) with (52 - k) by lia.
    assert (Hdiv : - q' / 2 ^ (52 - k) = - N).
    { symmetry. apply Z.div_unique with (r := N * 2 ^ (52 - k) - q'); lia. }
    rewrite Hdiv. lia. }
  split; [ exact Hexact | ].
  rewrite Hexact.
  pose proof (Z.div_mod (6 * total + 4) 5 ltac:(lia)).
  pose proof (Z.mod_pos_bound (6 * total + 4) 5 ltac:(lia)). lia.
Qed.

(** *** The nonce of vet.operations *)

(** X15. Whatever [Math.random()] returns, a double in [[0, 1)], the
    nonce of [vet.operations] is ten characters, four bytes: the
    integer in it never exceeds [0xffffffff]. *)
Theorem math_random_nonce_never_exceeds_four_bytes (m e : Z) :
  0 <= m < 2 ^ (- e) ->
  exists n,
    0 <= n <= 4294967295
    /\ VetOperations.generateNonce (Finite m e)
       = ("0x" ++ padStart 8 "0" (toString_radix 16 n))%string
    /\ String.length (VetOperations.generateNonce (Finite m e)) = 10%nat.
Proof.
  intros Hm.
  assert (He : e <= 0).
  { apply Z.nlt_ge. intros Hpos.
    rewrite Z.pow_neg_r in Hm by lia. lia. }
  assert (Hlen : forall n, 0 <= n <= 4294967295 ->
            String.length ("0x" ++ padStart 8 "0" (toString_radix 16 n)) = 10%nat).
  { intros n Hn. cbn [append String.length].
    assert (Hshort : (String.length (toString_radix 16 n) <= 8)%nat).
    { apply toString_radix_length; [ lia | ].
      change (16 ^ Z.of_nat 8) with 4294967296. lia. }
    destruct (padStart_short 8 "0" _ Hshort) as [_ ->]. reflexivity. }
  unfold VetOperations.generateNonce, of_int, mul.
  destruct (Z.eq_dec m 0) as [-> | Hnz].
  - exists 0. split; [ lia | ].
    assert (Hzero : round53 (0 * 4294967295) (e + 0) = Finite 0 (e + 0)) by reflexivity.
    rewrite Hzero. cbn [floor].
    replace (if 0 <=? e + 0 then 0 * 2 ^ (e + 0) else 0 / 2 ^ (- (e + 0))) with 0
      by (destruct (0 <=? e + 0); [ lia | rewrite Z.div_0_l; [ reflexivity | ] ];
          apply Z.pow_nonzero; lia).
    split; [ reflexivity | apply Hlen; lia ].
  - set (c := 4294967295).
    assert (Ha : 0 < m * c) by (unfold c; lia).
    assert (Hneg : e < 0).
    { destruct (Z.eq_dec e 0) as [-> | ]; [ change (2 ^ (- 0)) with 1 in Hm; lia | lia ]. }
    destruct (round53_spec (m * c) (e + 0) Ha)
      as (k & q & r & q' & Hk & -> & Hsplit & Hr & Hq & Hhigh & Hlow).
    assert (HK : 0 < 2 ^ k) by (apply Z.pow_pos_nonneg; lia).
    assert (HE : 0 < 2 ^ (- e)) by (apply Z.pow_pos_nonneg; lia).
    assert (Hbelow : m * c < c * 2 ^ (- e)) by (unfold c; nia).
    assert (Hek : e + k < 0).
    { destruct (Z.eq_dec k 0) as [-> | Hpos]; [ lia | ].
      specialize (Hlow ltac:(lia)).
      apply Z.nle_gt. intros Hge.
      assert (Hpow : 2 ^ (- e) <= 2 ^ k) by (apply Z.pow_le_mono_r; lia).
      rewrite Z.pow_add_r in Hlow by lia.
      assert (c < 2 ^ 52) by (unfold c; lia). nia. }
    cbn [floor].
    replace (0 <=? e + 0 + k) with false by (symmetry; apply Z.leb_gt; lia).
    replace (- (e + 0 + k)) with (- e - k) by lia.
    assert (HD : 0 < 2 ^ (- e - k)) by (apply Z.pow_pos_nonneg; lia).
    assert (HKD : 2 ^ (- e) = 2 ^ (- e - k) * 2 ^ k).
    { rewrite <- Z.pow_add_r by lia. f_equal. lia. }
    assert (Hq' : 0 <= q' <= c * 2 ^ (- e - k)).
    { assert (Hq0 : 0 <= q).
      { apply Z.nlt_ge. intros Hlt. assert (q <= -1) by lia. nia. }
      assert (Hqc : q < c * 2 ^ (- e - k)).
      { apply Z.nle_gt. intros Hge.
        assert (c * 2 ^ (- e - k) * 2 ^ k <= q * 2 ^ k)
          by (apply Z.mul_le_mono_nonneg_r; lia).
        rewrite HKD in Hbelow. lia. }
      lia. }
    exists (q' / 2 ^ (- e - k)).
    assert (Hn : 0 <= q' / 2 ^ (- e - k) <= 4294967295).
    { split; [ apply Z.div_pos; lia | ].
      fold c. apply Z.div_le_upper_bound; lia. }
    split; [ exact Hn | ]. split; [ reflexivity | apply Hlen; exact Hn ].
Qed.


(** 21000 gas: 25200 with the margin. *)
Lemma with_buffer_is_exact_witness :
  0 <= 21000 < 2 ^ 49 /\ with_buffer 21000 = 25200.
Proof.
  split; [ lia | ].
  exact (proj1 (with_buffer_is_exact 21000 ltac:(lia))).
Defined.

(** A draw of one half. *)
Lemma math_random_nonce_never_exceeds_four_bytes_witness :
  0 <= 1 < 2 ^ (- -1)
  /\ String.length (VetOperations.generateNonce (Finite 1 (-1))) = 10%nat.
Proof.
  split; [ lia | ].
  destruct (math_random_nonce_never_exceeds_four_bytes 1 (-1) ltac:(lia))
    as (n & _ & _ & Hlen).
  exact Hlen.
Defined.
End DoubleFacts.

(** ** More on the clause builder *)
Module ClauseBuilderOpsFacts.
Import JS Observe ClauseBuilder ClauseBuilderOps Samples JSFacts ClauseBuilderFacts.

Lemma fold_addVetTransfer transfers : forall b,
  fold_left (fun b '(to_, amount_) => addVetTransfer b to_ amount_ None) transfers b
  = (b ++ fold_left (fun b '(to_, amount_) => addVetTransfer b to_ amount_ None)
            transfers [])%list.
Proof.
  induction transfers as [| [to_ amount_] rest IH]; intros b; cbn [fold_left].
  - rewrite app_nil_r. reflexivity.
  - rewrite IH, (IH (addVetTransfer [] to_ amount_ None)).
    unfold addVetTransfer. cbn [app]. rewrite <- app_assoc. reflexivity.
Qed.

Lemma vet_builder_cons to_ amount_ rest :
  vet_builder ((to_, amount_) :: rest)
  = (addVetTransfer [] to_ amount_ None ++ vet_builder rest)%list.
Proof. unfold vet_builder. cbn [fold_left]. apply fold_addVetTransfer. Qed.

Lemma getTotalGasEstimate_from cs : forall total,
  fold_left (fun total c => total + gas_or_default c) cs total
  = total + fold_left (fun total c => total + gas_or_default c) cs 0.
Proof.
  induction cs as [| c cs IH]; intros total; cbn [fold_left]; [ lia | ].
  rewrite IH, (IH (0 + gas_or_default c)). lia.
Qed.

Lemma vet_builder_clauses transfers :
  getClauses (vet_builder transfers) = createBatchVetTransfers transfers.
Proof.
  induction transfers as [| [to_ amount_] rest IH]; [ reflexivity | ].
  rewrite vet_builder_cons. unfold addVetTransfer. cbn [app].
  unfold getClauses in *. cbn [map createBatchVetTransfers]. rewrite IH.
  reflexivity.
Qed.

Lemma vet_builder_length transfers :
  List.length (vet_builder transfers) = List.length transfers.
Proof.
  induction transfers as [| [to_ amount_] rest IH]; [ reflexivity | ].
  rewrite vet_builder_cons. unfold addVetTransfer. cbn [app List.length].
  rewrite IH. reflexivity.
Qed.

(** X16. Filling a builder with VET transfers gives the clauses of the
    batch helper, in the order given, and an estimate of 5000 gas plus
    21000 for each. *)
Theorem vet_builder_matches_batch_helper (transfers : list (string * string)) :
  getClauses (vet_builder transfers) = createBatchVetTransfers transfers
  /\ getClauseCount (vet_builder transfers) = Z.of_nat (List.length transfers)
  /\ getTotalGasEstimate (vet_builder transfers)
     = 5000 + 21000 * Z.of_nat (List.length transfers).
Proof.
  split; [ apply vet_builder_clauses | split ].
  - unfold getClauseCount. rewrite vet_builder_length. reflexivity.
  - induction transfers as [| [to_ amount_] rest IH]; [ reflexivity | ].
    rewrite vet_builder_cons. unfold addVetTransfer. cbn [app].
    unfold getTotalGasEstimate in *. cbn [fold_left].
    rewrite getTotalGasEstimate_from.
    rewrite getTotalGasEstimate_from in IH.
    cbn [gas_or_default gasEstimate Z.eqb] in *. cbn [List.length]. lia.
Qed.

Lemma vet_clause_ok to_ amount_ :
  clause_ok (createVetTransferClause to_ amount_)
  = isValidAddress to_ && match StringToBigInt amount_ with
                          | Some _ => true
                          | None => false
                          end.
Proof.
  unfold clause_ok, to_ok, value_ok, data_ok, createVetTransferClause.
  cbn [to value data]. rewrite andb_true_r. reflexivity.
Qed.

(** X17. A builder filled with VET transfers validates exactly when there
    is at least one transfer, every recipient is a well-formed address
    and every amount is an integer literal. *)
Theorem vet_builder_validates (transfers : list (string * string)) :
  valid (validate (vet_builder transfers)) = true
  <-> transfers <> []
      /\ forall to_ amount_,
           In (to_, amount_) transfers ->
           isValidAddress to_ = true
           /\ exists wei, StringToBigInt amount_ = Some wei.
Proof.
  pose proof (vet_builder_clauses transfers) as Hclauses.
  rewrite valid_iff_no_errors, errors_validate, vet_builder_length. split.
  - intros Herrors. apply app_eq_nil in Herrors. destruct Herrors as [Hnone Hloop].
    split.
    + destruct transfers; [ discriminate Hnone | discriminate ].
    + intros to_ amount_ Hin.
      rewrite validate_loop_clean in Hloop.
      assert (Hc : In (createVetTransferClause to_ amount_)
                      (getClauses (vet_builder transfers))).
      { rewrite Hclauses. unfold createBatchVetTransfers.
        apply (in_map (fun '(t, a) => createVetTransferClause t a) _ _ Hin). }
      unfold getClauses in Hc. apply in_map_iff in Hc.
      destruct Hc as (c & Hc & Hin').
      specialize (Hloop c Hin'). rewrite Hc, vet_clause_ok in Hloop.
      apply andb_true_iff in Hloop. destruct Hloop as [Hto Hvalue].
      split; [ exact Hto | ].
      destruct (StringToBigInt amount_) as [wei |]; [ eauto | discriminate ].
  - intros [Hne Hok].
    assert (Hloop : validate_loop 0 (vet_builder transfers) [] = []).
    { apply validate_loop_clean. intros c Hin.
      assert (Hc : In (clause c) (createBatchVetTransfers transfers)).
      { rewrite <- Hclauses. unfold getClauses. apply in_map. exact Hin. }
      unfold createBatchVetTransfers in Hc. apply in_map_iff in Hc.
      destruct Hc as ([to_ amount_] & <- & Hin').
      destruct (Hok _ _ Hin') as (Hto & wei & Hwei).
      rewrite vet_clause_ok, Hto, Hwei. reflexivity. }
    rewrite Hloop. destruct transfers; [ congruence | reflexivity ].
Qed.

(** X18. [removeClause] never fails: an index at or past the end removes
    nothing, an index inside removes that clause and closes the gap, and
    a negative index counts from the end, stopping at the first clause. *)
Theorem removeClause_bounds (clauses : list ClauseWithMeta) (index : Z) :
  let len := Z.of_nat (List.length clauses) in
  (len <= index -> removeClause clauses index = clauses)
  /\ (0 <= index < len ->
      Z.of_nat (List.length (removeClause clauses index)) = len - 1
      /\ forall j,
           nth_error (removeClause clauses index) j
           = if (j <? Z.to_nat index)%nat then nth_error clauses j
             else nth_error clauses (S j))
  /\ (index < 0 ->
      removeClause clauses index = removeClause clauses (Z.max (len + index) 0)).
Proof.
  intros len. split; [ | split ].
  - intros Hpast. unfold removeClause. fold len.
    replace (index <? 0) with false by (symmetry; apply Z.ltb_ge; lia).
    rewrite Z.min_r by lia. replace (Z.min 1 (len - len)) with 0 by lia.
    rewrite Z.add_0_r. unfold len. rewrite Nat2Z.id.
    rewrite firstn_all, skipn_all, app_nil_r. reflexivity.
  - intros Hin. unfold removeClause. fold len.
    replace (index <? 0) with false by (symmetry; apply Z.ltb_ge; lia).
    rewrite Z.min_l by lia. replace (Z.min 1 (len - index)) with 1 by lia.
    replace (Z.to_nat (index + 1)) with (S (Z.to_nat index)) by lia.
    set (i := Z.to_nat index).
    assert (Hi : (i < List.length clauses)%nat) by (unfold i, len in *; lia).
    split.
    + rewrite length_app, length_firstn, length_skipn. unfold len. lia.
    + intros j. destruct (j <? i)%nat eqn:Hj.
      * apply Nat.ltb_lt in Hj.
        rewrite nth_error_app1 by (rewrite length_firstn; lia).
        rewrite nth_error_firstn.
        replace (j <? i)%nat with true by (symmetry; apply Nat.ltb_lt; lia).
        reflexivity.
      * apply Nat.ltb_ge in Hj.
        rewrite nth_error_app2 by (rewrite length_firstn; lia).
        rewrite length_firstn, nth_error_skipn.
        f_equal. lia.
  - intros Hneg. unfold removeClause. fold len.
    replace (index <? 0) with true by (symmetry; apply Z.ltb_lt; lia).
    replace (Z.max (len + index) 0 <? 0) with false
      by (symmetry; apply Z.ltb_ge; lia).
    rewrite (Z.min_l (Z.max (len + index) 0) len) by lia. reflexivity.
Qed.

Lemma remove_first_0x_hex digits :
  all_chars is_hex_char digits = true -> remove_first_0x digits = digits.
Proof.
  induction digits as [| a rest IH]; [ reflexivity | ].
  cbn [all_chars remove_first_0x]. intros H. apply andb_true_iff in H.
  destruct H as [Ha Hrest].
  destruct (Ascii.eqb a "0" && startsWith "x" rest) eqn:Hprefix.
  - exfalso. apply andb_true_iff in Hprefix. destruct Hprefix as [_ Hx].
    destruct rest as [| b rest']; [ discriminate Hx | ].
    cbn [startsWith] in Hx. apply andb_true_iff in Hx. destruct Hx as [Hx _].
    apply Ascii.eqb_eq in Hx. subst b.
    cbn [all_chars] in Hrest. discriminate Hrest.
  - rewrite (IH Hrest). reflexivity.
Qed.

(** X19. The constructor arguments of a deployment may be given with or
    without the [0x] prefix: the clause carries the bytecode followed by
    their hex digits either way, and no recipient. *)
Theorem deploy_data_ignores_argument_prefix (clauses : list ClauseWithMeta)
  (bytecode digits value_ : string) (comment_ : option string) :
  all_chars is_hex_char digits = true ->
  addContractDeploy clauses bytecode ("0x" ++ digits) value_ comment_
  = addContractDeploy clauses bytecode digits value_ comment_
  /\ getClauses (addContractDeploy clauses bytecode digits value_ comment_)
     = (getClauses clauses
        ++ [ {| to := None; value := value_; data := bytecode ++ digits |} ])%list.
Proof.
  intros Hhex. unfold addContractDeploy, getClauses.
  rewrite (remove_first_0x_hex digits Hhex).
  split.
  - cbn [append remove_first_0x Ascii.eqb Bool.eqb startsWith andb slice_from].
    reflexivity.
  - rewrite map_app. reflexivity.
Qed.


Lemma vet_builder_validates_witness :
  [(zero_address, "1")] <> []
  /\ isValidAddress zero_address = true
  /\ StringToBigInt "1" = Some 1
  /\ valid (validate (vet_builder [(zero_address, "1")])) = true.
Proof.
  split; [ discriminate | ]. split; [ reflexivity | ]. split; [ reflexivity | ].
  apply (proj2 (vet_builder_validates [(zero_address, "1")])).
  split; [ discriminate | ].
  intros to_ amount_ [[= <- <-] | []]. split; [ reflexivity | ].
  exists 1. reflexivity.
Defined.

(** Two clauses: index 5 removes nothing, index 0 the first, index -1
    the last. *)
Lemma removeClause_bounds_witness :
  let clauses := [sample (Some zero_address) "1" "0x"; sample None "2" "0x00"] in
  Z.of_nat (List.length clauses) <= 5
  /\ 0 <= 0 < Z.of_nat (List.length clauses)
  /\ -1 < 0
  /\ removeClause clauses 5 = clauses
  /\ Z.of_nat (List.length (removeClause clauses 0)) = 1
  /\ removeClause clauses (-1) = removeClause clauses 1.
Proof.
  intros clauses.
  destruct (removeClause_bounds clauses 5) as (Hpast & _ & _).
  destruct (removeClause_bounds clauses 0) as (_ & Hinside & _).
  destruct (removeClause_bounds clauses (-1)) as (_ & _ & Hnegative).
  split; [ simpl; lia | ]. split; [ simpl; lia | ]. split; [ lia | ].
  split; [ apply Hpast; simpl; lia | ].
  split; [ apply Hinside; simpl; lia | ].
  apply Hnegative. lia.
Defined.

Lemma deploy_data_ignores_argument_prefix_witness :
  all_chars is_hex_char "00ff" = true
  /\ addContractDeploy [] "0x6080" "0x00ff" "0" None
     = addContractDeploy [] "0x6080" "00ff" "0" None.
Proof.
  split; [ reflexivity | ].
  exact (proj1 (deploy_data_ignores_argument_prefix [] "0x6080" "00ff" "0" None
                  eq_refl)).
Defined.
End ClauseBuilderOpsFacts.

(** ** Hexadecimal amounts *)
Module HexFacts.
Import JS Observe ClauseBuilder UnitConverter VetTransfers.
Import JSFacts DigitFacts UnitConverterFacts ConverterFacts NonceMoreFacts.

Lemma hex_char_not_space c : is_hex_char c = true -> is_space c = false.
Proof.
  intros H. destruct (is_space c) eqn:E; [ exfalso | reflexivity ].
  unfold is_hex_char, is_space in *. set (n := code c) in *.
  rewrite !orb_true_iff, !andb_true_iff, !Z.leb_le in H.
  rewrite !orb_true_iff, !andb_true_iff, !Z.leb_le, !Z.eqb_eq in E.
  lia.
Qed.

Lemma hex_char_not_dot c : is_hex_char c = true -> Ascii.eqb c "." = false.
Proof.
  intros H. destruct (Ascii.eqb_spec c "."); [ subst; discriminate | reflexivity ].
Qed.

Lemma digit_char_is_hex d : 0 <= d < 16 -> is_hex_char (digit_char d) = true.
Proof.
  intros H.
  assert (Hd : In d [0; 1; 2; 3; 4; 5; 6; 7; 8; 9; 10; 11; 12; 13; 14; 15])
    by (cbn [In]; lia).
  cbn [In] in Hd.
  repeat (destruct Hd as [<- | Hd]; [ reflexivity | ]). contradiction.
Qed.

Lemma trim_end_no_space t :
  all_chars (fun c => negb (is_space c)) t = true -> trim_end t = t.
Proof.
  induction t as [| c t IH]; [ reflexivity | ].
  cbn [all_chars trim_end]. intros H. apply andb_true_iff in H.
  destruct H as [Hc Ht]. rewrite (IH Ht).
  destruct t; [ | reflexivity ].
  apply negb_true_iff in Hc. rewrite Hc. reflexivity.
Qed.

Lemma trim_hex s : all_chars is_hex_char s = true -> trim ("0x" ++ s) = ("0x" ++ s)%string.
Proof.
  intros H. unfold trim.
  change (trim_start ("0x" ++ s)) with ("0x" ++ s)%string.
  apply trim_end_no_space. cbn [append all_chars].
  change (negb (is_space "0")) with true. change (negb (is_space "x")) with true.
  cbn [andb].
  induction s as [| c s IH]; [ reflexivity | ].
  cbn [all_chars] in *. apply andb_true_iff in H. destruct H as [Hc Hs].
  rewrite (hex_char_not_space _ Hc), (IH Hs). reflexivity.
Qed.

Lemma includes_hex s : all_chars is_hex_char s = true -> includes "." s = false.
Proof.
  induction s as [| c s IH]; [ reflexivity | ].
  cbn [all_chars includes]. intros H. apply andb_true_iff in H. destruct H as [Hc Hs].
  rewrite (hex_char_not_dot _ Hc), (IH Hs). reflexivity.
Qed.

Lemma to_digits_hex_shape fuel : forall n acc,
  0 <= n ->
  exists p, to_digits fuel 16 n acc = (p ++ acc)%string
            /\ all_chars is_hex_char p = true
            /\ (fuel <> O -> p <> EmptyString).
Proof.
  induction fuel as [| fuel IH]; intros n acc Hn.
  - exists EmptyString. repeat split; congruence.
  - cbn [to_digits].
    assert (Hmod : 0 <= n mod 16 < 16) by (apply Z.mod_pos_bound; lia).
    destruct (n <? 16).
    + exists (String (digit_char (n mod 16)) EmptyString). repeat split.
      * cbn [all_chars]. rewrite digit_char_is_hex by assumption. reflexivity.
      * discriminate.
    + destruct (IH (n / 16) (String (digit_char (n mod 16)) acc)) as (p & Hp & Hd & _).
      { apply Z.div_pos; lia. }
      exists (p ++ String (digit_char (n mod 16)) EmptyString)%string.
      repeat split.
      * rewrite Hp, append_assoc. reflexivity.
      * rewrite all_chars_append, Hd. cbn [all_chars].
        rewrite digit_char_is_hex by assumption. reflexivity.
      * intros _. destruct p; discriminate.
Qed.

Lemma parse_to_digits_hex fuel : forall n acc,
  0 <= n < 16 ^ Z.of_nat fuel ->
  parse_digits 16 (to_digits fuel 16 n acc) 0 = parse_digits 16 acc n.
Proof.
  induction fuel as [| fuel IH]; intros n acc Hn.
  - cbn in Hn. assert (n = 0) by lia. subst. reflexivity.
  - cbn [to_digits].
    assert (Hmod : 0 <= n mod 16 < 16) by (apply Z.mod_pos_bound; lia).
    destruct (n <? 16) eqn:Hlt.
    + apply Z.ltb_lt in Hlt.
      cbn [parse_digits]. rewrite (digit_in_16_digit_char _ Hmod).
      rewrite Z.mod_small by lia. reflexivity.
    + apply Z.ltb_ge in Hlt.
      rewrite IH.
      * cbn [parse_digits]. rewrite (digit_in_16_digit_char _ Hmod).
        f_equal. rewrite (Z.div_mod n 16) at 3 by lia. lia.
      * rewrite Nat2Z.inj_succ, Z.pow_succ_r in Hn by lia.
        split; [ apply Z.div_pos; lia | apply Z.div_lt_upper_bound; lia ].
Qed.

Lemma below_pow16_log2 n : 0 <= n -> n < 16 ^ Z.of_nat (S (Z.to_nat (Z.log2 n))).
Proof.
  intros Hn.
  rewrite Nat2Z.inj_succ, Z2Nat.id by apply Z.log2_nonneg.
  destruct (Z.eq_dec n 0) as [-> | Hnz]; [ reflexivity | ].
  assert (H2 : n < 2 ^ Z.succ (Z.log2 n)) by (apply Z.log2_spec; lia).
  assert (H16 : 2 ^ Z.succ (Z.log2 n) <= 16 ^ Z.succ (Z.log2 n)).
  { apply Z.pow_le_mono_l. lia. }
  lia.
Qed.

(** The hex literal of a non-negative integer: what [BigInt] reads in
    it, and that it has no decimal point. *)
Lemma StringToBigInt_hex w :
  0 <= w ->
  StringToBigInt ("0x" ++ toString_radix 16 w) = Some w
  /\ includes "." ("0x" ++ toString_radix 16 w) = false.
Proof.
  intros Hw. unfold toString_radix.
  replace (w <? 0) with false by (symmetry; apply Z.ltb_ge; lia).
  unfold nat_toString.
  destruct (to_digits_hex_shape (S (Z.to_nat (Z.log2 w))) w EmptyString Hw)
    as (p & Hp & Hd & Hne).
  pose proof (parse_to_digits_hex (S (Z.to_nat (Z.log2 w))) w EmptyString
                (conj Hw (below_pow16_log2 w Hw))) as Hparse.
  rewrite Hp, append_nil_r in *. specialize (Hne ltac:(discriminate)).
  split.
  - unfold StringToBigInt. rewrite (trim_hex p Hd). cbn [append].
    change (Ascii.eqb "0" "+") with false. change (Ascii.eqb "0" "-") with false.
    cbv beta iota.
    change (prefixed "0" (String "x" p)) with (Some (16, p)).
    cbv beta iota. destruct p; [ congruence | exact Hparse ].
  - cbn [append includes]. change (Ascii.eqb "0" ".") with false.
    change (Ascii.eqb "x" ".") with false. cbn [orb]. apply includes_hex. exact Hd.
Qed.

Section Engine.
Variable pow10_inexact : nat -> Number.

(** X26. An amount the node reports in hex is converted like the same
    amount in decimal: from wei, the hex literal of a non-negative
    integer and its decimal digits give the same result in every unit. *)
Theorem hex_amounts_convert_like_decimal (w : Z) (unit : string) :
  0 <= w ->
  falsy (lookup (toLowerCase unit)) = false ->
  convertUnits pow10_inexact (VString ("0x" ++ toString_radix 16 w)) "wei" unit
  = convertUnits pow10_inexact (VString (toString w)) "wei" unit.
Proof.
  intros Hw Hunit.
  destruct (StringToBigInt_hex w Hw) as [Hparse Hdot].
  rewrite (whole_through_wei pow10_inexact _ w "wei" unit 1 Hdot Hparse eq_refl
             ltac:(lia) Hunit).
  rewrite (whole_through_wei pow10_inexact (toString w) w "wei" unit 1
             (includes_toString w Hw) (StringToBigInt_toString w Hw) eq_refl
             ltac:(lia) Hunit).
  reflexivity.
Qed.

Lemma clause_value_reads_back amount_ w :
  0 <= w ->
  vetToWei pow10_inexact (VString amount_) = Ok (toString w) ->
  exists v, clause_value pow10_inexact amount_ = Ok v
            /\ StringToBigInt v = Some w.
Proof.
  intros Hw Hwei. unfold clause_value. rewrite Hwei. cbn [rbind BigInt].
  rewrite (StringToBigInt_toString w Hw). cbn [rbind].
  eexists. split; [ reflexivity | apply (StringToBigInt_hex w Hw) ].
Qed.

(** X27. A multi-transfer without recipients is refused; otherwise,
    when every amount converts to a non-negative integer of wei, there
    is one clause per recipient, in order, to the recipient's address,
    without data, whose hex value [BigInt] reads as that integer of wei;
    and the gas figured for [n] clauses is [12000 + 9000 n]. *)
Theorem multi_transfer_clauses (recipientList : list (string * string)) :
  multiTransfer_clauses pow10_inexact []
  = Throw (JsError "At least one recipient is required")
  /\ (recipientList <> [] ->
      (forall address_ amount_,
         In (address_, amount_) recipientList ->
         exists w, 0 <= w
                   /\ vetToWei pow10_inexact (VString amount_) = Ok (toString w)) ->
      exists clauses,
        multiTransfer_clauses pow10_inexact recipientList = Ok clauses
        /\ Forall2 (fun '(address_, amount_) c =>
                      to c = Some address_ /\ data c = "0x"
                      /\ exists w,
                           vetToWei pow10_inexact (VString amount_) = Ok (toString w)
                           /\ StringToBigInt (value c) = Some w)
                   recipientList clauses
        /\ totalGas clauses = 12000 + 9000 * Z.of_nat (List.length recipientList)).
Proof.
  split; [ reflexivity | ]. intros Hne Hamounts.
  assert (Hmap : exists clauses,
            map_result (fun '(address_, amount_) =>
                          v <- clause_value pow10_inexact amount_ ;;
                          Ok {| to := Some address_; value := v; data := "0x" |})
                       recipientList = Ok clauses
            /\ Forall2 (fun '(address_, amount_) c =>
                          to c = Some address_ /\ data c = "0x"
                          /\ exists w,
                               vetToWei pow10_inexact (VString amount_)
                               = Ok (toString w)
                               /\ StringToBigInt (value c) = Some w)
                       recipientList clauses).
  { clear Hne. induction recipientList as [| [address_ amount_] rest IH].
    - exists []. split; [ reflexivity | constructor ].
    - destruct (Hamounts address_ amount_ (or_introl eq_refl)) as (w & Hw & Hwei).
      destruct (clause_value_reads_back amount_ w Hw Hwei) as (v & Hv & Hback).
      assert (Hrest_amounts : forall a m, In (a, m) rest ->
                exists w0, 0 <= w0
                           /\ vetToWei pow10_inexact (VString m) = Ok (toString w0)).
      { intros a m Hin. apply (Hamounts a m). right. exact Hin. }
      destruct (IH Hrest_amounts) as (clauses & Hrest & Hall).
      eexists. cbn [map_result]. rewrite Hv. cbn [rbind]. rewrite Hrest. cbn [rbind].
      split; [ reflexivity | ].
      constructor; [ | exact Hall ].
      cbn [to data value]. repeat split. exists w. split; assumption. }
  destruct Hmap as (clauses & Hrun & Hall).
  exists clauses. split; [ | split; [ exact Hall | ] ].
  - unfold multiTransfer_clauses.
    destruct recipientList; [ congruence | exact Hrun ].
  - unfold totalGas. rewrite <- (Forall2_length Hall). lia.
Qed.

End Engine.

(** Two wei amounts as the node reports them. *)
Lemma hex_amounts_convert_like_decimal_witness :
  0 <= 1500000000000000000
  /\ falsy (lookup (toLowerCase "vet")) = false
  /\ convertUnits (fun _ => NaN) (VString "0x14d1120d7b160000") "wei" "vet"
     = Ok "1.5".
Proof.
  split; [ lia | ]. split; [ reflexivity | ].
  exact (hex_amounts_convert_like_decimal (fun _ => NaN) 1500000000000000000 "vet"
           ltac:(lia) eq_refl).
Defined.

(** One and a half VET to the zero address. *)
Lemma multi_transfer_clauses_witness :
  [(Samples.zero_address, "1.5")] <> []
  /\ vetToWei (fun _ => NaN) (VString "1.5") = Ok (toString 1500000000000000000)
  /\ multiTransfer_clauses (fun _ => NaN) [(Samples.zero_address, "1.5")]
     = Ok [ {| to := Some Samples.zero_address; value := "0x14d1120d7b160000";
               data := "0x" |} ].
Proof.
  split; [ discriminate | ]. split; [ reflexivity | ].
  destruct (proj2 (multi_transfer_clauses (fun _ => NaN)
                     [(Samples.zero_address, "1.5")]))
    as (clauses & Hrun & _).
  - discriminate.
  - intros address_ amount_ [[= <- <-] | []].
    exists 1500000000000000000. split; [ lia | reflexivity ].
  - rewrite Hrun. apply f_equal.
    assert (Hsame : Ok clauses
                    = multiTransfer_clauses (fun _ => NaN)
                        [(Samples.zero_address, "1.5")])
      by (symmetry; exact Hrun).
    vm_compute in Hsame. injection Hsame as ->. reflexivity.
Defined.

End HexFacts.

(** ** The main node's loop over the input items *)
Module ExecuteFacts.
Import JS VechainNode.

Section Execute.
Context {World Json : Type}.
Variable executeAccountOperation : string -> nat -> @Eff.M World Json.
Variable executeTransactionOperation : string -> nat -> @Eff.M World Json.
Variable executeVetOperation : string -> nat -> @Eff.M World Json.
Variable executeVthoOperation : string -> nat -> @Eff.M World Json.
Variable executeVip180Operation : string -> nat -> @Eff.M World Json.
Variable executeVip181Operation : string -> nat -> @Eff.M World Json.
Variable executeContractOperation : string -> nat -> @Eff.M World Json.
Variable executeBlockOperation : string -> nat -> @Eff.M World Json.
Variable executeUtilityOperation : string -> nat -> @Eff.M World Json.
Variable message : exn -> string.
Variable resource operation : string.

#[local] Abbreviation run_operation :=
  (run_operation executeAccountOperation executeTransactionOperation
     executeVetOperation executeVthoOperation executeVip180Operation
     executeVip181Operation executeContractOperation executeBlockOperation
     executeUtilityOperation resource operation).
#[local] Abbreviation for_items continueOnFail :=
  (for_items executeAccountOperation executeTransactionOperation
     executeVetOperation executeVthoOperation executeVip180Operation
     executeVip181Operation executeContractOperation executeBlockOperation
     executeUtilityOperation message continueOnFail resource operation).
#[local] Abbreviation execute continueOnFail :=
  (execute executeAccountOperation executeTransactionOperation
     executeVetOperation executeVthoOperation executeVip180Operation
     executeVip181Operation executeContractOperation executeBlockOperation
     executeUtilityOperation message continueOnFail resource operation).

Lemma for_items_continue count : forall i returnData w,
  exists out w',
    for_items true count i returnData w = (Ok (returnData ++ out)%list, w')
    /\ map pairedItem out = seq i count.
Proof.
  induction count as [| count IH]; intros i returnData w.
  - exists [], w. cbn. rewrite app_nil_r. split; reflexivity.
  - cbn [VechainNode.for_items].
    destruct (run_operation i w) as [[result | error] w1].
    + destruct (IH (S i) (returnData ++ [ {| json := Result result; pairedItem := i |} ])%list w1)
        as (out & w' & Hrun & Hpairs).
      exists ({| json := Result result; pairedItem := i |} :: out), w'.
      rewrite Hrun, <- app_assoc. cbn [app map pairedItem seq].
      rewrite Hpairs. split; reflexivity.
    + destruct (IH (S i) (returnData
                          ++ [ {| json := Failed (message error); pairedItem := i |} ])%list w1)
        as (out & w' & Hrun & Hpairs).
      exists ({| json := Failed (message error); pairedItem := i |} :: out), w'.
      rewrite Hrun, <- app_assoc. cbn [app map pairedItem seq].
      rewrite Hpairs. split; reflexivity.
Qed.

(** X20. Under [continueOnFail] the node never throws: it returns one
    item for each input item, in order, each paired with its input. *)
Theorem continue_on_fail_answers_every_item (items : nat) (w : World) :
  exists out w',
    execute true items w = (Ok out, w')
    /\ map pairedItem out = seq 0 items
    /\ List.length out = items.
Proof.
  destruct (for_items_continue items 0 [] w) as (out & w' & Hrun & Hpairs).
  exists out, w'. split; [ exact Hrun | ]. split; [ exact Hpairs | ].
  rewrite <- (length_map pairedItem), Hpairs. apply length_seq.
Qed.

Lemma for_items_stop count : forall i returnData w e w',
  for_items false count i returnData w = (Throw e, w') ->
  exists k done wk,
    (k < count)%nat
    /\ for_items false k i returnData w = (Ok done, wk)
    /\ run_operation (i + k) wk = (Throw e, w').
Proof.
  induction count as [| count IH]; intros i returnData w e w' Hrun.
  - discriminate Hrun.
  - cbn [VechainNode.for_items] in Hrun.
    destruct (run_operation i w) as [[result | error] w1] eqn:Hitem.
    + destruct (IH _ _ _ _ _ Hrun) as (k & done & wk & Hk & Hdone & Hfail).
      exists (S k), done, wk. split; [ lia | ].
      cbn [VechainNode.for_items]. rewrite Hitem. split; [ exact Hdone | ].
      replace (i + S k)%nat with (S i + k)%nat by lia. exact Hfail.
    + injection Hrun as <- <-.
      exists O, returnData, w. split; [ lia | ]. split; [ reflexivity | ].
      rewrite Nat.add_0_r. exact Hitem.
Qed.

Lemma for_items_results count : forall i returnData w out w',
  for_items false count i returnData w = (Ok out, w') ->
  exists results,
    out = (returnData ++ results)%list
    /\ map pairedItem results = seq i count
    /\ Forall (fun item => exists result, json item = Result result) results.
Proof.
  induction count as [| count IH]; intros i returnData w out w' Hrun.
  - injection Hrun as <- _. exists []. rewrite app_nil_r. repeat split. constructor.
  - cbn [VechainNode.for_items] in Hrun.
    destruct (run_operation i w) as [[result | error] w1]; [ | discriminate Hrun ].
    destruct (IH _ _ _ _ _ Hrun) as (results & -> & Hpairs & Hall).
    exists ({| json := Result result; pairedItem := i |} :: results).
    rewrite <- app_assoc. cbn [app map pairedItem seq]. rewrite Hpairs.
    repeat split. constructor; [ cbn; eauto | exact Hall ].
Qed.

(** X21. Without [continueOnFail] the node throws what the first failing
    item throws, in the world as the items before it left it: no later
    item is run; and when it returns, every item has a result. *)
Theorem first_failure_stops_the_items (items : nat) (w : World) :
  (forall e w',
     execute false items w = (Throw e, w') ->
     exists k done wk,
       (k < items)%nat
       /\ execute false k w = (Ok done, wk)
       /\ run_operation k wk = (Throw e, w'))
  /\ (forall out w',
        execute false items w = (Ok out, w') ->
        map pairedItem out = seq 0 items
        /\ Forall (fun item => exists result, json item = Result result) out).
Proof.
  split.
  - intros e w' Hrun. apply for_items_stop in Hrun. exact Hrun.
  - intros out w' Hrun. apply for_items_results in Hrun.
    destruct Hrun as (results & -> & Hpairs & Hall). split; assumption.
Qed.

Lemma for_items_unknown count :
  (forall j w0, run_operation j w0
                = (Throw (JsError ("Unknown resource: " ++ resource)), w0)) ->
  forall i returnData w,
  for_items true count i returnData w
  = (Ok (returnData
         ++ map (fun j => {| json := Failed (message (JsError ("Unknown resource: "
                                                               ++ resource)));
                             pairedItem := j |})
              (seq i count))%list, w).
Proof.
  intros Hunknown. induction count as [| count IH]; intros i returnData w.
  - cbn. rewrite app_nil_r. reflexivity.
  - cbn [VechainNode.for_items]. rewrite Hunknown. cbv beta iota.
    rewrite IH, <- app_assoc. reflexivity.
Qed.

(** X22. A resource the node does not know runs no operation at all:
    under [continueOnFail] every item is answered with the same
    "Unknown resource" message and the world is left as it was;
    otherwise the first item throws it. *)
Theorem unknown_resource_runs_nothing (items : nat) (w : World) :
  ~ In resource ["account"; "transaction"; "vet"; "vtho"; "vip180"; "vip181";
                 "contract"; "block"; "utility"] ->
  execute true items w
  = (Ok (map (fun j => {| json := Failed (message (JsError ("Unknown resource: "
                                                            ++ resource)));
                          pairedItem := j |})
           (seq 0 items)), w)
  /\ execute false (S items) w
     = (Throw (JsError ("Unknown resource: " ++ resource)), w).
Proof.
  intros Hnot.
  assert (Hunknown : forall j w0,
            run_operation j w0
            = (Throw (JsError ("Unknown resource: " ++ resource)), w0)).
  { intros j w0. unfold VechainNode.run_operation.
    repeat match goal with
    | |- context [String.eqb resource ?name] =>
        destruct (String.eqb_spec resource name) as [E | _];
        [ exfalso; apply Hnot; rewrite E; cbn [In]; tauto | ]
    end.
    reflexivity. }
  split.
  - unfold VechainNode.execute. rewrite (for_items_unknown items Hunknown 0 [] w).
    reflexivity.
  - unfold VechainNode.execute. cbn [VechainNode.for_items].
    rewrite Hunknown. reflexivity.
Qed.

End Execute.

(** Three items of which the second fails, in a world that counts the
    operations that ran. *)
Lemma first_failure_stops_the_items_witness :
  let operation_ (name : string) (i : nat) (w : nat) : result nat * nat :=
    if (i =? 1)%nat then (Throw TypeError, S w) else (Ok i, S w) in
  execute operation_ operation_ operation_ operation_ operation_ operation_
    operation_ operation_ operation_ (fun _ => EmptyString) false "vet" "transfer"
    3 0%nat
  = (Throw TypeError, 2%nat)
  /\ exists k done wk,
       (k < 3)%nat
       /\ execute operation_ operation_ operation_ operation_ operation_ operation_
            operation_ operation_ operation_ (fun _ => EmptyString) false "vet"
            "transfer" k 0%nat
          = (Ok done, wk)
       /\ operation_ "transfer" k wk = (Throw TypeError, 2%nat).
Proof.
  intros operation_. split; [ reflexivity | ].
  exact (proj1 (first_failure_stops_the_items operation_ operation_ operation_
                  operation_ operation_ operation_ operation_ operation_
                  operation_ (fun _ => EmptyString) "vet" "transfer" 3 0%nat)
               TypeError 2%nat eq_refl).
Defined.

Lemma unknown_resource_runs_nothing_witness :
  let operation_ (name : string) (i : nat) (w : nat) : result nat * nat :=
    (Ok i, S w) in
  ~ In "nft" ["account"; "transaction"; "vet"; "vtho"; "vip180"; "vip181";
              "contract"; "block"; "utility"]
  /\ execute operation_ operation_ operation_ operation_ operation_ operation_
       operation_ operation_ operation_ (fun _ => "?") false "nft" "mint" 1 0%nat
     = (Throw (JsError "Unknown resource: nft"), 0%nat).
Proof.
  intros operation_.
  assert (Hnot : ~ In "nft" ["account"; "transaction"; "vet"; "vtho"; "vip180";
                             "vip181"; "contract"; "block"; "utility"]).
  { cbn [In]. intros H.
    repeat (destruct H as [H | H]; [ discriminate H | ]). exact H. }
  split; [ exact Hnot | ].
  exact (proj2 (unknown_resource_runs_nothing operation_ operation_ operation_
                  operation_ operation_ operation_ operation_ operation_
                  operation_ (fun _ => "?") "nft" "mint" 0 0%nat Hnot)).
Defined.
End ExecuteFacts.

(** ** Fees and energy *)
Module EnergyFacts.
Import JS Observe UnitConverter Energy JSFacts DigitFacts.

Lemma round53_small m e : Z.abs m < 2 ^ 53 -> round53 m e = Finite m e.
Proof.
  intros Hm. unfold round53.
  assert (Hk : Z.log2 (Z.abs m) + 1 - 53 <= 0).
  { destruct (Z.eq_dec (Z.abs m) 0) as [-> | Hnz]; [ cbn; lia | ].
    assert (Z.log2 (Z.abs m) < 53) by (apply Z.log2_lt_pow2; lia). lia. }
  apply Z.leb_le in Hk. rewrite Hk. reflexivity.
Qed.

Lemma BigInt_of_int z : BigInt (VNumber (of_int z)) = Ok z.
Proof.
  unfold of_int. cbn [BigInt NumberToBigInt].
  change (0 <=? 0) with true. cbv beta iota.
  change (2 ^ 0) with 1. rewrite Z.mul_1_r. reflexivity.
Qed.

(** X23. Over a whole number of seconds the VTHO a holding generates is
    the holding times [5e-9] a second, rounded down to a whole unit; a
    day gives [0.000432] times the holding. *)
Theorem vtho_generated_over_whole_seconds (vet seconds : Z) :
  0 <= vet -> 0 <= seconds -> 5 * seconds < 2 ^ 53 ->
  calculateVthoGenerated (toString vet) (of_int seconds)
  = Ok (toString (vet * (5 * seconds) / 10 ^ 9))
  /\ calculateVthoPerDay (toString vet)
     = Ok (toString (vet * 432 / 1000000)).
Proof.
  intros Hvet Hs Hsmall.
  assert (Hrun : forall s, 0 <= s -> 5 * s < 2 ^ 53 ->
            calculateVthoGenerated (toString vet) (of_int s)
            = Ok (toString (vet * (5 * s) / 10 ^ 9))).
  { intros s Hs0 Hs53. unfold calculateVthoGenerated. cbn [BigInt].
    rewrite (StringToBigInt_toString vet Hvet). cbn [rbind].
    unfold of_int at 1 2, mul. rewrite round53_small by (rewrite Z.abs_eq; lia).
    unfold floor_to_BigInt. cbn [floor Z.add]. change (0 <=? 0) with true.
    cbv beta iota. change (2 ^ 0) with 1. cbn [rbind].
    fold (BigInt (VNumber (of_int (10 ^ 9)))). rewrite BigInt_of_int. cbn [rbind].
    unfold big_div. change (10 ^ 9 =? 0) with false. cbv beta iota. cbn [rbind].
    rewrite Z.quot_div_nonneg by nia.
    f_equal. f_equal. f_equal. lia. }
  split; [ apply Hrun; assumption | ].
  unfold calculateVthoPerDay, SECONDS_PER_DAY. rewrite Hrun by lia.
  f_equal. f_equal.
  replace (vet * (5 * 86400)) with (vet * 432 * 1000) by lia.
  change (10 ^ 9) with (1000000 * 1000).
  apply Z.div_mul_cancel_r; lia.
Qed.

(** X24. The fee estimate of the energy calculator and the cost computed
    by the utility operation agree at coefficient 0 only: above it the
    calculator scales the base price by [coef / 128], the operation by
    [coef / 255]. *)
Theorem fee_estimators_disagree (gas coef : Z) :
  0 < gas < 2 ^ 53 -> 0 <= coef <= 255 ->
  exists calculator operation,
    estimateTransactionCost (of_int gas) (of_int coef) = Ok (toString calculator)
    /\ calculateVthoCost (of_int gas) (of_int coef)
       = Ok (toString (10 ^ 15 + 10 ^ 15 * coef / 255), toString operation)
    /\ calculator = gas * (10 ^ 15 + coef * 7812500000000)
    /\ operation = gas * (10 ^ 15 + 10 ^ 15 * coef / 255)
    /\ (coef = 0 -> calculator = operation)
    /\ (0 < coef -> operation < calculator).
Proof.
  intros Hgas Hcoef.
  exists (gas * (10 ^ 15 + coef * 7812500000000)),
         (gas * (10 ^ 15 + 10 ^ 15 * coef / 255)).
  assert (Hextra : 10 ^ 15 * coef / 255 <= coef * 3921568627451).
  { apply Z.div_le_upper_bound; lia. }
  assert (Hextra0 : 0 <= 10 ^ 15 * coef / 255) by (apply Z.div_pos; lia).
  split; [ | split; [ | split; [ reflexivity | split; [ reflexivity | split ] ] ] ].
  - unfold estimateTransactionCost.
    change (BigInt (VString "1000000000000000")) with (Ok (10 ^ 15) : result Z).
    cbn [rbind].
    assert (Hsum : add (of_int 128) (of_int coef) = of_int (128 + coef)).
    { unfold add, of_int. change (Z.min 0 0) with 0. change (0 - 0) with 0.
      change (2 ^ 0) with 1. rewrite !Z.mul_1_r.
      apply round53_small. rewrite Z.abs_eq; lia. }
    rewrite Hsum. rewrite !BigInt_of_int. cbn [rbind].
    unfold big_div. change (128 =? 0) with false. cbv beta iota. cbn [rbind].
    f_equal. f_equal.
    replace (10 ^ 15 * (128 + coef)) with ((10 ^ 15 + coef * 7812500000000) * 128)
      by lia.
    rewrite Z.quot_mul by lia. ring.
  - unfold calculateVthoCost. rewrite !BigInt_of_int. cbn [rbind].
    unfold big_div. change (255 =? 0) with false. cbv beta iota. cbn [rbind].
    rewrite Z.quot_div_nonneg by lia. reflexivity.
  - intros ->. reflexivity.
  - intros Hpos. apply Z.mul_lt_mono_pos_l; lia.
Qed.


(** A thousand VET over an hour. *)
Lemma vtho_generated_over_whole_seconds_witness :
  0 <= 1000 * 10 ^ 18 /\ 0 <= 3600 /\ 5 * 3600 < 2 ^ 53
  /\ calculateVthoGenerated (toString (1000 * 10 ^ 18)) (of_int 3600)
     = Ok "18000000000000000".
Proof.
  split; [ lia | ]. split; [ lia | ]. split; [ lia | ].
  exact (proj1 (vtho_generated_over_whole_seconds (1000 * 10 ^ 18) 3600
                  ltac:(lia) ltac:(lia) ltac:(lia))).
Defined.

(** 21000 gas at coefficient 128. *)
Lemma fee_estimators_disagree_witness :
  0 < 21000 < 2 ^ 53 /\ 0 <= 128 <= 255
  /\ estimateTransactionCost (of_int 21000) (of_int 128) = Ok "42000000000000000000"
  /\ calculateVthoCost (of_int 21000) (of_int 128)
     = Ok ("1501960784313725", "31541176470588225000").
Proof.
  split; [ lia | ]. split; [ lia | ].
  destruct (fee_estimators_disagree 21000 128 ltac:(lia) ltac:(lia))
    as (calculator & operation & Hc & Ho & -> & -> & _).
  split; [ exact Hc | exact Ho ].
Defined.
End EnergyFacts.

(** ** Chain tags *)
Module ChainTagFacts.
Import JS ChainTags.

Lemma own_cases (network : string) :
  (network = "mainnet" /\ own network NETWORKS = own "mainnet" NETWORKS)
  \/ (network = "testnet" /\ own network NETWORKS = own "testnet" NETWORKS)
  \/ (network = "solo" /\ own network NETWORKS = own "solo" NETWORKS)
  \/ (network <> "mainnet" /\ network <> "testnet" /\ network <> "solo"
      /\ own network NETWORKS = None).
Proof.
  unfold NETWORKS. cbn [own].
  rewrite (String.eqb_sym "mainnet"), (String.eqb_sym "testnet"),
    (String.eqb_sym "solo").
  destruct (String.eqb_spec network "mainnet") as [-> | Hm]; [ left; split; reflexivity | ].
  destruct (String.eqb_spec network "testnet") as [-> | Ht];
    [ right; left; split; reflexivity | ].
  destruct (String.eqb_spec network "solo") as [-> | Hs];
    [ right; right; left; split; reflexivity | ].
  right; right; right. repeat split; assumption.
Qed.

(** X25. A client exists for the three networks of the table, where
    its chain tag and the operations' own helper agree, and for
    ["custom"] with a URL, where its tag is 0 and the helper answers
    mainnet's 74.  For any other network name the constructor throws,
    at [getChainTag] or at [getNodeUrl], while the helper still answers
    mainnet's tag: ["custom"] without a URL and a name that is unknown
    give "Unknown network: ...", a name inherited from
    [Object.prototype] a TypeError. *)
Theorem chain_tag_of_unknown_network (network : string)
  (customUrl : option string) :
  (forall config,
     own network NETWORKS = Some config ->
     new_ThorClient network customUrl
     = Ok {| this_client_baseURL := hd_error (nodeUrls config);
             this_network := network;
             this_chainTag := Some (chainTag config) |}
     /\ local_getChainTag network = chainTag config)
  /\ (own network NETWORKS = None ->
      local_getChainTag network = 74
      /\ (network = "custom" ->
          TransactionOps.truthy_opt customUrl = true ->
          new_ThorClient network customUrl
          = Ok {| this_client_baseURL := customUrl;
                  this_network := "custom";
                  this_chainTag := Some 0 |})
      /\ (network = "custom" ->
          TransactionOps.truthy_opt customUrl = false ->
          new_ThorClient network customUrl
          = Throw (JsError "Unknown network: custom"))
      /\ (network <> "custom" ->
          new_ThorClient network customUrl
          = Throw (if existsb (String.eqb network)
                        UnitConverter.OBJECT_PROTOTYPE_KEYS
                   then TypeError
                   else JsError ("Unknown network: " ++ network)))
      /\ (forall tag,
            client_chainTag network customUrl = Ok tag ->
            network = "custom" /\ tag = Some 0)).
Proof.
  assert (Hcustom : forall url,
            TransactionOps.truthy_opt url = true ->
            new_ThorClient "custom" url
            = Ok {| this_client_baseURL := url; this_network := "custom";
                    this_chainTag := Some 0 |}).
  { intros url Hurl. unfold new_ThorClient, getNodeUrl. cbn [String.eqb Ascii.eqb Bool.eqb].
    rewrite Hurl. reflexivity. }
  assert (Hbare : forall url,
            TransactionOps.truthy_opt url = false ->
            new_ThorClient "custom" url = Throw (JsError "Unknown network: custom")).
  { intros url Hurl. unfold new_ThorClient, getNodeUrl. cbn [String.eqb Ascii.eqb Bool.eqb].
    rewrite Hurl. reflexivity. }
  assert (Hother : own network NETWORKS = None -> network <> "custom" ->
            new_ThorClient network customUrl
            = Throw (if existsb (String.eqb network)
                          UnitConverter.OBJECT_PROTOTYPE_KEYS
                     then TypeError
                     else JsError ("Unknown network: " ++ network))).
  { intros Hnone Hnot. unfold new_ThorClient, getNodeUrl, getChainTag, lookup.
    apply String.eqb_neq in Hnot. rewrite Hnot, Hnone. cbn [andb].
    destruct (existsb (String.eqb network) UnitConverter.OBJECT_PROTOTYPE_KEYS);
      reflexivity. }
  destruct (own_cases network)
    as [[-> Hown] | [[-> Hown] | [[-> Hown] | (Hm & Ht & Hs & Hown)]]].
  1-3: split; [ intros config [= <-]; split; reflexivity | discriminate ].
  split; [ rewrite Hown; discriminate | ]. intros _.
  split.
  { unfold local_getChainTag.
    apply String.eqb_neq in Hm, Ht, Hs. rewrite Hm, Ht, Hs. reflexivity. }
  split; [ intros -> Hurl; apply Hcustom; exact Hurl | ].
  split; [ intros -> Hurl; apply Hbare; exact Hurl | ].
  split; [ intros Hnot; apply Hother; assumption | ].
  intros tag Htag. unfold client_chainTag in Htag.
  destruct (String.eqb_spec network "custom") as [-> | Hnot].
  - split; [ reflexivity | ].
    destruct (TransactionOps.truthy_opt customUrl) eqn:Hurl.
    + rewrite (Hcustom _ Hurl) in Htag. cbn in Htag. congruence.
    + rewrite (Hbare _ Hurl) in Htag. discriminate Htag.
  - rewrite (Hother Hown Hnot) in Htag. discriminate Htag.
Qed.

(** A custom node at a URL of its own: the client's tag is 0, the
    helper's is 74; without the URL there is no client. *)
Lemma chain_tag_of_unknown_network_witness :
  own "custom" NETWORKS = None
  /\ local_getChainTag "custom" = 74
  /\ client_chainTag "custom" (Some "http://localhost:8669") = Ok (Some 0)
  /\ new_ThorClient "custom" None = Throw (JsError "Unknown network: custom").
Proof.
  split; [ reflexivity | ].
  destruct (proj2 (chain_tag_of_unknown_network "custom"
                     (Some "http://localhost:8669")) eq_refl)
    as (Hlocal & Hclient & _).
  destruct (proj2 (chain_tag_of_unknown_network "custom" None) eq_refl)
    as (_ & _ & Hbare & _).
  split; [ exact Hlocal | ].
  split; [ | apply Hbare; reflexivity ].
  unfold client_chainTag. rewrite (Hclient eq_refl eq_refl). reflexivity.
Defined.

(** The three networks of the table, and two names outside it. *)
Example chain_tags_of_the_table :
  client_chainTag "mainnet" None = Ok (Some 74)
  /\ client_chainTag "testnet" None = Ok (Some 39)
  /\ client_chainTag "solo" None = Ok (Some 246)
  /\ new_ThorClient "devnet" None = Throw (JsError "Unknown network: devnet")
  /\ new_ThorClient "toString" None = Throw TypeError.
Proof. repeat split. Qed.

End ChainTagFacts.
